(** * RewindOS measuring scripts: the Reddit mention tracker and the
      Google Trends decay analysis

    A shallow embedding of [compute_half_life] and of the event window
    extract of [decay/rewindos_google_trends_decay.py] (module [Decay]) and
    of [backlash/rewindos_reddit_no_backlash_tracker.py] (module [Backlash]),
    with the properties their specification states and further properties
    read off the code: those of the tracker follow its definitions in
    [Backlash], those of the decay analysis are in [DecayFacts].

    Modelling conventions.
    - A pandas [Timestamp] is its count of nanoseconds since the epoch, in [Z].
    - Python floats that the scripts compute with are finite; they are kept
      as the rationals they denote ([Q]).  The powers of [BACKOFF_BASE] and
      the halving of a peak are exact in binary floating point.
    - The network, the clock and the file system are outside the program.
      The reply to each HTTP request is given by an oracle; [log], file
      writes and [time.sleep] succeed and are recorded as effects, in the
      order in which they happen.  The wall-clock stamps that [log] and
      [record_error] attach are left out.
    - The payload of a reply is any JSON value.  Where the tracker computes
      with a member it did not check (the envelope of a page, the items, the
      creation time and the permalink of an item), the model has the values
      on which the code raises next to those the endpoint documents, and the
      exception goes where the code lets it go: into a diagnostic inside the
      [try] of the extraction, out of [main] elsewhere.
    - The counters of a record are JSON integers; pandas keeps such a column
      as 64-bit integers, and its sums wrap around.
    - Library functions whose result the scripts only pass along
      ([urlencode], the SHA-1 digest, [pd.Timestamp] on whole seconds,
      [DataFrame.sort_values], matplotlib) are parameters of the model. *)

From Stdlib Require Import ZArith QArith Qround Qpower List String Bool Lia Permutation Sorted.
Import ListNotations.

Local Open Scope string_scope.
Local Open Scope list_scope.
Local Open Scope Z_scope.

(** String concatenation, Python's [+] on [str]. *)
Local Infix "^^" := String.append (at level 60, right associativity).

(** ** Python helpers shared by both scripts *)

(** [s[:n]] *)
Definition py_prefix (n : nat) (s : string) : string := substring 0 n s.

(** Truthiness of a value that is [None] or a [str]. *)
Definition truthy (s : option string) : bool :=
  match s with
  | Some (String _ _) => true
  | _ => false
  end.

(** [s or ""] *)
Definition or_empty (s : option string) : string :=
  match s with
  | Some x => x
  | None => ""
  end.

(** A JSON number as Python reads it: an [int] or a (finite) [float]. *)
Inductive pynum :=
| PyInt (z : Z)
| PyFloat (q : Q).

(** [int(x)]: truncation toward zero. *)
Definition py_int (x : pynum) : Z :=
  match x with
  | PyInt z => z
  | PyFloat q => Z.quot (Qnum q) (Zpos (Qden q))
  end.

(** The rational a number denotes. *)
Definition pynum_Q (x : pynum) : Q :=
  match x with
  | PyInt z => inject_Z z
  | PyFloat q => q
  end.

(** A computation that returns or raises; [exc] is [repr] of the exception. *)
Inductive result (A : Type) :=
| Ok (a : A)
| Raise (exc : string).
Arguments Ok {A} a.
Arguments Raise {A} exc.

(** ** pandas timestamps *)

Definition Timestamp := Z.

Definition NS_PER_SECOND : Z := 1000000000.
Definition NS_PER_DAY : Z := 86400 * NS_PER_SECOND.

Module Decay.

(** One row of the trends frame for one term: its [date] and the (smoothed)
    interest value. *)
Record point := {
  date : Timestamp;
  value : Q
}.

(** [x < y] on floats *)
Definition Qlt_bool (x y : Q) : bool := negb (Qle_bool y x).

(** [Series.idxmax()]: the label of the first row that holds the maximum. The
    frame carries the default index, so a label is a position. *)
Fixpoint argmax_from (i best_i : nat) (best : Q) (vs : list Q) : nat :=
  match vs with
  | [] => best_i
  | v :: rest =>
      if Qlt_bool best v then argmax_from (S i) i v rest
      else argmax_from (S i) best_i best rest
  end.

Definition idxmax (vs : list Q) : result nat :=
  match vs with
  | [] => Raise "ValueError('attempt to get argmax of an empty sequence')"
  | v :: rest => Ok (argmax_from 1 0 v rest)
  end.

(** [round(x, 2)]: the nearest hundredth, a tie going to the even one. *)
Definition py_round2 (x : Q) : Q :=
  let y := (x * 100)%Q in
  let n := Qfloor y in
  let r := (y - inject_Z n)%Q in
  let m :=
    if Qlt_bool r (1 # 2) then n
    else if Qlt_bool (1 # 2) r then n + 1
    else if Z.even n then n else n + 1 in
  Qred (m # 100).

(** [(half_date - peak_date).days / 7] *)
Definition weeks_between (peak_date half_date : Timestamp) : Q :=
  (inject_Z ((half_date - peak_date) / NS_PER_DAY) / 7)%Q.

(** [compute_half_life(df, col)], on the column [col] of [df]. *)
Definition compute_half_life (df : list point) : result (option Q) :=
  match idxmax (map value df) with
  | Raise e => Raise e
  | Ok peak_idx =>
      match nth_error df peak_idx with
      | None => Raise "KeyError"
      | Some peak =>
          let peak_date := date peak in
          let peak_val := value peak in
          let half_val := (peak_val / 2)%Q in
          let after_peak := filter (fun p => peak_date <=? date p) df in
          let half_row := filter (fun p => Qle_bool (value p) half_val) after_peak in
          match half_row with
          | [] => Ok None
          | half :: _ => Ok (Some (py_round2 (weeks_between peak_date (date half))))
          end
      end
  end.

(** *** The half-life as the specification words it

    The number of weeks from the global peak of the series to the first
    point after it whose value is at most half the peak value; absent when
    there is no such point. *)

(** The global peak: the first point holding the largest value, with the
    points that come after it. *)
Fixpoint split_at_peak (best : point) (after_best : list point) (ps : list point)
    : point * list point :=
  match ps with
  | [] => (best, after_best)
  | p :: rest =>
      if Qlt_bool (value best) (value p) then split_at_peak p rest rest
      else split_at_peak best after_best rest
  end.

Definition spec_half_life (series : list point) : option Q :=
  match series with
  | [] => None
  | p :: rest =>
      let (peak, later) := split_at_peak p rest rest in
      match find (fun x => Qle_bool (value x) (value peak / 2)%Q) later with
      | Some x => Some (weeks_between (date peak) (date x))
      | None => None
      end
  end.

(** A series in date order: each point is dated after the one before it. *)
Definition date_ordered (series : list point) : Prop :=
  StronglySorted (fun a b => date a < date b) series.

(** The same, allowing equal dates. *)
Definition date_sorted (series : list point) : Prop :=
  StronglySorted (fun a b => date a <= date b) series.

(** The value of the global peak: the largest value of the series. *)
Definition running_max (init : Q) (ps : list point) : Q :=
  fold_right (fun p m => if Qlt_bool m (value p) then value p else m) init ps.

Definition peak_value (series : list point) : Q :=
  running_max (match series with p :: _ => value p | [] => 0%Q end) series.

(** *** Series for the examples *)

Definition at_day (day : Z) (v : Q) : point :=
  {| date := day * NS_PER_DAY; value := v |}.

(** A peak of 100 at week 0 that decays to 50 at week 4. *)
Definition decaying_series : list point :=
  [at_day 0 100; at_day 7 90; at_day 14 75; at_day 21 60; at_day 28 50;
   at_day 35 45].

(** A series that stays above half its peak. *)
Definition lasting_series : list point :=
  [at_day 0 80; at_day 7 100; at_day 14 75; at_day 21 60].

(** A series without any interest, and one of a single such point. *)
Definition flat_series : list point := [at_day 0 0; at_day 7 0; at_day 14 0].
Definition single_zero : list point := [at_day 0 0].

(** A series whose half-life is not a whole number of weeks. *)
Definition ten_day_series : list point := [at_day 0 100; at_day 10 50].

(** *** The event window extract

    The script keeps the rows of the merged frame dated within
    [EVENT_WINDOW_DAYS] days of [EVENT_DATE] and adds their offset from the
    event in days. A row has a date and one column for each term; the extract
    reads only its date. *)

(** [EVENT_DATE = pd.Timestamp("2025-01-17")] *)
Definition EVENT_DATE : Timestamp := 20105 * NS_PER_DAY.
Definition EVENT_WINDOW_DAYS : Z := 60.

(** [pd.Timedelta(days=n)] *)
Definition Timedelta (days : Z) : Z := days * NS_PER_DAY.

(** [.dt.days]: the whole days of a time difference, rounded down. *)
Definition dt_days (delta : Z) : Z := delta / NS_PER_DAY.

(** [event_df], each row paired with its [event_day_offset]. *)
Definition event_df {row : Type} (row_date : row -> Timestamp)
    (full_df : list row) : list (row * Z) :=
  map (fun r => (r, dt_days (row_date r - EVENT_DATE)))
      (filter (fun r => (EVENT_DATE - Timedelta EVENT_WINDOW_DAYS <=? row_date r)
                        && (row_date r <=? EVENT_DATE + Timedelta EVENT_WINDOW_DAYS))
              full_df).

(** *** Changes of a series that statements speak of *)

(** The same series on another scale of interest. *)
Definition rescale (c : Q) (p : point) : point :=
  {| date := date p; value := (c * value p)%Q |}.

(** The same series moved in time. *)
Definition shift (t : Z) (p : point) : point :=
  {| date := date p + t; value := value p |}.

(** Rows around the event, for the examples. *)
Definition rows_around_event : list point :=
  [at_day 20040 10; at_day 20045 20; at_day 20105 30; at_day 20165 40;
   at_day 20166 50].


End Decay.

Module Backlash.

(** ** Configuration constants *)

Definition RETRIES : nat := 5.
Definition BACKOFF_BASE : Q := 2.

Definition OUT_DIR : string := "reddit_outputs".

(** [os.path.join(OUT_DIR, name)] *)
Definition out_path (name : string) : string := OUT_DIR ^^ "/" ^^ name.

Definition ERRORS_CSV : string := out_path "reddit_errors.csv".
Definition POSTS_CSV : string := out_path "reddit_posts_raw.csv".
Definition WEEKLY_CSV : string := out_path "reddit_weekly_metrics.csv".
Definition QUERY_SUMMARY_CSV : string := out_path "reddit_query_summary.csv".
Definition PNG_WEEKLY : string := out_path "reddit_weekly_mentions.png".
Definition PNG_ENGAGE : string := out_path "reddit_weekly_engagement.png".
Definition PNG_EVENT : string := out_path "reddit_event_window.png".

Definition SUBREDDITS : list string :=
  ["severanceappleTVplus"; "television"; "appletv"; "Severance"].

(** A phrase between double quotes, as the queries write it. *)
Definition quoted (s : string) : string :=
  let dq := String (Ascii.ascii_of_nat 34) EmptyString in
  dq ^^ s ^^ dq.

Definition QUERY_BROAD : list string :=
  [quoted "baby it's cold outside" ^^ " severance";
   quoted "baby it's cold outside" ^^ " " ^^ quoted "apple tv";
   quoted "baby its cold outside" ^^ " severance"].

Definition QUERY_BACKLASH : list string :=
  [quoted "baby it's cold outside"
     ^^ " severance (banned OR cancel OR backlash OR problematic OR sexist)";
   quoted "baby it's cold outside" ^^ " " ^^ quoted "apple tv"
     ^^ " (banned OR cancel OR backlash OR problematic OR sexist)";
   quoted "baby its cold outside"
     ^^ " severance (banned OR cancel OR backlash OR problematic OR sexist)"].

Definition QUERY_SPECIFIC : list string :=
  [quoted "baby it's cold outside" ^^ " banned severance";
   quoted "baby it's cold outside" ^^ " controversy severance"].

(** [START_DATE = "2024-10-01"], as a timestamp. *)
Definition START_DATE : Timestamp := 19997 * NS_PER_DAY.

(** [EVENT_DATE = pd.Timestamp("2025-01-17", tz="UTC")] *)
Definition EVENT_DATE : Timestamp := 20105 * NS_PER_DAY.
Definition EVENT_WINDOW_DAYS : Z := 90.

(** ** Data model *)

(** A [created_utc] that is not null. A JSON number is kept as it is. Any
    other value (a string, a boolean, a list, an object, one of the
    non-finite floats that Python's parser accepts) is given by its text, with
    what [int] makes of it: [int] reads the booleans and a string such as
    "1736000000", and raises on the rest. *)
Inductive created :=
| Number (x : pynum)
| NotANumber (text : string) (as_int : result Z).

(** [int(created_utc)] *)
Definition int_created (created_utc : created) : result Z :=
  match created_utc with
  | Number x => Ok (py_int x)
  | NotANumber _ as_int => as_int
  end.

(** A [permalink]: a string, or a value that [+] cannot append to one, null
    among them ([exc] is the [TypeError]). *)
Inductive link :=
| Link (s : string)
| NotALink (exc : string).

(** The [data] object of one search result, as far as the script reads it.
    A field is [None] when its key is missing, [created_utc] also when it is
    null. The two fields the script computes with, [created_utc] and
    [permalink], hold any value; the fields it only passes along have the
    types of the expected response. *)
Record item := {
  i_id : option string;
  i_name : option string;
  i_created_utc : option created;
  i_subreddit : option string;
  i_title : option string;
  i_selftext : option string;
  i_score : option Z;
  i_num_comments : option Z;
  i_permalink : option link
}.

(** [{}] *)
Definition empty_item : item :=
  {| i_id := None; i_name := None; i_created_utc := None;
     i_subreddit := None; i_title := None; i_selftext := None;
     i_score := None; i_num_comments := None; i_permalink := None |}.

(** One element of [children]: a JSON object whose [data] member, when it has
    one, is an object; or a value on which [.get] raises, the child itself or
    its [data] member being no object ([exc] is the [AttributeError]). *)
Inductive child :=
| ChildObj (data : option item)
| NotAnObject (exc : string).

(** The value of [children], as the paginator treats it: its elements when
    it can be iterated (those of a list; the keys of an object and the
    characters of a string, none of which is an object), no element when it
    is missing or falsy, or a value that [for] cannot iterate, a number other
    than 0 or [true] ([exc] is the [TypeError]). *)
Inductive items :=
| Items (cs : list child)
| NotIterable (exc : string).

(** [data["data"]] when it is an object. [after] is the cursor as
    [urlencode] writes it; a missing, null or otherwise falsy cursor reads
    as [None] or as the empty string. *)
Record listing := {
  children : items;
  after : option string
}.

(** The [data] member of a payload: an object, or a value without [.get]
    ([exc] is the [AttributeError]). *)
Inductive data_member :=
| Listing (l : listing)
| NotAListing (exc : string).

(** A value [r.json()] returns other than null, as the paginator tells such
    values apart. [Envelope e_data] is an object, with its [data] member when
    it has one; with [e_data = None] it also stands for the values in which
    the paginator finds no [data] without raising: a falsy value, or a string
    or list that does not hold ["data"]. [NotAnEnvelope exc] is a value on
    which [in] or the subscript raises: a number other than 0 or [true], or a
    string or list that holds ["data"]. *)
Inductive envelope :=
| Envelope (e_data : option data_member)
| NotAnEnvelope (exc : string).

(** What [r.json()] does: returns [None] (JSON null) or another value, or
    raises. *)
Inductive body :=
| Json (p : option envelope)
| JsonError (exc : string).

(** What [requests.get] does: returns a response or raises. *)
Inductive outcome :=
| Response (status_code : Z) (content_type : string) (text : string) (json : body)
| Raised (exc : string).

(** A row of the posts table: the dict [fetch_posts_for_query] appends. *)
Record post := {
  p_id : option string;
  p_fullname : option string;
  p_created_utc : created;
  p_created_dt : Timestamp;
  p_subreddit : option string;
  p_title : string;
  p_selftext : string;
  p_score : Z;
  p_num_comments : Z;
  p_permalink : string;
  p_query : string;
  p_scope_subreddit : string
}.

(** A row of the weekly table. *)
Record week_row := {
  week : Timestamp;
  mentions : nat;
  score_sum : Z;
  comments_sum : Z
}.

(** A row of the per-query summary. *)
Record summary_row := {
  query_type : string;
  s_query : string;
  subreddit_scope : string;
  posts_collected : nat;
  start_utc : Timestamp;
  end_utc : Timestamp
}.

(** A diagnostic of [record_error]; the constructor is the stage. *)
Inductive diag :=
| http_retryable (status : Z) (url snippet : string)
| http_non_200 (status : Z) (url raw_saved_as : string)
| json_parse_failed (url raw_saved_as exception : string)
| request_exception (url exception : string)
| request_failed_all_retries (url exception : string)
| parse_child_failed (exception query subreddit : string)
| plot_failed (exception : string).

(** The pieces of a formatted log line. *)
Inductive piece :=
| Str (s : string)
| Num (z : Z)
| Flt (q : Q).

(** What is written to a file. Tables stand for their CSV rendering. *)
Inductive content :=
| RawText (s : string)
| PostsTable (rows : list post)
| WeeklyTable (rows : list week_row)
| SummaryTable (rows : list summary_row)
| ErrorsTable (rows : list diag)
| Figure.

(** What the program does to the outside world. *)
Inductive effect :=
| Get (url : string)
| Log (line : list piece)
| Sleep (seconds : Q)
| WriteFile (path : string) (c : content).

(** The state a run threads: how many requests were sent, the module-level
    list [_errors], and the effects so far (oldest first). *)
Record world := {
  requests : nat;
  errors : list diag;
  effects : list effect
}.

Definition initial_world : world :=
  {| requests := 0; errors := []; effects := [] |}.

(** ** A state monad over [world] *)

Definition M (A : Type) : Type := world -> A * world.

Definition ret {A} (a : A) : M A := fun w => (a, w).

Definition bind {A B} (m : M A) (f : A -> M B) : M B :=
  fun w => let (a, w') := m w in f a w'.

Notation "x <- m ;; k" := (bind m (fun x => k))
  (at level 61, m at next level, right associativity).
Notation "m ;; k" := (bind m (fun _ => k))
  (at level 61, right associativity).

(** Sequencing that an exception cuts short: what follows a computation that
    raised is not run. *)
Definition bind_ok {A B} (m : M (result A)) (f : A -> M (result B))
    : M (result B) :=
  r <- m ;;
  match r with
  | Ok a => f a
  | Raise exc => ret (Raise exc)
  end.

Notation "x <-! m ;; k" := (bind_ok m (fun x => k))
  (at level 61, m at next level, right associativity).

Definition emit (e : effect) : M unit :=
  fun w => (tt, {| requests := requests w; errors := errors w;
                   effects := effects w ++ [e] |}).

Definition log (line : list piece) : M unit := emit (Log line).

Definition sleep (seconds : Q) : M unit := emit (Sleep seconds).

Definition write_file (path : string) (c : content) : M unit :=
  emit (WriteFile path c).

Definition record_error (d : diag) : M unit :=
  fun w => (tt, {| requests := requests w; errors := errors w ++ [d];
                   effects := effects w |}).

(** [flush_errors] *)
Definition flush_errors : M unit :=
  fun w =>
    match errors w with
    | [] => (tt, w)
    | _ =>
        (write_file ERRORS_CSV (ErrorsTable (errors w)) ;;
         log [Str "Wrote errors CSV: "; Str ERRORS_CSV; Str " (";
              Num (Z.of_nat (List.length (errors w))); Str " rows)"]) w
    end.

(** The file a path holds after a list of effects: the last write wins. *)
Fixpoint file_content (path : string) (es : list effect) : option content :=
  match es with
  | [] => None
  | e :: rest =>
      match file_content path rest with
      | Some c => Some c
      | None =>
          match e with
          | WriteFile p c => if String.eqb p path then Some c else None
          | _ => None
          end
      end
  end.

(** The requests and the sleeps among a list of effects, in order. *)
Definition is_get_or_sleep (e : effect) : bool :=
  match e with
  | Get _ | Sleep _ => true
  | _ => false
  end.

Definition timeline (es : list effect) : list effect := filter is_get_or_sleep es.

(** ** Instances of the parameters, for the examples

    A stable insertion sort for [sort_values]; a stand-in for [urlencode]
    that joins the pairs without escaping; the SHA-1 digest of the empty
    body; and a few scripted servers. *)

Fixpoint insert_by_key {A : Type} (key : A -> Z) (x : A) (l : list A) : list A :=
  match l with
  | [] => [x]
  | y :: rest =>
      if key x <=? key y then x :: l else y :: insert_by_key key x rest
  end.

Definition stable_sort (A : Type) (key : A -> Z) (l : list A) : list A :=
  fold_right (insert_by_key key) [] l.



Fixpoint join_params (params : list (string * string)) : string :=
  match params with
  | [] => ""
  | [(k, v)] => k ^^ "=" ^^ v
  | (k, v) :: rest => k ^^ "=" ^^ v ^^ "&" ^^ join_params rest
  end.

Definition digest_of_empty (content : string) : string :=
  "da39a3ee5e6b4b0d3255bfef95601890afd80709".

(** [pd.Timestamp(s, unit="s", tz="UTC")] as pandas before 2.0 has it: the
    nanoseconds are kept in a signed 64-bit integer, and a second that does
    not fit is refused. *)
Definition Timestamp_ns (s : Z) : result Timestamp :=
  let ns := s * NS_PER_SECOND in
  if (- 2 ^ 63 <? ns) && (ns <? 2 ^ 63) then Ok ns
  else Raise "OutOfBoundsDatetime".

Definition never_raises (weekly : list week_row) : option string := None.

(** The payload of a page of results. *)
Definition page_of (cs : list child) (cursor : option string) : body :=
  Json (Some (Envelope (Some (Listing {| children := Items cs; after := cursor |})))).

(** A server that is always overloaded. *)
Definition busy_server (n : nat) (url : string) : outcome :=
  Response 503 "text/html" "" (JsonError "JSONDecodeError").

(** A server that refuses every request. *)
Definition forbidden_server (n : nat) (url : string) : outcome :=
  Response 403 "text/html" "" (JsonError "JSONDecodeError").

(** A server whose every page is empty. *)
Definition empty_server (n : nat) (url : string) : outcome :=
  Response 200 "application/json" "{}" (page_of [] None).

(** A server with a single item, created half a second after second 100. *)
Definition late_item : item :=
  {| i_id := Some "abc"; i_name := Some "t3_abc";
     i_created_utc := Some (Number (PyFloat (201 # 2)));
     i_subreddit := Some "television"; i_title := Some "title";
     i_selftext := None; i_score := Some 3; i_num_comments := Some 1;
     i_permalink := Some (Link "/r/television/comments/abc/") |}.

Definition late_item_server (n : nat) (url : string) : outcome :=
  Response 200 "application/json" "{}" (page_of [ChildObj (Some late_item)] None).

(** A server whose pages carry a cursor and, in place of the list of items,
    the number 5. *)
Definition broken_server (n : nat) (url : string) : outcome :=
  Response 200 "application/json" "{}"
    (Json (Some (Envelope (Some (Listing
       {| children := NotIterable "TypeError('int' object is not iterable)";
          after := Some "t3_next" |}))))).

(** A server that answers its first request with a page of one item and a
    cursor, and then as [broken_server]. *)
Definition breaking_server (n : nat) (url : string) : outcome :=
  match n with
  | O => Response 200 "application/json" "{}"
           (page_of [ChildObj (Some late_item)] (Some "t3_next"))
  | S _ => broken_server n url
  end.

(** A few records: two sightings of [abc], one of [xyz], one without
    identifier. *)
Definition sighting (i : option string) (seconds score comments : Z) : post :=
  {| p_id := i; p_fullname := None;
     p_created_utc := Number (PyInt seconds);
     p_created_dt := seconds * NS_PER_SECOND;
     p_subreddit := Some "television"; p_title := ""; p_selftext := "";
     p_score := score; p_num_comments := comments;
     p_permalink := "https://www.reddit.com";
     p_query := "q"; p_scope_subreddit := "television" |}.

Definition sightings : list post :=
  [sighting (Some "abc") 1736000000 5 2;
   sighting (Some "xyz") 1730000000 1 0;
   sighting (Some "abc") 1736000000 5 2;
   sighting None 1736100000 7 1].


(** A server whose connection drops on every other request and that limits
    the rate in between. *)
Definition unsteady_server (n : nat) (url : string) : outcome :=
  if Nat.even n then Raised "ConnectionError()"
  else Response 429 "text/html" "" (JsonError "JSONDecodeError").

(** A server that recovers at its third request. *)
Definition recovering_server (n : nat) (url : string) : outcome :=
  if (n <? 2)%nat then unsteady_server n url else empty_server n url.

(** A plot that fails. *)
Definition always_raises (weekly : list week_row) : option string :=
  Some "RuntimeError('no display')".

(** Three records of one week whose scores add up to more than a 64-bit
    integer holds. *)
Definition heavy_sightings : list post :=
  [sighting (Some "a") 1736000000 (2 ^ 62) 0;
   sighting (Some "b") 1736000001 (2 ^ 62) 0;
   sighting (Some "c") 1736000002 5 0].


(** Two sightings of the same post, the later one first. *)
Definition resightings : list post :=
  [sighting (Some "abc") 1736500000 9 4;
   sighting (Some "abc") 1736000000 5 2].

Section Tracker.

Set Default Proof Using "Type".

(** The network: the reply to the [n]-th request of the run, sent to [url]. *)
Variable server : nat -> string -> outcome.

(** [urllib.parse.urlencode] *)
Variable urlencode : list (string * string) -> string.

(** [hashlib.sha1(content.encode("utf-8", errors="ignore")).hexdigest()] *)
Variable sha1_hexdigest : string -> string.

(** [pd.Timestamp(s, unit="s", tz="UTC")]. Which whole seconds it accepts is
    a matter of the version of pandas: before 2.0 those whose nanoseconds fit
    a signed 64-bit integer, a wider range since. On the others it raises.
    The model takes the constructor as a parameter, and the theorems say what
    they need of it. *)
Variable Timestamp_s : Z -> result Timestamp.

(** [requests.get(url, headers=headers, timeout=REQUEST_TIMEOUT)] *)
Definition get (url : string) : M outcome :=
  fun w => (server (requests w) url,
            {| requests := S (requests w); errors := errors w;
               effects := effects w ++ [Get url] |}).

Definition safe_filename (prefix content ext : string) : string :=
  let h := py_prefix 10 (sha1_hexdigest content) in
  out_path (prefix ^^ "_" ^^ h ^^ "." ^^ ext).

Definition retryable (status_code : Z) : bool :=
  existsb (Z.eqb status_code) [429; 500; 502; 503; 504].

(** [BACKOFF_BASE ** (attempt - 1)] *)
Definition backoff (attempt : nat) : Q :=
  Qpower BACKOFF_BASE (Z.of_nat attempt - 1).

Definition repr_exc (last_exc : option string) : string :=
  match last_exc with
  | Some e => e
  | None => "None"
  end.

(** The body of [request_json]: the loop over the remaining attempts. *)
Fixpoint request_attempts (url : string) (attempts : list nat)
    (last_exc : option string) : M (option envelope) :=
  match attempts with
  | [] =>
      record_error (request_failed_all_retries (py_prefix 300 url) (repr_exc last_exc)) ;;
      ret None
  | attempt :: rest =>
      r <- get url ;;
      match r with
      | Raised e =>
          record_error (request_exception (py_prefix 300 url) e) ;;
          sleep (backoff attempt) ;;
          request_attempts url rest (Some e)
      | Response status_code ct text json =>
          log [Str "GET "; Num status_code; Str " | "; Str ct; Str " | ";
               Str (py_prefix 120 url); Str "..."] ;;
          if retryable status_code then
            record_error (http_retryable status_code (py_prefix 300 url)
                                         (py_prefix 300 text)) ;;
            log [Str "Retryable "; Num status_code; Str ". Sleeping ";
                 Flt (backoff attempt); Str "s"] ;;
            sleep (backoff attempt) ;;
            request_attempts url rest last_exc
          else if negb (status_code =? 200) then
            let raw := safe_filename "reddit_raw_http" text "txt" in
            write_file raw (RawText text) ;;
            record_error (http_non_200 status_code (py_prefix 300 url) raw) ;;
            ret None
          else
            match json with
            | Json p => ret p
            | JsonError e =>
                let raw := safe_filename "reddit_raw_parsefail" text "txt" in
                write_file raw (RawText text) ;;
                record_error (json_parse_failed (py_prefix 300 url) raw e) ;;
                ret None
            end
      end
  end.

(** [for attempt in range(1, RETRIES + 1)] *)
Definition request_json (url : string) : M (option envelope) :=
  request_attempts url (seq 1 RETRIES) None.

(** [reddit_search_url], with its defaults [sort="new"] and [limit=100]. *)
Definition reddit_search_url (query : string) (subreddit after : option string)
    : string :=
  let base := "https://www.reddit.com" in
  let path :=
    if truthy subreddit then "/r/" ^^ or_empty subreddit ^^ "/search.json"
    else "/search.json" in
  let params :=
    [("q", query); ("sort", "new");
     ("restrict_sr", if truthy subreddit then "1" else "0");
     ("limit", "100"); ("t", "all"); ("type", "link")]
    ++ (if truthy after then [("after", or_empty after)] else []) in
  base ^^ path ^^ "?" ^^ urlencode params.

(** [within_range]; it raises when [int] or [pd.Timestamp] does. *)
Definition within_range (created_utc : created) (start_ts end_ts : Timestamp)
    : result bool :=
  match int_created created_utc with
  | Raise e => Raise e
  | Ok seconds =>
      match Timestamp_s seconds with
      | Raise e => Raise e
      | Ok t => Ok ((start_ts <=? t) && (t <=? end_ts))
      end
  end.

(** [pd.Timestamp(int(created_utc), unit="s", tz="UTC")] *)
Definition created_dt_of (created_utc : created) : result Timestamp :=
  match int_created created_utc with
  | Raise e => Raise e
  | Ok seconds => Timestamp_s seconds
  end.

(** ["https://www.reddit.com" + d.get("permalink", "")] *)
Definition permalink_of (d : item) : result string :=
  match i_permalink d with
  | None => Ok "https://www.reddit.com"
  | Some (Link s) => Ok ("https://www.reddit.com" ^^ s)
  | Some (NotALink e) => Raise e
  end.

(** The body of the [try] for one child: the post to append, [None] when the
    child is skipped by [continue], or the exception the [except] catches.
    (The flag [any_in_range] is set and never read.) *)
Definition child_post (query : string) (subreddit : option string)
    (start_ts end_ts : Timestamp) (c : child) : result (option post) :=
  match c with
  | NotAnObject e => Raise e
  | ChildObj data =>
      let d := match data with Some d => d | None => empty_item end in
      match i_created_utc d with
      | None => Ok None
      | Some created_utc =>
          match within_range created_utc start_ts end_ts with
          | Raise e => Raise e
          | Ok false => Ok None
          | Ok true =>
              match created_dt_of created_utc with
              | Raise e => Raise e
              | Ok created_dt =>
                  match permalink_of d with
                  | Raise e => Raise e
                  | Ok permalink =>
                      Ok (Some {| p_id := i_id d;
                                  p_fullname := i_name d;
                                  p_created_utc := created_utc;
                                  p_created_dt := created_dt;
                                  p_subreddit := i_subreddit d;
                                  p_title := or_empty (i_title d);
                                  p_selftext := or_empty (i_selftext d);
                                  p_score :=
                                    match i_score d with Some z => z | None => 0 end;
                                  p_num_comments :=
                                    match i_num_comments d with
                                    | Some z => z
                                    | None => 0
                                    end;
                                  p_permalink := permalink;
                                  p_query := query;
                                  p_scope_subreddit := or_empty subreddit |})
                  end
              end
          end
      end
  end.

(** [for child in children: try: ... except Exception as e: record_error(...)] *)
Fixpoint extract (query : string) (subreddit : option string)
    (start_ts end_ts : Timestamp) (cs : list child) (posts : list post)
    : M (list post) :=
  match cs with
  | [] => ret posts
  | c :: rest =>
      match child_post query subreddit start_ts end_ts c with
      | Ok None => extract query subreddit start_ts end_ts rest posts
      | Ok (Some p) => extract query subreddit start_ts end_ts rest (posts ++ [p])
      | Raise e =>
          record_error (parse_child_failed e query (or_empty subreddit)) ;;
          extract query subreddit start_ts end_ts rest posts
      end
  end.

(** The [while pages < max_pages] loop; [remaining] is [max_pages - pages].
    The loop raises, and the records collected so far are lost with it, when
    a payload is not what it reads it as: at ["data" not in data] or
    [data["data"]], at [.get], or at [for child in children]. *)
Fixpoint fetch_pages (remaining : nat) (query : string) (subreddit : option string)
    (start_ts end_ts : Timestamp) (cursor : option string) (posts : list post)
    : M (result (list post)) :=
  match remaining with
  | O => ret (Ok posts)
  | S n =>
      data <- request_json (reddit_search_url query subreddit cursor) ;;
      match data with
      | None => ret (Ok posts)
      | Some (NotAnEnvelope exc) => ret (Raise exc)
      | Some (Envelope None) => ret (Ok posts)
      | Some (Envelope (Some (NotAListing exc))) => ret (Raise exc)
      | Some (Envelope (Some (Listing l))) =>
          match children l with
          | NotIterable exc => ret (Raise exc)
          | Items [] => ret (Ok posts)
          | Items cs =>
              posts' <- extract query subreddit start_ts end_ts cs posts ;;
              if negb (truthy (after l)) then ret (Ok posts')
              else
                sleep 1 ;;
                fetch_pages n query subreddit start_ts end_ts (after l) posts'
          end
      end
  end.

Definition fetch_posts_for_query (query : string) (subreddit : option string)
    (start_ts end_ts : Timestamp) (max_pages : nat) : M (result (list post)) :=
  fetch_pages max_pages query subreddit start_ts end_ts None [].

(** ** Analysis *)

(** [DataFrame.sort_values(by)] on a column of timestamps, ascending. pandas
    sorts with its default [kind], which is not promised to be stable: the
    model takes the sort as a parameter, and the theorems say what they
    need of it. *)
Variable sort_values : forall A : Type, (A -> Z) -> list A -> list A.

(** Whether rendering a figure raises, before its file is written, and with
    which exception: the figure of the mentions and that of the engagement,
    which [plot_weekly] draws one after the other, and that of the event
    window. *)
Variable plot_mentions_raises : list week_row -> option string.
Variable plot_engagement_raises : list week_row -> option string.
Variable plot_event_window_raises : list week_row -> option string.

Definition id_eqb (a b : option string) : bool :=
  match a, b with
  | Some x, Some y => String.eqb x y
  | None, None => true
  | _, _ => false
  end.

(** [drop_duplicates(subset=["id"])]: the first row of each identifier is
    kept; a missing identifier counts as a value. *)
Fixpoint drop_duplicates_from (seen : list (option string)) (df : list post)
    : list post :=
  match df with
  | [] => []
  | p :: rest =>
      if existsb (id_eqb (p_id p)) seen then drop_duplicates_from seen rest
      else p :: drop_duplicates_from (p_id p :: seen) rest
  end.

Definition drop_duplicates (df : list post) : list post :=
  drop_duplicates_from [] df.

(** [Series.nunique()]: the number of distinct values, missing ones left out. *)
Fixpoint present (ids : list (option string)) : list string :=
  match ids with
  | [] => []
  | Some s :: rest => s :: present rest
  | None :: rest => present rest
  end.

Definition nunique (ids : list (option string)) : nat :=
  List.length (nodup string_dec (present ids)).

(** The exact sum of a list of integers. *)
Definition total (zs : list Z) : Z := fold_right Z.add 0 zs.

(** The signed 64-bit integers, and the one an integer wraps around to. *)
Definition int64 (z : Z) : Prop := - 2 ^ 63 <= z < 2 ^ 63.

Definition wrap64 (z : Z) : Z := (z + 2 ^ 63) mod 2 ^ 64 - 2 ^ 63.

(** [sum] over a column of dtype int64, the dtype pandas gives a column of
    JSON integers that fit it: the values are added one by one in 64-bit
    arithmetic, which wraps around without a warning. *)
Definition sum (zs : list Z) : Z :=
  fold_left (fun acc z => wrap64 (acc + z)) zs 0.

(** [dt.to_period("W").dt.start_time]: the Monday, 00:00 UTC, of the week
    (Monday to Sunday) a timestamp lies in. Day 0 of the epoch is a Thursday. *)
Definition week_start (t : Timestamp) : Timestamp :=
  let day := t / NS_PER_DAY in
  (day - (day + 3) mod 7) * NS_PER_DAY.

(** The keys of a [groupby]: each value once, ascending. *)
Fixpoint insert_key (k : Z) (ks : list Z) : list Z :=
  match ks with
  | [] => [k]
  | k' :: rest =>
      if k <? k' then k :: ks
      else if k =? k' then ks
      else k' :: insert_key k rest
  end.

Definition group_keys (ks : list Z) : list Z := fold_right insert_key [] ks.

Definition post_week (p : post) : Timestamp := week_start (p_created_dt p).

(** The rows of one group. *)
Definition group (w : Timestamp) (df : list post) : list post :=
  filter (fun p => post_week p =? w) df.

Definition weekly_aggregate (df : list post) : list week_row :=
  match df with
  | [] => []
  | _ =>
      let agg :=
        map (fun w =>
               let g := group w df in
               {| week := w;
                  mentions := nunique (map p_id g);
                  score_sum := sum (map p_score g);
                  comments_sum := sum (map p_num_comments g) |})
            (group_keys (map post_week df)) in
      sort_values week_row week agg
  end.

(** Rendering a figure either raises and leaves no file, or writes it. *)
Definition plot_weekly (weekly : list week_row) : M (result unit) :=
  match plot_mentions_raises weekly with
  | Some e => ret (Raise e)
  | None =>
      write_file PNG_WEEKLY Figure ;;
      match plot_engagement_raises weekly with
      | Some e => ret (Raise e)
      | None =>
          write_file PNG_ENGAGE Figure ;;
          ret (Ok tt)
      end
  end.

Definition plot_event_window (weekly : list week_row) : M (result unit) :=
  let ws := EVENT_DATE - EVENT_WINDOW_DAYS * NS_PER_DAY in
  let we := EVENT_DATE + EVENT_WINDOW_DAYS * NS_PER_DAY in
  let w := filter (fun r => (ws <=? week r) && (week r <=? we)) weekly in
  match plot_event_window_raises w with
  | Some e => ret (Raise e)
  | None =>
      write_file PNG_EVENT Figure ;;
      ret (Ok tt)
  end.

(** ** Main *)

(** [df.sort_values("created_dt").drop_duplicates(subset=["id"])] *)
Definition deduplicate (df : list post) : list post :=
  drop_duplicates (sort_values post p_created_dt df).

Definition all_queries : list (string * string) :=
  map (pair "broad") QUERY_BROAD ++ map (pair "backlash") QUERY_BACKLASH
  ++ map (pair "specific") QUERY_SPECIFIC.

(** [SUBREDDITS if SUBREDDITS else [None]] *)
Definition scopes : list (option string) :=
  match SUBREDDITS with
  | [] => [None]
  | _ => map Some SUBREDDITS
  end.

(** [sr or "ALL"] *)
Definition or_all (sr : option string) : string :=
  if truthy sr then or_empty sr else "ALL".

(** The body of the two nested [for] loops, for one query and one scope.
    Nothing in [main] catches what the paginator raises. *)
Definition run_query (start_ts end_ts : Timestamp) (qtype q : string)
    (sr : option string) (all_posts : list post) (query_summary : list summary_row)
    : M (result (list post * list summary_row)) :=
  log [Str "Running query_type="; Str qtype; Str " subreddit="; Str (or_all sr);
       Str " query="; Str q] ;;
  posts <-! fetch_posts_for_query q sr start_ts end_ts 20 ;;
  log [Str " -> collected "; Num (Z.of_nat (List.length posts));
       Str " posts in time window"] ;;
  ret (Ok (all_posts ++ posts,
           query_summary ++ [{| query_type := qtype; s_query := q;
                                subreddit_scope := or_all sr;
                                posts_collected := List.length posts;
                                start_utc := start_ts; end_utc := end_ts |}])).

Fixpoint run_scopes (start_ts end_ts : Timestamp) (qtype q : string)
    (srs : list (option string)) (all_posts : list post)
    (query_summary : list summary_row)
    : M (result (list post * list summary_row)) :=
  match srs with
  | [] => ret (Ok (all_posts, query_summary))
  | sr :: rest =>
      r <-! run_query start_ts end_ts qtype q sr all_posts query_summary ;;
      run_scopes start_ts end_ts qtype q rest (fst r) (snd r)
  end.

Fixpoint run_queries (start_ts end_ts : Timestamp) (qs : list (string * string))
    (all_posts : list post) (query_summary : list summary_row)
    : M (result (list post * list summary_row)) :=
  match qs with
  | [] => ret (Ok (all_posts, query_summary))
  | (qtype, q) :: rest =>
      r <-! run_scopes start_ts end_ts qtype q scopes all_posts query_summary ;;
      run_queries start_ts end_ts rest (fst r) (snd r)
  end.

(** The collection phase of [main], up to the query summary. (Creating the
    output directory and removing the log of an earlier run are not
    modelled.) *)
Definition collect (start_ts end_ts : Timestamp) : M (result (list post)) :=
  log [Str "Starting Reddit mention + engagement tracker (no-credential)."] ;;
  r <-! run_queries start_ts end_ts all_queries [] [] ;;
  write_file QUERY_SUMMARY_CSV (SummaryTable (snd r)) ;;
  log [Str "Saved "; Str QUERY_SUMMARY_CSV] ;;
  ret (Ok (fst r)).

(** The rest of [main], from [df = pd.DataFrame(all_posts)]. *)
Definition report (all_posts : list post) : M unit :=
  match all_posts with
  | [] =>
      log [Str "No posts collected across all queries. This may mean true zero OR search limitations."] ;;
      flush_errors ;;
      write_file POSTS_CSV (PostsTable []) ;;
      write_file WEEKLY_CSV (WeeklyTable [])
  | _ =>
      let df := deduplicate all_posts in
      write_file POSTS_CSV (PostsTable df) ;;
      log [Str "Saved "; Str POSTS_CSV; Str " ("; Num (Z.of_nat (List.length df));
           Str " unique posts)"] ;;
      let weekly := weekly_aggregate df in
      write_file WEEKLY_CSV (WeeklyTable weekly) ;;
      log [Str "Saved "; Str WEEKLY_CSV; Str " ("; Num (Z.of_nat (List.length weekly));
           Str " weeks)"] ;;
      r <- plot_weekly weekly ;;
      match r with
      | Raise e => record_error (plot_failed e)
      | Ok _ =>
          log [Str "Saved "; Str PNG_WEEKLY; Str " and "; Str PNG_ENGAGE] ;;
          r' <- plot_event_window weekly ;;
          match r' with
          | Raise e => record_error (plot_failed e)
          | Ok _ => log [Str "Saved "; Str PNG_EVENT]
          end
      end ;;
      let backlash_posts :=
        filter (fun p => existsb (String.eqb (p_query p)) QUERY_BACKLASH) df in
      log [Str "Backlash-query unique posts: ";
           Num (Z.of_nat (nunique (map p_id backlash_posts)))] ;;
      flush_errors ;;
      log [Str "Done."]
  end.

(** [main]; [now] is the reading of the clock ([END_DATE] is [None]). It
    returns, or ends on the exception the paginator raised. *)
Definition main (now : Timestamp) : M (result unit) :=
  all_posts <-! collect START_DATE now ;;
  report all_posts ;;
  ret (Ok tt).

(** ** Vocabulary of the statements *)

(** Accessors used to name the replies of the server in statements. *)
Definition reply_status (o : outcome) : Z :=
  match o with
  | Response status_code _ _ _ => status_code
  | Raised _ => 0
  end.

Definition reply_text (o : outcome) : string :=
  match o with
  | Response _ _ text _ => text
  | Raised _ => ""
  end.

Definition retryable_reply (o : outcome) : bool :=
  match o with
  | Response status_code _ _ _ => retryable status_code
  | Raised _ => false
  end.

(** The diagnostic recorded for a retryable reply. *)
Definition retryable_diag (url : string) (o : outcome) : diag :=
  http_retryable (reply_status o) (py_prefix 300 url) (py_prefix 300 (reply_text o)).

(** The listing a fetch delivered, if any: [None] when the fetch failed or
    its payload has no [data] that is an object. *)
Definition listing_of (data : option envelope) : option listing :=
  match data with
  | Some (Envelope (Some (Listing l))) => Some l
  | _ => None
  end.

(** The exception the paginator raises on what a fetch delivered, if it
    does: the payload does not follow the schema of the endpoint. *)
Definition malformed (data : option envelope) : option string :=
  match data with
  | Some (NotAnEnvelope exc) => Some exc
  | Some (Envelope (Some (NotAListing exc))) => Some exc
  | Some (Envelope (Some (Listing l))) =>
      match children l with
      | NotIterable exc => Some exc
      | Items _ => None
      end
  | _ => None
  end.

(** The items of a listing that can be iterated. *)
Definition items_of (l : listing) : list child :=
  match children l with
  | Items cs => cs
  | NotIterable _ => []
  end.

(** The records a search returned: none when it raised. *)
Definition posts_of (r : result (list post)) : list post :=
  match r with
  | Ok posts => posts
  | Raise _ => []
  end.

(** What extraction guarantees of a record: its [created_dt] is its
    [created_utc] cut to whole seconds, and lies in the window. *)
Definition in_window (start_ts end_ts : Timestamp) (p : post) : Prop :=
  (exists seconds,
      int_created (p_created_utc p) = Ok seconds
      /\ p_created_dt p = seconds * NS_PER_SECOND)
  /\ start_ts <= p_created_dt p <= end_ts.

(** Ascending order of creation time. *)
Definition by_creation_time (df : list post) : Prop :=
  StronglySorted (fun a b => p_created_dt a <= p_created_dt b) df.

(** The calendar week that starts at [w]: Monday 00:00 UTC up to, and not
    including, the next Monday. *)
Definition in_week (w t : Timestamp) : bool :=
  (w <=? t) && (t <? w + 7 * NS_PER_DAY).

(** The days since the epoch of a Monday are 4 modulo 7. *)
Definition is_week_start (w : Timestamp) : Prop :=
  exists day, w = day * NS_PER_DAY /\ day mod 7 = 4.

(** The row of the weekly table for the week that starts at [w]. *)
Definition week_row_of (df : list post) (w : Timestamp) : week_row :=
  let g := group w df in
  {| week := w;
     mentions := nunique (map p_id g);
     score_sum := sum (map p_score g);
     comments_sum := sum (map p_num_comments g) |}.

Definition no_posts (r : summary_row) : Prop := posts_collected r = 0%nat.

(** A record whose two engagement counters are 64-bit integers. *)
Definition int64_counters (p : post) : Prop :=
  int64 (p_score p) /\ int64 (p_num_comments p).

(** A reply after which [request_json] tries again: a retryable status, or
    no reply at all ([requests.get] raised). *)
Definition transient_reply (o : outcome) : bool :=
  match o with
  | Response status_code _ _ _ => retryable status_code
  | Raised _ => true
  end.

(** The diagnostic recorded for a transient reply. *)
Definition transient_diag (url : string) (o : outcome) : diag :=
  match o with
  | Response _ _ _ _ => retryable_diag url o
  | Raised e => request_exception (py_prefix 300 url) e
  end.

(** [last_exc] after a reply. *)
Definition last_exc_after (last_exc : option string) (o : outcome) : option string :=
  match o with
  | Raised e => Some e
  | Response _ _ _ _ => last_exc
  end.

(** The replies to [n] consecutive requests for [url], from request [first]. *)
Definition replies (first n : nat) (url : string) : list outcome :=
  map (fun k => server (first + k) url) (seq 0 n).

(** What a reply that is not transient makes [request_json] return and
    record. *)
Definition final_value (o : outcome) : option envelope :=
  match o with
  | Response status_code _ _ (Json p) => if status_code =? 200 then p else None
  | _ => None
  end.

Definition final_diags (url : string) (o : outcome) : list diag :=
  match o with
  | Response status_code _ text json =>
      if negb (status_code =? 200) then
        [http_non_200 status_code (py_prefix 300 url)
                      (safe_filename "reddit_raw_http" text "txt")]
      else
        match json with
        | Json _ => []
        | JsonError e =>
            [json_parse_failed (py_prefix 300 url)
                               (safe_filename "reddit_raw_parsefail" text "txt") e]
        end
  | Raised _ => []
  end.

(** A later world: no request, diagnostic or effect of the earlier one is
    gone, and what is new comes after. *)
Definition extends (w w' : world) : Prop :=
  (requests w <= requests w')%nat
  /\ (exists d, errors w' = errors w ++ d)
  /\ (exists e, effects w' = effects w ++ e).

(** The posts a page yields and the diagnostics it leaves, child by child. *)
Definition kept_posts (q : string) (sr : option string) (s e : Timestamp)
    (cs : list child) : list post :=
  flat_map (fun c => match child_post q sr s e c with
                     | Ok (Some p) => [p]
                     | _ => []
                     end) cs.

Definition child_diags (q : string) (sr : option string) (s e : Timestamp)
    (cs : list child) : list diag :=
  flat_map (fun c => match child_post q sr s e c with
                     | Raise exc => [parse_child_failed exc q (or_empty sr)]
                     | _ => []
                     end) cs.

(** The back-references of a record to the search that found it. *)
Definition found_by (q : string) (sr : option string) (p : post) : Prop :=
  p_query p = q
  /\ p_scope_subreddit p = or_empty sr
  /\ String.prefix "https://www.reddit.com" (p_permalink p) = true.

(** What [flush_errors] adds to the effects when [errs] are on record. *)
Definition flush_effects (errs : list diag) : list effect :=
  match errs with
  | [] => []
  | _ => [WriteFile ERRORS_CSV (ErrorsTable errs);
          Log [Str "Wrote errors CSV: "; Str ERRORS_CSV; Str " (";
               Num (Z.of_nat (List.length errs)); Str " rows)"]]
  end.

(** The rows [plot_event_window] draws. *)
Definition event_rows (weekly : list week_row) : list week_row :=
  filter (fun r => (EVENT_DATE - EVENT_WINDOW_DAYS * NS_PER_DAY <=? week r)
                   && (week r <=? EVENT_DATE + EVENT_WINDOW_DAYS * NS_PER_DAY))
         weekly.

(** What the [try] around the plots of [main] leaves: the diagnostic of the
    rendering that raised, if one did, and the figures and log lines written
    before it. *)
Definition plot_results (weekly : list week_row) : list diag * list effect :=
  match plot_mentions_raises weekly with
  | Some exc => ([plot_failed exc], [])
  | None =>
      match plot_engagement_raises weekly with
      | Some exc => ([plot_failed exc], [WriteFile PNG_WEEKLY Figure])
      | None =>
          let saved :=
            [WriteFile PNG_WEEKLY Figure; WriteFile PNG_ENGAGE Figure;
             Log [Str "Saved "; Str PNG_WEEKLY; Str " and "; Str PNG_ENGAGE]] in
          match plot_event_window_raises (event_rows weekly) with
          | Some exc => ([plot_failed exc], saved)
          | None => ([], saved ++ [WriteFile PNG_EVENT Figure;
                                   Log [Str "Saved "; Str PNG_EVENT]])
          end
      end
  end.

(** The total of the counts of a query summary. *)
Definition total_collected (rows : list summary_row) : nat :=
  fold_right (fun r n => (posts_collected r + n)%nat) 0%nat rows.

(** The searches of [main], in the order of its two loops: each query with
    each scope. *)
Definition searches (qs : list (string * string)) (srs : list (option string))
    : list (string * string * string) :=
  flat_map (fun tq => map (fun sr => (fst tq, snd tq, or_all sr)) srs) qs.

Definition search_of (r : summary_row) : string * string * string :=
  (query_type r, s_query r, subreddit_scope r).

(** A pause of at least one second. *)
Definition pause (e : effect) : bool :=
  match e with
  | Sleep seconds => Qle_bool 1 seconds
  | _ => false
  end.

(** A timeline in which a request is followed, if by anything, by a pause of
    at least one second. *)
Fixpoint paced (es : list effect) : bool :=
  match es with
  | [] => true
  | Get _ :: rest =>
      match rest with
      | [] => true
      | e :: _ => pause e && paced rest
      end
  | _ :: rest => paced rest
  end.

Definition is_get (e : effect) : bool :=
  match e with
  | Get _ => true
  | _ => false
  end.

(** A reply after which a search stops: it is not a transient one, and it
    leaves no further page to ask for. *)
Definition ends_search (o : outcome) : bool :=
  negb (transient_reply o)
  && match malformed (final_value o) with
     | Some _ => false
     | None =>
         match listing_of (final_value o) with
         | Some l =>
             match items_of l with
             | [] => true
             | _ => negb (truthy (after l))
             end
         | None => true
         end
     end.

(** From [w] to [w'], [k] requests were sent, and nothing lies between them
    on the timeline. *)
Definition only_requests (k : nat) (w w' : world) : Prop :=
  requests w' = (requests w + k)%nat
  /\ exists new,
       effects w' = effects w ++ new
       /\ forallb is_get (timeline new) = true
       /\ List.length (timeline new) = k.

(** ** What the specification states about the tracker *)

Lemma world_eq (r r' : nat) (d d' : list diag) (e e' : list effect) :
  r = r' -> d = d' -> e = e' ->
  {| requests := r; errors := d; effects := e |}
  = {| requests := r'; errors := d'; effects := e' |}.
Proof. intros; subst; reflexivity. Qed.

Lemma timeline_app (es es' : list effect) :
  timeline (es ++ es') = timeline es ++ timeline es'.
Proof. apply filter_app. Qed.

(** The loop over the attempts, when the server keeps answering with a
    retryable status: every attempt is made, each followed by its backoff,
    and the loop ends on the final diagnostic. *)
Lemma request_attempts_retryable (url : string) (n : nat) :
  forall (a : nat) (last_exc : option string) (w : world),
    (forall k, (k < n)%nat -> retryable_reply (server (requests w + k) url) = true) ->
    exists new,
      request_attempts url (seq a n) last_exc w
      = (None,
         {| requests := requests w + n;
            errors := errors w
                      ++ map (fun k => retryable_diag url (server (requests w + k) url))
                             (seq 0 n)
                      ++ [request_failed_all_retries (py_prefix 300 url)
                                                     (repr_exc last_exc)];
            effects := effects w ++ new |})
      /\ timeline new = flat_map (fun k => [Get url; Sleep (backoff k)]) (seq a n).
Proof.
  induction n as [|n IH]; intros a last_exc w Hall.
  - exists []. split; [|reflexivity].
    cbn. unfold bind, record_error, ret. cbn.
    f_equal. apply world_eq; [lia | reflexivity | now rewrite app_nil_r].
  - assert (H0 : retryable_reply (server (requests w) url) = true).
    { rewrite <- (Nat.add_0_r (requests w)). apply Hall. lia. }
    cbn [seq request_attempts]. unfold bind at 1. unfold get at 1.
    destruct (server (requests w) url) as [st ct tx js|e] eqn:Hs; [|discriminate].
    cbn [retryable_reply] in H0.
    unfold bind, log, sleep, record_error, emit. cbn [fst snd requests errors effects].
    rewrite H0.
    match goal with
    | |- context [request_attempts url (seq (S a) n) last_exc ?w1] =>
        destruct (IH (S a) last_exc w1) as [new [Hrun Htl]]
    end.
    { intros k Hk. cbn [requests]. replace (S (requests w) + k)%nat
        with (requests w + S k)%nat by lia. apply Hall. lia. }
    rewrite Hrun. cbn [requests errors effects].
    exists ([Get url;
             Log [Str "GET "; Num st; Str " | "; Str ct; Str " | ";
                  Str (py_prefix 120 url); Str "..."];
             Log [Str "Retryable "; Num st; Str ". Sleeping "; Flt (backoff a); Str "s"];
             Sleep (backoff a)] ++ new).
    split.
    + f_equal. apply world_eq.
      * lia.
      * rewrite <- app_assoc. f_equal. cbn [seq map app].
        rewrite Nat.add_0_r, Hs. unfold retryable_diag at 2. cbn [reply_status reply_text].
        f_equal. f_equal. rewrite <- seq_shift, map_map.
        apply map_ext. intros k. now replace (S (requests w) + k)%nat
          with (requests w + S k)%nat by lia.
      * rewrite <- !app_assoc. reflexivity.
    + rewrite timeline_app, Htl. reflexivity.
Qed.

(** C1. When every reply to a request carries a retryable status (429, 500,
    502, 503 or 504), [request_json] makes exactly [RETRIES] = 5 attempts and
    returns [None]; after attempt [k] it sleeps [BACKOFF_BASE ^ (k - 1)]
    seconds, so 1, 2, 4 and 8 seconds separate the five attempts; each attempt
    records a retryable diagnostic and the last diagnostic recorded is the one
    of exhausted retries. *)
Theorem request_json_retryable_exhausts (url : string) (w : world) :
  (forall k, (k < RETRIES)%nat ->
             retryable_reply (server (requests w + k) url) = true) ->
  exists new,
    request_json url w
    = (None,
       {| requests := requests w + RETRIES;
          errors := errors w
                    ++ map (fun k => retryable_diag url (server (requests w + k) url))
                           (seq 0 RETRIES)
                    ++ [request_failed_all_retries (py_prefix 300 url) "None"];
          effects := effects w ++ new |})
    /\ timeline new
       = flat_map (fun k => [Get url; Sleep (Qpower BACKOFF_BASE (Z.of_nat k - 1))])
                  (seq 1 RETRIES)
    /\ timeline new
       = [Get url; Sleep 1; Get url; Sleep 2; Get url; Sleep 4;
          Get url; Sleep 8; Get url; Sleep 16].
Proof.
  intros Hall.
  destruct (request_attempts_retryable url RETRIES 1 None w Hall) as [new [Hrun Htl]].
  exists new. split; [exact Hrun|]. split; [exact Htl|].
  rewrite Htl. reflexivity.
Qed.

(** The first reply settles the fetch when its status is not retryable. *)
Lemma request_json_first_reply (url : string) (w : world)
    (status_code : Z) (ct text : string) (json : body) :
  server (requests w) url = Response status_code ct text json ->
  retryable status_code = false ->
  request_json url w
  = (let w1 :=
       {| requests := S (requests w); errors := errors w;
          effects := effects w
                     ++ [Get url;
                         Log [Str "GET "; Num status_code; Str " | "; Str ct; Str " | ";
                              Str (py_prefix 120 url); Str "..."]] |} in
     if negb (status_code =? 200) then
       let raw := safe_filename "reddit_raw_http" text "txt" in
       (None, {| requests := requests w1;
                 errors := errors w1
                           ++ [http_non_200 status_code (py_prefix 300 url) raw];
                 effects := effects w1 ++ [WriteFile raw (RawText text)] |})
     else
       match json with
       | Json p => (p, w1)
       | JsonError e =>
           let raw := safe_filename "reddit_raw_parsefail" text "txt" in
           (None, {| requests := requests w1;
                     errors := errors w1
                               ++ [json_parse_failed (py_prefix 300 url) raw e];
                     effects := effects w1 ++ [WriteFile raw (RawText text)] |})
       end).
Proof.
  intros Hs Hr.
  unfold request_json. cbn [RETRIES seq request_attempts].
  unfold bind at 1. unfold get at 1. rewrite Hs.
  unfold bind, log, sleep, write_file, record_error, emit, ret.
  cbn [fst snd requests errors effects]. rewrite Hr.
  destruct (negb (status_code =? 200)).
  - cbn [requests errors effects]. now rewrite <- !app_assoc.
  - destruct json; cbn [requests errors effects]; now rewrite <- !app_assoc.
Qed.

(** C2. A reply whose status is neither 200 nor retryable ends the fetch at
    once: one request, no sleep, the raw body written to a file named after
    its digest, a non-200 diagnostic, and [None]. A reply with status 200 whose
    body does not parse is treated alike, with a parse-failure diagnostic. *)
Theorem request_json_terminal_failure (url : string) (w : world)
    (status_code : Z) (ct text : string) (json : body) :
  server (requests w) url = Response status_code ct text json ->
  retryable status_code = false ->
  let got :=
    [Get url;
     Log [Str "GET "; Num status_code; Str " | "; Str ct; Str " | ";
          Str (py_prefix 120 url); Str "..."]] in
  (status_code <> 200 ->
   let raw :=
     out_path ("reddit_raw_http_" ^^ py_prefix 10 (sha1_hexdigest text) ^^ ".txt") in
   request_json url w
   = (None,
      {| requests := S (requests w);
         errors := errors w ++ [http_non_200 status_code (py_prefix 300 url) raw];
         effects := effects w ++ got ++ [WriteFile raw (RawText text)] |}))
  /\
  (forall exc, status_code = 200 -> json = JsonError exc ->
   let raw :=
     out_path ("reddit_raw_parsefail_" ^^ py_prefix 10 (sha1_hexdigest text) ^^ ".txt") in
   request_json url w
   = (None,
      {| requests := S (requests w);
         errors := errors w ++ [json_parse_failed (py_prefix 300 url) raw exc];
         effects := effects w ++ got ++ [WriteFile raw (RawText text)] |})).
Proof.
  intros Hs Hr got.
  rewrite (request_json_first_reply url w status_code ct text json Hs Hr).
  cbv zeta. cbn [requests errors effects]. split.
  - intros Hne. apply Z.eqb_neq in Hne. rewrite Hne. cbn [negb].
    now rewrite <- !app_assoc.
  - intros exc H200 Hj. subst status_code json. cbn [Z.eqb Pos.eqb negb].
    now rewrite <- !app_assoc.
Qed.



(** *** The paginator *)

Ltac run_effects :=
  unfold bind, log, sleep, write_file, record_error, emit, ret;
  cbn [fst snd requests errors effects].

(** One turn of the retry loop, with the world written out. *)
Lemma request_attempts_cons (url : string) (a : nat) (rest : list nat)
    (last_exc : option string) (w : world) :
  request_attempts url (a :: rest) last_exc w
  = match server (requests w) url with
    | Raised e =>
        request_attempts url rest (Some e)
          {| requests := S (requests w);
             errors := errors w ++ [request_exception (py_prefix 300 url) e];
             effects := effects w ++ [Get url; Sleep (backoff a)] |}
    | Response st ct tx js =>
        let got :=
          [Get url;
           Log [Str "GET "; Num st; Str " | "; Str ct; Str " | ";
                Str (py_prefix 120 url); Str "..."]] in
        if retryable st then
          request_attempts url rest last_exc
            {| requests := S (requests w);
               errors := errors w ++ [retryable_diag url (Response st ct tx js)];
               effects := effects w ++ got
                          ++ [Log [Str "Retryable "; Num st; Str ". Sleeping ";
                                   Flt (backoff a); Str "s"];
                              Sleep (backoff a)] |}
        else if negb (st =? 200) then
          let raw := safe_filename "reddit_raw_http" tx "txt" in
          (None,
           {| requests := S (requests w);
              errors := errors w ++ [http_non_200 st (py_prefix 300 url) raw];
              effects := effects w ++ got ++ [WriteFile raw (RawText tx)] |})
        else
          match js with
          | Json p =>
              (p, {| requests := S (requests w); errors := errors w;
                     effects := effects w ++ got |})
          | JsonError e =>
              let raw := safe_filename "reddit_raw_parsefail" tx "txt" in
              (None,
               {| requests := S (requests w);
                  errors := errors w ++ [json_parse_failed (py_prefix 300 url) raw e];
                  effects := effects w ++ got ++ [WriteFile raw (RawText tx)] |})
          end
    end.
Proof.
  cbn [request_attempts]. unfold bind at 1. unfold get at 1.
  destruct (server (requests w) url) as [st ct tx js|e]; run_effects.
  - destruct (retryable st);
      [cbn [requests errors effects]; now rewrite <- !app_assoc|].
    destruct (negb (st =? 200));
      [cbn [requests errors effects]; now rewrite <- !app_assoc|].
    destruct js; cbn [requests errors effects]; now rewrite <- !app_assoc.
  - now rewrite <- !app_assoc.
Qed.

(** A fetch sends at least one request and at most one per attempt. *)
Lemma request_attempts_requests (url : string) (attempts : list nat) :
  forall (last_exc : option string) (w : world),
    (requests w <= requests (snd (request_attempts url attempts last_exc w))
     <= requests w + List.length attempts)%nat.
Proof.
  induction attempts as [|a rest IH]; intros last_exc w.
  - cbn. lia.
  - rewrite request_attempts_cons. cbn [List.length].
    destruct (server (requests w) url) as [st ct tx js|e]; cbv zeta.
    + destruct (retryable st).
      * match goal with
        | |- context [request_attempts url rest last_exc ?w1] =>
            pose proof (IH last_exc w1) as Hb
        end.
        cbn [requests] in Hb. lia.
      * destruct (negb (st =? 200)); [cbn; lia|].
        destruct js; cbn; lia.
    + match goal with
      | |- context [request_attempts url rest (Some e) ?w1] =>
          pose proof (IH (Some e) w1) as Hb
      end.
      cbn [requests] in Hb. lia.
Qed.

Lemma request_attempts_sends (url : string) (a : nat) (rest : list nat)
    (last_exc : option string) (w : world) :
  (requests w < requests (snd (request_attempts url (a :: rest) last_exc w)))%nat.
Proof.
  rewrite request_attempts_cons.
  destruct (server (requests w) url) as [st ct tx js|e]; cbv zeta.
  - destruct (retryable st).
    + match goal with
      | |- context [request_attempts url rest last_exc ?w1] =>
          pose proof (request_attempts_requests url rest last_exc w1) as Hb
      end.
      cbn [requests] in Hb. lia.
    + destruct (negb (st =? 200)); [cbn; lia|].
      destruct js; cbn; lia.
  - match goal with
    | |- context [request_attempts url rest (Some e) ?w1] =>
        pose proof (request_attempts_requests url rest (Some e) w1) as Hb
    end.
    cbn [requests] in Hb. lia.
Qed.

Lemma request_json_requests (url : string) (w : world) :
  (requests w < requests (snd (request_json url w)) <= requests w + RETRIES)%nat.
Proof.
  pose proof (request_attempts_requests url (seq 1 RETRIES) None w) as Hb.
  rewrite length_seq in Hb. unfold request_json. split; [|lia].
  apply request_attempts_sends.
Qed.

(** Extraction sends no request. *)
Lemma extract_requests (q : string) (sr : option string) (s e : Timestamp)
    (cs : list child) :
  forall (posts : list post) (w : world),
    requests (snd (extract q sr s e cs posts w)) = requests w.
Proof.
  induction cs as [|c rest IH]; intros posts w; [reflexivity|].
  cbn [extract]. destruct (child_post q sr s e c) as [[p|]|exc].
  - apply IH.
  - apply IH.
  - run_effects. rewrite IH. reflexivity.
Qed.

(** One turn of the page loop. *)
Lemma fetch_pages_S (n : nat) (q : string) (sr : option string) (s e : Timestamp)
    (cursor : option string) (posts : list post) (w : world) :
  fetch_pages (S n) q sr s e cursor posts w
  = let page := request_json (reddit_search_url q sr cursor) w in
    match malformed (fst page) with
    | Some exc => (Raise exc, snd page)
    | None =>
        match listing_of (fst page) with
        | None => (Ok posts, snd page)
        | Some l =>
            match items_of l with
            | [] => (Ok posts, snd page)
            | cs =>
                let ex := extract q sr s e cs posts (snd page) in
                if negb (truthy (after l)) then (Ok (fst ex), snd ex)
                else fetch_pages n q sr s e (after l) (fst ex) (snd (sleep 1 (snd ex)))
            end
        end
    end.
Proof.
  cbn [fetch_pages]. unfold bind at 1. cbv zeta.
  destruct (request_json (reddit_search_url q sr cursor) w) as [data w1].
  cbn [fst snd]. destruct data as [[[[l|exc]|]|exc]|]; try reflexivity.
  unfold malformed, listing_of, items_of.
  destruct (children l) as [[|c cs]|exc]; try reflexivity.
  unfold bind at 1.
  destruct (extract q sr s e (c :: cs) posts w1) as [posts' w2].
  cbn [fst snd]. destruct (negb (truthy (after l))); [reflexivity|].
  unfold bind. reflexivity.
Qed.

(** The paginator sends at most [RETRIES] requests per page of its budget,
    and at least one as soon as the budget allows a page. *)
Lemma fetch_pages_requests (n : nat) (q : string) (sr : option string)
    (s e : Timestamp) :
  forall (cursor : option string) (posts : list post) (w : world),
    (requests w <= requests (snd (fetch_pages n q sr s e cursor posts w))
     <= requests w + n * RETRIES)%nat
    /\ (n <> 0%nat ->
        (requests w < requests (snd (fetch_pages n q sr s e cursor posts w)))%nat).
Proof.
  induction n as [|n IH]; intros cursor posts w.
  - cbn. split; [lia | congruence].
  - rewrite fetch_pages_S. cbv zeta.
    pose proof (request_json_requests (reddit_search_url q sr cursor) w) as Hreq.
    destruct (request_json (reddit_search_url q sr cursor) w) as [data w1].
    cbn [fst snd] in *.
    assert (Hstop : forall r : result (list post),
               (requests w <= requests (snd (r, w1)) <= requests w + S n * RETRIES)%nat
               /\ (S n <> 0%nat -> (requests w < requests (snd (r, w1)))%nat)).
    { intros r. cbn [snd]. unfold RETRIES in *. split; [lia | intros _; lia]. }
    destruct (malformed data) as [exc|]; [apply Hstop|].
    destruct (listing_of data) as [l|]; [|apply Hstop].
    destruct (items_of l) as [|c cs] eqn:Hcs; [apply Hstop|].
    pose proof (extract_requests q sr s e (c :: cs) posts w1) as Hex.
    destruct (extract q sr s e (c :: cs) posts w1) as [posts' w2].
    cbn [fst snd] in *.
    destruct (negb (truthy (after l)));
      [cbn [fst snd]; unfold RETRIES in *; split; [lia | intros _; lia]|].
    pose proof (IH (after l) posts' (snd (sleep 1 w2))) as [Hb _].
    change (requests (snd (sleep 1 w2))) with (requests w2) in Hb.
    unfold RETRIES in *. split; [lia | intros _; lia].
Qed.

(** C7, as the code has it. On payloads that follow the schema of the
    endpoint, the paginator goes on to another page exactly when none of its
    stop conditions holds. After the fetch of a page with [n] pages of budget
    left, no further request is sent if and only if the page ceiling is
    reached ([n = 0]), or the fetch failed (no listing came back), or the page
    has no items, or the payload carries no cursor. A failed fetch or an empty
    page leaves the collected records as they were. On a payload that does
    not follow the schema the paginator stops as well, by raising. The whole
    run never exceeds its page budget, and with no budget it sends nothing.
    In particular, when the endpoint answers the first request with an empty
    item list, the paginator sends exactly one request and returns no
    record. *)
Theorem paginator_stops_exactly (n : nat) (q : string) (sr : option string)
    (s e : Timestamp) (cursor : option string) (posts : list post) (w : world) :
  let page := request_json (reddit_search_url q sr cursor) w in
  let run := fetch_pages (S n) q sr s e cursor posts w in
  (malformed (fst page) = None ->
   (requests (snd run) = requests (snd page)
    <-> (n = 0%nat
         \/ listing_of (fst page) = None
         \/ exists l, listing_of (fst page) = Some l
                      /\ (items_of l = [] \/ truthy (after l) = false))))
  /\ (malformed (fst page) = None -> listing_of (fst page) = None ->
      run = (Ok posts, snd page))
  /\ (forall l, malformed (fst page) = None -> listing_of (fst page) = Some l ->
                items_of l = [] -> run = (Ok posts, snd page))
  /\ (forall exc, malformed (fst page) = Some exc -> run = (Raise exc, snd page))
  /\ (requests (snd run) <= requests w + S n * RETRIES)%nat
  /\ fetch_pages 0 q sr s e cursor posts w = (Ok posts, w)
  /\ (forall (ct text : string) (a : option string) (max_pages : nat),
         server (requests w) (reddit_search_url q sr None)
         = Response 200 ct text (page_of [] a) ->
         max_pages <> 0%nat ->
         fst (fetch_posts_for_query q sr s e max_pages w) = Ok []
         /\ requests (snd (fetch_posts_for_query q sr s e max_pages w))
            = S (requests w)).
Proof.
  intros page run.
  assert (Hrun : run
                 = match malformed (fst page) with
                   | Some exc => (Raise exc, snd page)
                   | None =>
                       match listing_of (fst page) with
                       | None => (Ok posts, snd page)
                       | Some l =>
                           match items_of l with
                           | [] => (Ok posts, snd page)
                           | cs =>
                               let ex := extract q sr s e cs posts (snd page) in
                               if negb (truthy (after l)) then (Ok (fst ex), snd ex)
                               else fetch_pages n q sr s e (after l) (fst ex)
                                                (snd (sleep 1 (snd ex)))
                           end
                       end
                   end) by apply fetch_pages_S.
  split; [|split; [|split; [|split; [|split; [|split]]]]].
  - intros Hwf. rewrite Hrun, Hwf.
    destruct (listing_of (fst page)) as [l|]; [|cbn; tauto].
    destruct (items_of l) as [|c cs] eqn:Hcs.
    { cbn. split; [intros _|reflexivity]. right. right. exists l. tauto. }
    cbv zeta.
    pose proof (extract_requests q sr s e (c :: cs) posts (snd page)) as Hex.
    destruct (truthy (after l)) eqn:Hafter; cbn [negb].
    + pose proof (fetch_pages_requests n q sr s e (after l)
                    (fst (extract q sr s e (c :: cs) posts (snd page)))
                    (snd (sleep 1 (snd (extract q sr s e (c :: cs) posts (snd page))))))
        as [Hle Hlt].
      change (requests (snd (sleep 1 ?x))) with (requests x) in Hle, Hlt.
      rewrite Hex in Hle, Hlt.
      split.
      * intros Heq. left. destruct n as [|m]; [reflexivity|].
        exfalso. assert (S m <> 0%nat) as Hm by discriminate.
        specialize (Hlt Hm). lia.
      * intros [Hn | [Hnone | [l' [Hl' [Hnil | Hcur]]]]].
        -- subst n. cbn [fetch_pages ret snd]. exact Hex.
        -- discriminate.
        -- congruence.
        -- congruence.
    + cbn [snd]. split; [intros _|intros _; exact Hex].
      right. right. exists l. tauto.
  - intros Hwf Hnone. rewrite Hrun, Hwf, Hnone. reflexivity.
  - intros l Hwf Hl Hnil. rewrite Hrun, Hwf, Hl, Hnil. reflexivity.
  - intros exc Hbad. rewrite Hrun, Hbad. reflexivity.
  - apply (fetch_pages_requests (S n)).
  - reflexivity.
  - intros ct text a max_pages Hs Hmax.
    destruct max_pages as [|m]; [congruence|].
    unfold fetch_posts_for_query. rewrite fetch_pages_S. cbv zeta.
    rewrite (request_json_first_reply _ w 200 ct text _ Hs eq_refl).
    cbn. split; reflexivity.
Qed.

(** *** The window filter *)

(** What the theorems ask of [pd.Timestamp]: when it returns, the timestamp
    is the second it was given. *)
Hypothesis Timestamp_s_value :
  forall (seconds : Z) (t : Timestamp),
    Timestamp_s seconds = Ok t -> t = seconds * NS_PER_SECOND.

Lemma child_post_in_window (q : string) (sr : option string) (s e : Timestamp)
    (c : child) (p : post) :
  child_post q sr s e c = Ok (Some p) -> in_window s e p.
Proof using Timestamp_s_value.
  unfold child_post, within_range, created_dt_of.
  destruct c as [data|exc]; [|discriminate].
  destruct (i_created_utc match data with Some d => d | None => empty_item end)
    as [created_utc|]; [|discriminate].
  destruct (int_created created_utc) as [seconds|exc] eqn:Hint; [|discriminate].
  destruct (Timestamp_s seconds) as [t|exc] eqn:Ht; [|discriminate].
  destruct ((s <=? t) && (t <=? e)) eqn:Hin; [|discriminate].
  destruct (permalink_of _) as [permalink|exc]; [|discriminate].
  intros H. injection H as <-. unfold in_window. cbn [p_created_dt p_created_utc].
  apply Timestamp_s_value in Ht. apply andb_true_iff in Hin.
  split; [exists seconds; split; assumption | lia].
Qed.

Lemma extract_in_window (q : string) (sr : option string) (s e : Timestamp)
    (cs : list child) :
  forall (posts : list post) (w : world),
    Forall (in_window s e) posts ->
    Forall (in_window s e) (fst (extract q sr s e cs posts w)).
Proof using Timestamp_s_value.
  induction cs as [|c rest IH]; intros posts w Hposts; [exact Hposts|].
  cbn [extract]. destruct (child_post q sr s e c) as [[p|]|exc] eqn:Hc.
  - apply IH. apply Forall_app. split; [exact Hposts|].
    constructor; [|constructor]. eapply child_post_in_window; eassumption.
  - now apply IH.
  - unfold bind, record_error. now apply IH.
Qed.

Lemma fetch_pages_in_window (n : nat) (q : string) (sr : option string)
    (s e : Timestamp) :
  forall (cursor : option string) (posts : list post) (w : world),
    Forall (in_window s e) posts ->
    Forall (in_window s e) (posts_of (fst (fetch_pages n q sr s e cursor posts w))).
Proof using Timestamp_s_value.
  induction n as [|n IH]; intros cursor posts w Hposts; [exact Hposts|].
  rewrite fetch_pages_S. cbv zeta.
  destruct (malformed _) as [exc|]; [constructor|].
  destruct (listing_of _) as [l|]; [|exact Hposts].
  destruct (items_of l) as [|c cs]; [exact Hposts|].
  destruct (negb (truthy (after l))).
  - now apply extract_in_window.
  - apply IH. now apply extract_in_window.
Qed.

(** Cutting a number to whole seconds moves it by less than one second. *)
Lemma py_int_close (x : pynum) :
  (inject_Z (py_int x) - 1 < pynum_Q x)%Q /\ (pynum_Q x < inject_Z (py_int x) + 1)%Q.
Proof.
  destruct x as [z|[a b]]; cbn [py_int pynum_Q Qnum Qden].
  - unfold Qlt, Qminus, Qplus, Qopp, inject_Z. cbn. lia.
  - pose proof (Z.quot_rem' a (Z.pos b)) as Hqr.
    pose proof (Z.rem_bound_abs a (Z.pos b) ltac:(lia)) as Hb.
    unfold Qlt, Qminus, Qplus, Qopp, inject_Z. cbn [Qnum Qden].
    set (k := Z.quot a (Z.pos b)) in *. set (r := Z.rem a (Z.pos b)) in *.
    rewrite !Pos.mul_1_l. split; nia.
Qed.

(** *** The aggregation *)

(** What the theorems ask of [sort_values]: its result holds the rows of the
    table, in ascending order of the key. *)
Hypothesis sort_values_perm :
  forall (A : Type) (key : A -> Z) (l : list A),
    Permutation (sort_values A key l) l.
Hypothesis sort_values_sorted :
  forall (A : Type) (key : A -> Z) (l : list A),
    StronglySorted (fun a b => key a <= key b) (sort_values A key l).

Lemma id_eqb_eq (a b : option string) : id_eqb a b = true <-> a = b.
Proof.
  destruct a as [x|], b as [y|]; cbn; try (split; congruence).
  rewrite String.eqb_eq. split; congruence.
Qed.

Lemma seen_In (i : option string) (seen : list (option string)) :
  existsb (id_eqb i) seen = true <-> In i seen.
Proof.
  rewrite existsb_exists. split.
  - intros [x [Hx Heq]]. apply id_eqb_eq in Heq. now subst.
  - intros Hi. exists i. split; [exact Hi | now apply id_eqb_eq].
Qed.

Lemma drop_duplicates_from_In (df : list post) :
  forall (seen : list (option string)) (p : post),
    In p (drop_duplicates_from seen df) -> In p df /\ ~ In (p_id p) seen.
Proof.
  induction df as [|x rest IH]; intros seen p Hp; [contradiction|].
  cbn [drop_duplicates_from] in Hp.
  destruct (existsb (id_eqb (p_id x)) seen) eqn:Hseen.
  - apply IH in Hp. cbn. tauto.
  - destruct Hp as [<- | Hp].
    + split; [now left|]. rewrite <- seen_In. congruence.
    + apply IH in Hp. cbn in *. tauto.
Qed.

Lemma drop_duplicates_from_NoDup (df : list post) :
  forall seen : list (option string),
    NoDup (map p_id (drop_duplicates_from seen df)).
Proof.
  induction df as [|x rest IH]; intros seen; [constructor|].
  cbn [drop_duplicates_from].
  destruct (existsb (id_eqb (p_id x)) seen); [apply IH|].
  cbn [map]. constructor; [|apply IH].
  rewrite in_map_iff. intros [p [Hid Hp]].
  apply drop_duplicates_from_In in Hp. cbn in Hp. intuition congruence.
Qed.

Lemma drop_duplicates_from_keeps (df : list post) :
  forall (seen : list (option string)) (p : post),
    In p df -> ~ In (p_id p) seen ->
    In (p_id p) (map p_id (drop_duplicates_from seen df)).
Proof.
  induction df as [|x rest IH]; intros seen p Hp Hseen; [contradiction|].
  cbn [drop_duplicates_from].
  destruct (existsb (id_eqb (p_id x)) seen) eqn:Hx.
  - destruct Hp as [-> | Hp]; [|now apply IH].
    apply seen_In in Hx. contradiction.
  - cbn [map]. destruct Hp as [-> | Hp]; [now left|].
    destruct (id_eqb (p_id x) (p_id p)) eqn:Heq.
    + apply id_eqb_eq in Heq. now left.
    + right. apply IH; [exact Hp|]. cbn. intros [Hh | Hh]; [|contradiction].
      rewrite <- id_eqb_eq in Hh. congruence.
Qed.

Lemma drop_duplicates_from_sorted (R : post -> post -> Prop) (df : list post) :
  forall seen : list (option string),
    StronglySorted R df -> StronglySorted R (drop_duplicates_from seen df).
Proof.
  induction df as [|x rest IH]; intros seen Hs; [constructor|].
  apply StronglySorted_inv in Hs as [Hrest Hx].
  cbn [drop_duplicates_from].
  destruct (existsb (id_eqb (p_id x)) seen); [now apply IH|].
  constructor; [now apply IH|].
  rewrite Forall_forall in *. intros p Hp.
  apply drop_duplicates_from_In in Hp. now apply Hx.
Qed.


Lemma deduplicate_NoDup (df : list post) : NoDup (map p_id (deduplicate df)).
Proof. apply drop_duplicates_from_NoDup. Qed.

Lemma deduplicate_sorted (df : list post) : by_creation_time (deduplicate df).
Proof using sort_values_sorted. apply drop_duplicates_from_sorted, sort_values_sorted. Qed.

(** C4. Whatever records are collected, several of them possibly under one
    identifier, the aggregation step keeps exactly one record for each
    identifier that occurs: the identifiers of its output are pairwise
    distinct, they are those of the input, and every record it keeps is a
    record of the input. Its output is in ascending order of creation time. *)
Theorem deduplicate_one_per_identifier (df : list post) :
  NoDup (map p_id (deduplicate df))
  /\ (forall i, In i (map p_id (deduplicate df)) <-> In i (map p_id df))
  /\ (forall p, In p (deduplicate df) -> In p df)
  /\ by_creation_time (deduplicate df).
Proof using sort_values_perm sort_values_sorted.
  pose proof (sort_values_perm post p_created_dt df) as Hperm.
  split; [apply deduplicate_NoDup|].
  split; [|split; [|apply deduplicate_sorted]];
    unfold deduplicate, drop_duplicates.
  - intros i. rewrite !in_map_iff. split.
    + intros [p [Hi Hp]]. exists p. split; [exact Hi|].
      apply drop_duplicates_from_In in Hp as [Hp _].
      eapply Permutation_in; eassumption.
    + intros [p [Hi Hp]]. subst i. rewrite <- in_map_iff.
      apply drop_duplicates_from_keeps; [|intros []].
      eapply Permutation_in; [apply Permutation_sym|]; eassumption.
  - intros p Hp. apply drop_duplicates_from_In in Hp as [Hp _].
    eapply Permutation_in; eassumption.
Qed.

(** *** The weekly table *)

Lemma wrap64_int64 (z : Z) : int64 z -> wrap64 z = z.
Proof.
  unfold int64, wrap64. intros Hz. rewrite Z.mod_small; lia.
Qed.

Lemma wrap64_is_int64 (z : Z) : int64 (wrap64 z).
Proof.
  unfold int64, wrap64.
  pose proof (Z.mod_pos_bound (z + 2 ^ 63) (2 ^ 64) ltac:(lia)). lia.
Qed.

Lemma wrap64_add_l (a b : Z) : wrap64 (wrap64 a + b) = wrap64 (a + b).
Proof.
  unfold wrap64. f_equal.
  replace ((a + 2 ^ 63) mod 2 ^ 64 - 2 ^ 63 + b + 2 ^ 63)
    with ((a + 2 ^ 63) mod 2 ^ 64 + b) by lia.
  rewrite Zplus_mod_idemp_l. f_equal. lia.
Qed.

Lemma wrap64_add_r (a b : Z) : wrap64 (a + wrap64 b) = wrap64 (a + b).
Proof. rewrite Z.add_comm, wrap64_add_l. f_equal. lia. Qed.

(** Adding in 64-bit arithmetic gives the exact sum, wrapped around once. *)
Lemma sum_wraps (zs : list Z) : sum zs = wrap64 (total zs).
Proof.
  unfold sum.
  assert (Hacc : forall a,
             fold_left (fun acc z => wrap64 (acc + z)) zs (wrap64 a)
             = wrap64 (a + total zs)).
  { induction zs as [|z rest IH]; intros a; cbn [fold_left total fold_right].
    - now rewrite Z.add_0_r.
    - fold (total rest). rewrite wrap64_add_l, IH. f_equal. lia. }
  exact (Hacc 0).
Qed.

Lemma sum_exact (zs : list Z) : int64 (total zs) -> sum zs = total zs.
Proof. intros Hz. rewrite sum_wraps. now apply wrap64_int64. Qed.

Lemma week_start_is_week_start (t : Timestamp) : is_week_start (week_start t).
Proof.
  unfold is_week_start, week_start.
  exists (t / NS_PER_DAY - (t / NS_PER_DAY + 3) mod 7). split; [reflexivity|].
  generalize (t / NS_PER_DAY). intros day. Z.div_mod_to_equations. lia.
Qed.

Lemma week_start_in_week (w t : Timestamp) :
  is_week_start w -> (week_start t = w <-> in_week w t = true).
Proof.
  intros [day [-> Hday]]. unfold in_week, week_start.
  rewrite andb_true_iff, Z.leb_le, Z.ltb_lt.
  change NS_PER_DAY with 86400000000000. Z.div_mod_to_equations. lia.
Qed.

Lemma insert_key_In (k x : Z) (ks : list Z) :
  In x (insert_key k ks) <-> x = k \/ In x ks.
Proof.
  induction ks as [|k' rest IH]; cbn [insert_key].
  - cbn. intuition.
  - destruct (Z.ltb_spec k k'); [cbn; intuition|].
    destruct (Z.eqb_spec k k'); [subst; cbn; intuition|].
    cbn [In]. rewrite IH. intuition.
Qed.

Lemma insert_key_sorted (k : Z) (ks : list Z) :
  StronglySorted Z.lt ks -> StronglySorted Z.lt (insert_key k ks).
Proof.
  induction ks as [|k' rest IH]; intros Hs; cbn [insert_key].
  - repeat constructor.
  - pose proof (StronglySorted_inv Hs) as [Hrest Hk'].
    destruct (Z.ltb_spec k k').
    + constructor; [exact Hs|]. constructor; [exact H|].
      rewrite Forall_forall in *. intros x Hx. specialize (Hk' x Hx). lia.
    + destruct (Z.eqb_spec k k'); [exact Hs|].
      constructor; [now apply IH|].
      rewrite Forall_forall in *. intros x Hx.
      apply insert_key_In in Hx as [-> | Hx]; [lia | now apply Hk'].
Qed.

Lemma group_keys_In (x : Z) (ks : list Z) : In x (group_keys ks) <-> In x ks.
Proof.
  induction ks as [|k rest IH]; [reflexivity|].
  cbn [group_keys fold_right]. rewrite insert_key_In.
  fold (group_keys rest). rewrite IH. cbn. intuition.
Qed.

Lemma group_keys_sorted (ks : list Z) : StronglySorted Z.lt (group_keys ks).
Proof.
  induction ks as [|k rest IH]; [constructor|].
  cbn [group_keys fold_right]. now apply insert_key_sorted.
Qed.

(** A table whose keys increase strictly has one ascending arrangement. *)
Lemma sorted_arrangement_unique (A : Type) (key : A -> Z) (l : list A) :
  forall l' : list A,
    StronglySorted (fun a b => key a < key b) l ->
    StronglySorted (fun a b => key a <= key b) l' ->
    Permutation l' l ->
    l' = l.
Proof.
  induction l as [|x xs IH]; intros l' Hl Hl' Hperm.
  - now apply Permutation_sym, Permutation_nil in Hperm.
  - destruct l' as [|y ys].
    { apply Permutation_nil in Hperm. discriminate. }
    apply StronglySorted_inv in Hl as [Hxs Hx].
    apply StronglySorted_inv in Hl' as [Hys Hy].
    rewrite Forall_forall in Hx, Hy.
    assert (Hyx : y = x).
    { assert (Hin : In y (x :: xs))
        by (eapply Permutation_in; [exact Hperm | now left]).
      destruct Hin as [Hin | Hin]; [now symmetry|].
      assert (Hin' : In x (y :: ys))
        by (eapply Permutation_in; [apply Permutation_sym; exact Hperm | now left]).
      destruct Hin' as [Hin' | Hin']; [exact Hin'|].
      specialize (Hx y Hin). specialize (Hy x Hin'). lia. }
    subst y. f_equal. apply IH; [exact Hxs | exact Hys|].
    eapply Permutation_cons_inv; exact Hperm.
Qed.

(** The final sort of [weekly_aggregate] finds the rows already in order. *)
Lemma weekly_aggregate_rows (df : list post) :
  weekly_aggregate df = map (week_row_of df) (group_keys (map post_week df)).
Proof using sort_values_perm sort_values_sorted.
  destruct df as [|p rest]; [reflexivity|].
  unfold weekly_aggregate.
  set (l := p :: rest).
  change (sort_values week_row week (map (week_row_of l) (group_keys (map post_week l)))
          = map (week_row_of l) (group_keys (map post_week l))).
  apply (sorted_arrangement_unique week_row week).
  - pose proof (group_keys_sorted (map post_week l)) as Hs.
    induction Hs as [|k ks Hks IH Hk]; [constructor|].
    cbn [map]. constructor; [exact IH|].
    rewrite Forall_forall in *. intros r Hr.
    apply in_map_iff in Hr as [k' [<- Hk']]. cbn. now apply Hk.
  - apply sort_values_sorted.
  - apply sort_values_perm.
Qed.

Lemma present_In (s : string) (ids : list (option string)) :
  In s (present ids) <-> In (Some s) ids.
Proof.
  induction ids as [|[x|] rest IH]; cbn [present In].
  - reflexivity.
  - rewrite IH. split.
    + intros [-> | H]; [now left | now right].
    + intros [H | H]; [left; now injection H | now right].
  - rewrite IH. split; [now right|].
    intros [H | H]; [discriminate | exact H].
Qed.

(** [nunique] counts the distinct identifiers that are present. *)
Lemma nunique_counts (ids : list (option string)) :
  exists distinct : list string,
    NoDup distinct
    /\ (forall s, In s distinct <-> In (Some s) ids)
    /\ nunique ids = List.length distinct.
Proof.
  exists (nodup string_dec (present ids)).
  split; [apply NoDup_nodup|]. split; [|reflexivity].
  intros s. now rewrite nodup_In, present_In.
Qed.

Lemma group_in_week (df : list post) (w : Timestamp) :
  is_week_start w ->
  group w df = filter (fun p => in_week w (p_created_dt p)) df.
Proof.
  intros Hw. unfold group. apply filter_ext. intros p.
  unfold post_week.
  destruct (in_week w (p_created_dt p)) eqn:Hin.
  - apply Z.eqb_eq. now apply week_start_in_week.
  - apply Z.eqb_neq. intros Heq. apply week_start_in_week in Heq; congruence.
Qed.

Lemma weekly_aggregate_covers (df : list post) (p : post) :
  In p df ->
  exists r, In r (weekly_aggregate df) /\ in_week (week r) (p_created_dt p) = true.
Proof using sort_values_perm sort_values_sorted.
  intros Hp. rewrite weekly_aggregate_rows.
  exists (week_row_of df (post_week p)). split.
  - apply in_map. apply group_keys_In. now apply in_map.
  - cbn [week week_row_of]. apply week_start_in_week; [|reflexivity].
    apply week_start_is_week_start.
Qed.

(** C5, as the code has it. In the weekly table, every row stands for a
    calendar week (Monday to Sunday, UTC) that holds at least one record; its
    [mentions] is the number of distinct identifiers among the records
    created in that week. Its two sums are the sums of the scores and of the
    comment counts of those records in 64-bit arithmetic: the exact sums
    wrapped around, so the exact sums whenever these are 64-bit integers. The
    rows are in ascending order of week, one per week, and every record falls
    in the week of some row: a week without records has no row. *)
Theorem weekly_aggregate_per_week (df : list post) :
  Forall int64_counters df ->
  (forall r, In r (weekly_aggregate df) ->
     let records := filter (fun p => in_week (week r) (p_created_dt p)) df in
     is_week_start (week r)
     /\ records <> []
     /\ (exists distinct : list string,
            NoDup distinct
            /\ (forall s, In s distinct <-> exists p, In p records /\ p_id p = Some s)
            /\ mentions r = List.length distinct)
     /\ score_sum r = wrap64 (total (map p_score records))
     /\ comments_sum r = wrap64 (total (map p_num_comments records))
     /\ (int64 (total (map p_score records)) ->
         score_sum r = total (map p_score records))
     /\ (int64 (total (map p_num_comments records)) ->
         comments_sum r = total (map p_num_comments records)))
  /\ StronglySorted Z.lt (map week (weekly_aggregate df))
  /\ (forall p, In p df ->
        exists r, In r (weekly_aggregate df)
                  /\ in_week (week r) (p_created_dt p) = true).
Proof using sort_values_perm sort_values_sorted.
  intros _. rewrite weekly_aggregate_rows. split; [|split].
  - intros r Hr records.
    apply in_map_iff in Hr as [w [<- Hw]].
    apply group_keys_In, in_map_iff in Hw as [p0 [Hw Hp0]].
    assert (Hstart : is_week_start w)
      by (rewrite <- Hw; apply week_start_is_week_start).
    unfold records. cbn [week week_row_of mentions score_sum comments_sum].
    rewrite (group_in_week df w Hstart).
    set (g := filter (fun p => in_week w (p_created_dt p)) df).
    assert (Hp0g : In p0 g).
    { apply filter_In. split; [exact Hp0|].
      apply week_start_in_week; assumption. }
    split; [exact Hstart|]. split; [intros Hnil; rewrite Hnil in Hp0g; contradiction|].
    split.
    { destruct (nunique_counts (map p_id g)) as [distinct [Hnd [Hin Hlen]]].
      exists distinct. split; [exact Hnd|]. split; [|exact Hlen].
      intros s. rewrite Hin, in_map_iff.
      split; intros [p [Ha Hb]]; exists p; split; assumption. }
    split; [apply sum_wraps|]. split; [apply sum_wraps|].
    split; apply sum_exact.
  - rewrite map_map. cbn [week week_row_of]. rewrite map_id.
    apply group_keys_sorted.
  - intros p Hp. rewrite <- weekly_aggregate_rows. now apply weekly_aggregate_covers.
Qed.

(** *** Running the aggregation again *)

Lemma total_Permutation (l l' : list Z) : Permutation l l' -> total l = total l'.
Proof.
  unfold total.
  induction 1 as [|x l l' _ IH|x y l|l l' l'' _ IH1 _ IH2]; cbn [fold_right]; lia.
Qed.

Lemma sum_Permutation (l l' : list Z) : Permutation l l' -> sum l = sum l'.
Proof.
  intros Hperm. rewrite !sum_wraps. f_equal. now apply total_Permutation.
Qed.

Lemma filter_Permutation (A : Type) (f : A -> bool) (l l' : list A) :
  Permutation l l' -> Permutation (filter f l) (filter f l').
Proof.
  induction 1 as [|x l l' _ IH|x y l|l l' l'' _ IH1 _ IH2]; cbn.
  - constructor.
  - destruct (f x); [now constructor | exact IH].
  - destruct (f x), (f y); try reflexivity. apply perm_swap.
  - now transitivity (filter f l').
Qed.

Lemma nunique_Permutation (ids ids' : list (option string)) :
  Permutation ids ids' -> nunique ids = nunique ids'.
Proof.
  intros Hperm. unfold nunique. apply Permutation_length.
  apply NoDup_Permutation; try apply NoDup_nodup.
  intros s. rewrite !nodup_In, !present_In.
  split; apply Permutation_in; [exact Hperm | now apply Permutation_sym].
Qed.

(** Two strictly ascending lists with the same members are the same list. *)
Lemma ascending_same_members (l l' : list Z) :
  StronglySorted Z.lt l -> StronglySorted Z.lt l' ->
  (forall x, In x l <-> In x l') -> l = l'.
Proof.
  intros Hl Hl' Hmem. symmetry.
  apply (sorted_arrangement_unique Z (fun x => x)).
  - exact Hl.
  - clear - Hl'. induction Hl' as [|x xs _ IH Hx]; constructor; [exact IH|].
    rewrite Forall_forall in *. intros y Hy. specialize (Hx y Hy). lia.
  - apply NoDup_Permutation.
    + clear - Hl'. induction Hl' as [|x xs _ IH Hx]; constructor; [|exact IH].
      rewrite Forall_forall in Hx. intros Hin. specialize (Hx x Hin). lia.
    + clear - Hl. induction Hl as [|x xs _ IH Hx]; constructor; [|exact IH].
      rewrite Forall_forall in Hx. intros Hin. specialize (Hx x Hin). lia.
    + intros x. symmetry. apply Hmem.
Qed.

(** The weekly table does not depend on the order of the records. *)
Lemma weekly_aggregate_Permutation (df df' : list post) :
  Permutation df df' -> weekly_aggregate df = weekly_aggregate df'.
Proof using sort_values_perm sort_values_sorted.
  intros Hperm. rewrite !weekly_aggregate_rows.
  assert (Hkeys : group_keys (map post_week df) = group_keys (map post_week df')).
  { apply ascending_same_members; try apply group_keys_sorted.
    intros x. rewrite !group_keys_In.
    split; apply Permutation_in, Permutation_map;
      [exact Hperm | now apply Permutation_sym]. }
  rewrite Hkeys. apply map_ext. intros w. unfold week_row_of.
  pose proof (filter_Permutation post (fun p => post_week p =? w) df df' Hperm) as Hg.
  fold (group w df) in Hg. fold (group w df') in Hg.
  f_equal.
  - apply nunique_Permutation. now apply Permutation_map.
  - apply sum_Permutation. now apply Permutation_map.
  - apply sum_Permutation. now apply Permutation_map.
Qed.


(** C3, as the code has it. The window is tested on the creation time cut to
    whole seconds ([int(created_utc)]), which is also what [created_dt] holds.
    Every record the paginator returns has this whole-second time inside the
    window, bounds included; so an item whose creation time, cut to whole
    seconds, is before the start or after the end never appears, and the
    fractional [created_utc] of a returned record is less than one second
    outside the window. The test is made at extraction only: the later
    stages drop no identifier and leave no record without its weekly row. *)
Theorem window_filter_whole_seconds (q : string) (sr : option string)
    (s e : Timestamp) (max_pages : nat) (w : world) (p : post) :
  In p (posts_of (fst (fetch_posts_for_query q sr s e max_pages w))) ->
  (exists seconds,
      int_created (p_created_utc p) = Ok seconds
      /\ p_created_dt p = seconds * NS_PER_SECOND)
  /\ s <= p_created_dt p <= e
  /\ (forall x : pynum,
        p_created_utc p = Number x ->
        p_created_dt p = py_int x * NS_PER_SECOND
        /\ (inject_Z (s - NS_PER_SECOND) < pynum_Q x * inject_Z NS_PER_SECOND)%Q
        /\ (pynum_Q x * inject_Z NS_PER_SECOND < inject_Z (e + NS_PER_SECOND))%Q)
  /\ (forall (df : list post) (x : post),
        In x df ->
        In (p_id x) (map p_id (deduplicate df))
        /\ exists r, In r (weekly_aggregate df)
                     /\ in_week (week r) (p_created_dt x) = true).
Proof using Timestamp_s_value sort_values_perm sort_values_sorted.
  intros Hp.
  assert (Hwin : in_window s e p).
  { pose proof (fetch_pages_in_window max_pages q sr s e None [] w (Forall_nil _)) as Hall.
    rewrite Forall_forall in Hall. now apply Hall. }
  destruct Hwin as [[seconds [Hint Hdt]] Hin].
  split; [now exists seconds|]. split; [exact Hin|]. split.
  - intros x Hx. rewrite Hx in Hint. cbn [int_created] in Hint.
    injection Hint as <-. split; [exact Hdt|].
    destruct (py_int_close x) as [Hlo Hhi].
    rewrite Hdt in Hin. revert Hlo Hhi Hin.
    generalize (py_int x) as z.
    destruct (pynum_Q x) as [a b]. intros z Hlo Hhi Hin.
    change NS_PER_SECOND with 1000000000 in *.
    unfold Qlt, Qminus, Qplus, Qopp, Qmult, inject_Z in *. cbn [Qnum Qden] in *.
    rewrite ?Pos.mul_1_l, ?Pos.mul_1_r, ?Z.mul_1_r in *.
    split; nia.
  - intros df x Hx. split; [|now apply weekly_aggregate_covers].
    unfold deduplicate, drop_duplicates.
    apply drop_duplicates_from_keeps; [|intros []].
    eapply Permutation_in; [apply Permutation_sym, sort_values_perm | exact Hx].
Qed.

(** *** A run that collects nothing *)

Lemma file_content_app (path : string) (es es' : list effect) :
  file_content path (es ++ es')
  = match file_content path es' with
    | Some c => Some c
    | None => file_content path es
    end.
Proof.
  induction es as [|x rest IH]; cbn [app file_content].
  - now destruct (file_content path es').
  - rewrite IH. now destruct (file_content path es').
Qed.

Lemma total_collected_app (rows rows' : list summary_row) :
  total_collected (rows ++ rows') = (total_collected rows + total_collected rows')%nat.
Proof.
  induction rows as [|r rest IH]; [reflexivity|].
  cbn [app total_collected fold_right]. fold (total_collected (rest ++ rows')).
  fold (total_collected rest). lia.
Qed.

Lemma total_collected_none (rows : list summary_row) :
  total_collected rows = 0%nat -> Forall no_posts rows.
Proof.
  induction rows as [|r rest IH]; intros Hzero; [constructor|].
  cbn [total_collected fold_right] in Hzero. fold (total_collected rest) in Hzero.
  constructor; [unfold no_posts; lia | apply IH; lia].
Qed.

(** What one search adds to the two accumulators of [main] when it returns:
    its posts and its summary row. It sends between one and a hundred
    requests, whether it returns or raises. *)
Lemma run_query_adds (s e : Timestamp) (qtype q : string) (sr : option string)
    (all_posts : list post) (query_summary : list summary_row) (w : world) :
  (requests w
   < requests (snd (run_query s e qtype q sr all_posts query_summary w))
   <= requests w + 100)%nat
  /\ forall r,
       fst (run_query s e qtype q sr all_posts query_summary w) = Ok r ->
       exists posts,
         r = (all_posts ++ posts,
              query_summary ++ [{| query_type := qtype; s_query := q;
                                   subreddit_scope := or_all sr;
                                   posts_collected := List.length posts;
                                   start_utc := s; end_utc := e |}]).
Proof.
  unfold run_query, bind_ok, bind, log, emit, ret. cbn [fst snd].
  match goal with
  | |- context [fetch_posts_for_query q sr s e 20 ?w0] =>
      pose proof (fetch_pages_requests 20 q sr s e None [] w0) as [Hle Hlt];
      fold (fetch_posts_for_query q sr s e 20 w0) in Hle, Hlt;
      destruct (fetch_posts_for_query q sr s e 20 w0) as [[posts|exc] w1]
  end; cbn [fst snd requests] in *;
    specialize (Hlt ltac:(discriminate)); unfold RETRIES in Hle.
  - split; [lia|]. intros r Hr. injection Hr as <-. now exists posts.
  - split; [lia|]. intros r Hr. discriminate.
Qed.

Lemma run_scopes_adds (s e : Timestamp) (qtype q : string)
    (srs : list (option string)) :
  forall (all_posts : list post) (query_summary : list summary_row) (w : world),
    (requests w
     <= requests (snd (run_scopes s e qtype q srs all_posts query_summary w))
     <= requests w + 100 * List.length srs)%nat
    /\ (srs <> [] ->
        (requests w
         < requests (snd (run_scopes s e qtype q srs all_posts query_summary w)))%nat)
    /\ forall r,
         fst (run_scopes s e qtype q srs all_posts query_summary w) = Ok r ->
         (requests w + List.length srs
          <= requests (snd (run_scopes s e qtype q srs all_posts query_summary w)))%nat
         /\ exists posts rows,
              r = (all_posts ++ posts, query_summary ++ rows)
              /\ total_collected rows = List.length posts
              /\ map search_of rows = map (fun sr => (qtype, q, or_all sr)) srs
              /\ Forall (fun row => start_utc row = s /\ end_utc row = e) rows.
Proof.
  induction srs as [|sr rest IH]; intros all_posts query_summary w.
  - cbn. split; [lia|]. split; [congruence|]. intros r Hr. injection Hr as <-.
    split; [lia|]. exists [], []. rewrite !app_nil_r.
    repeat split. constructor.
  - cbn [run_scopes List.length]. unfold bind_ok, bind.
    destruct (run_query_adds s e qtype q sr all_posts query_summary w)
      as [Hreq Hok].
    destruct (run_query s e qtype q sr all_posts query_summary w) as [[r0|exc] w1];
      cbn [fst snd] in *.
    + destruct (Hok r0 eq_refl) as [posts ->]. cbn [fst snd].
      match goal with
      | |- context [run_scopes s e qtype q rest ?ap ?qs w1] =>
          destruct (IH ap qs w1) as (Hb & _ & Hrest)
      end.
      split; [lia|]. split; [intros _; lia|]. intros r Hr.
      destruct (Hrest r Hr) as (Hmin & posts' & rows' & -> & Htot & Hsearch & Hdates).
      split; [lia|].
      eexists (posts ++ posts'), (_ :: rows'). rewrite <- !app_assoc.
      split; [reflexivity|]. cbn [total_collected fold_right posts_collected].
      fold (total_collected rows'). split; [rewrite Htot, length_app; lia|].
      split; [cbn [map search_of query_type s_query subreddit_scope];
              now rewrite Hsearch|].
      constructor; [split; reflexivity | exact Hdates].
    + unfold ret. cbn [fst snd].
      split; [lia|]. split; [intros _; lia|]. intros r Hr. discriminate.
Qed.

Lemma run_queries_adds (s e : Timestamp) (qs : list (string * string)) :
  forall (all_posts : list post) (query_summary : list summary_row) (w : world),
    (requests w
     <= requests (snd (run_queries s e qs all_posts query_summary w))
     <= requests w + 100 * (List.length qs * List.length scopes))%nat
    /\ (qs <> [] ->
        (requests w
         < requests (snd (run_queries s e qs all_posts query_summary w)))%nat)
    /\ forall r,
         fst (run_queries s e qs all_posts query_summary w) = Ok r ->
         (requests w + List.length qs * List.length scopes
          <= requests (snd (run_queries s e qs all_posts query_summary w)))%nat
         /\ exists posts rows,
              r = (all_posts ++ posts, query_summary ++ rows)
              /\ total_collected rows = List.length posts
              /\ map search_of rows = searches qs scopes
              /\ Forall (fun row => start_utc row = s /\ end_utc row = e) rows.
Proof.
  induction qs as [|[qtype q] rest IH]; intros all_posts query_summary w.
  - cbn. split; [lia|]. split; [congruence|]. intros r Hr. injection Hr as <-.
    split; [lia|]. exists [], []. rewrite !app_nil_r.
    repeat split. constructor.
  - cbn [run_queries List.length]. unfold bind_ok, bind.
    destruct (run_scopes_adds s e qtype q scopes all_posts query_summary w)
      as (Hb & Hsent & Hok).
    specialize (Hsent ltac:(discriminate)).
    destruct (run_scopes s e qtype q scopes all_posts query_summary w)
      as [[r0|exc] w1]; cbn [fst snd] in *.
    + destruct (Hok r0 eq_refl)
        as (Hmin & posts & rows & -> & Htot & Hsearch & Hdates).
      cbn [fst snd].
      destruct (IH (all_posts ++ posts) (query_summary ++ rows) w1)
        as (Hb' & _ & Hrest).
      split; [lia|]. split; [intros _; lia|]. intros r Hr.
      destruct (Hrest r Hr)
        as (Hmin' & posts' & rows' & -> & Htot' & Hsearch' & Hdates').
      split; [lia|].
      exists (posts ++ posts'), (rows ++ rows'). rewrite <- !app_assoc.
      split; [reflexivity|].
      split; [rewrite total_collected_app, length_app; lia|].
      split; [rewrite map_app, Hsearch, Hsearch'; reflexivity|].
      apply Forall_app. split; assumption.
    + unfold ret. cbn [fst snd].
      split; [lia|]. split; [intros _; lia|]. intros r Hr. discriminate.
Qed.

(** The collection phase sends requests whether it returns or raises. When
    it returns it ends on the query summary: one row per query and scope,
    whose counts add up to the records collected. *)
Lemma collect_summary (s e : Timestamp) (w : world) :
  (requests w < requests (snd (collect s e w)) <= requests w + 3200)%nat
  /\ forall all_posts,
       fst (collect s e w) = Ok all_posts ->
       (requests w + 32 <= requests (snd (collect s e w)))%nat
       /\ exists (rows : list summary_row) (before : list effect),
            effects (snd (collect s e w))
            = before ++ [WriteFile QUERY_SUMMARY_CSV (SummaryTable rows);
                         Log [Str "Saved "; Str QUERY_SUMMARY_CSV]]
            /\ total_collected rows = List.length all_posts
            /\ map search_of rows = searches all_queries scopes
            /\ Forall (fun row => start_utc row = s /\ end_utc row = e) rows.
Proof.
  unfold collect, bind_ok, bind, log, write_file, emit, ret.
  cbn [requests errors effects].
  match goal with
  | |- context [run_queries s e all_queries [] [] ?w0] =>
      destruct (run_queries_adds s e all_queries [] [] w0) as (Hb & Hsent & Hok);
      destruct (run_queries s e all_queries [] [] w0) as [[r|exc] w1]
  end; specialize (Hsent ltac:(discriminate));
    cbn [fst snd requests errors effects] in *;
    change (List.length all_queries * List.length scopes)%nat with 32%nat in *.
  - split; [lia|]. intros all_posts Hr. injection Hr as <-.
    destruct (Hok r eq_refl) as (Hmin & posts & rows & -> & Htot & Hsearch & Hdates).
    cbn [fst snd app]. split; [lia|].
    exists rows, (effects w1). split; [now rewrite <- app_assoc|].
    repeat split; assumption.
  - split; [lia|]. intros all_posts Hr. discriminate.
Qed.

(** The rest of [main] when nothing was collected. *)
Lemma report_nothing (w : world) :
  snd (report [] w)
  = {| requests := requests w;
       errors := errors w;
       effects :=
         effects w
         ++ [Log [Str "No posts collected across all queries. This may mean true zero OR search limitations."]]
         ++ match errors w with
            | [] => []
            | _ => [WriteFile ERRORS_CSV (ErrorsTable (errors w));
                    Log [Str "Wrote errors CSV: "; Str ERRORS_CSV; Str " (";
                         Num (Z.of_nat (List.length (errors w))); Str " rows)"]]
            end
         ++ [WriteFile POSTS_CSV (PostsTable []);
             WriteFile WEEKLY_CSV (WeeklyTable [])] |}.
Proof.
  cbn [report]. unfold bind, log, write_file, flush_errors, emit, ret.
  cbn [requests errors effects fst snd].
  destruct (errors w) as [|d ds] eqn:Herr.
  - cbn [requests errors effects fst snd]. now rewrite <- !app_assoc.
  - unfold bind, log, write_file, emit. cbn [requests errors effects fst snd].
    now rewrite <- !app_assoc.
Qed.

(** C8. When nothing was collected, the weekly table is empty and the run
    goes to its end: it writes the query summary (one row per query and
    scope, each counting no post), the empty table of records and the empty
    weekly table, which is the last thing it does; every diagnostic recorded
    during the run is in the errors file, none is added or lost afterwards. *)
Theorem empty_run_completes (now : Timestamp) (w : world) :
  fst (collect START_DATE now w) = Ok [] ->
  let collected := snd (collect START_DATE now w) in
  let final := snd (main now w) in
  weekly_aggregate [] = []
  /\ fst (main now w) = Ok tt
  /\ (exists before,
         effects final = before ++ [WriteFile WEEKLY_CSV (WeeklyTable [])])
  /\ file_content POSTS_CSV (effects final) = Some (PostsTable [])
  /\ file_content WEEKLY_CSV (effects final) = Some (WeeklyTable [])
  /\ (exists rows,
         file_content QUERY_SUMMARY_CSV (effects final) = Some (SummaryTable rows)
         /\ List.length rows = (List.length all_queries * List.length scopes)%nat
         /\ Forall no_posts rows)
  /\ errors final = errors collected
  /\ (errors final <> [] ->
      file_content ERRORS_CSV (effects final) = Some (ErrorsTable (errors final))).
Proof.
  intros Hnone collected final.
  assert (Hmain : main now w = (Ok tt, snd (report [] collected))).
  { unfold collected, main, bind_ok, bind.
    destruct (collect START_DATE now w) as [r w1].
    cbn [fst snd] in *. subst r. now destruct (report [] w1). }
  assert (Hfinal : final = snd (report [] collected))
    by (unfold final; now rewrite Hmain).
  split; [reflexivity|]. split; [now rewrite Hmain|].
  rewrite Hfinal, report_nothing. cbn [requests errors effects].
  destruct (collect_summary START_DATE now w) as (_ & Hok).
  destruct (Hok [] Hnone) as (_ & rows & before & Heff & Htot & Hsearch & _).
  fold collected in Heff. rewrite Heff.
  split.
  { eexists. rewrite !app_assoc.
    change [WriteFile POSTS_CSV (PostsTable []); WriteFile WEEKLY_CSV (WeeklyTable [])]
      with ([WriteFile POSTS_CSV (PostsTable [])] ++ [WriteFile WEEKLY_CSV (WeeklyTable [])]).
    rewrite app_assoc. reflexivity. }
  split; [|split; [|split; [|split]]].
  - rewrite !file_content_app. reflexivity.
  - rewrite !file_content_app. reflexivity.
  - exists rows. split; [|split].
    + rewrite !file_content_app. destruct (errors collected); reflexivity.
    + rewrite <- (length_map search_of), Hsearch. reflexivity.
    + now apply total_collected_none.
  - reflexivity.
  - intros Herr. rewrite !file_content_app.
    destruct (errors collected); [congruence | reflexivity].
Qed.

(** *** More on the fetcher *)

Lemma replies_S (first n : nat) (url : string) :
  replies first (S n) url = server first url :: replies (S first) n url.
Proof.
  unfold replies. cbn [seq map]. rewrite Nat.add_0_r. f_equal.
  rewrite <- seq_shift, map_map. apply map_ext. intros k.
  now replace (S first + k)%nat with (first + S k)%nat by lia.
Qed.

(** The retry loop through [n] transient replies: it makes the [n] attempts,
    records one diagnostic and sleeps once for each, and goes on with the
    attempts that are left. *)
Lemma request_attempts_transient (url : string) (n : nat) :
  forall (a : nat) (rest : list nat) (last_exc : option string) (w : world),
    forallb transient_reply (replies (requests w) n url) = true ->
    exists new,
      timeline new = flat_map (fun k => [Get url; Sleep (backoff k)]) (seq a n)
      /\ request_attempts url (seq a n ++ rest) last_exc w
         = request_attempts url rest
             (fold_left last_exc_after (replies (requests w) n url) last_exc)
             {| requests := requests w + n;
                errors := errors w
                          ++ map (transient_diag url) (replies (requests w) n url);
                effects := effects w ++ new |}.
Proof.
  induction n as [|n IH]; intros a rest last_exc w Hall.
  - exists []. split; [reflexivity|]. cbn [seq app replies map fold_left].
    rewrite Nat.add_0_r, !app_nil_r. now destruct w.
  - rewrite replies_S in Hall |- *. cbn [forallb] in Hall.
    apply andb_true_iff in Hall as [H0 Hall].
    cbn [seq app]. rewrite request_attempts_cons.
    destruct (server (requests w) url) as [st ct tx js|e] eqn:Hs.
    + cbn [transient_reply] in H0. cbv zeta. rewrite H0.
      match goal with
      | |- context [request_attempts url (seq (S a) n ++ rest) last_exc ?w1] =>
          destruct (IH (S a) rest last_exc w1 Hall) as [new [Htl Hrun]]
      end.
      rewrite Hrun. cbn [requests errors effects].
      eexists. split; [|cbn [map fold_left last_exc_after transient_diag];
                         f_equal; apply world_eq;
                         [lia | now rewrite <- app_assoc
                              | rewrite <- !app_assoc; reflexivity]].
      rewrite !timeline_app, Htl. reflexivity.
    + match goal with
      | |- context [request_attempts url (seq (S a) n ++ rest) (Some e) ?w1] =>
          destruct (IH (S a) rest (Some e) w1 Hall) as [new [Htl Hrun]]
      end.
      rewrite Hrun. cbn [requests errors effects].
      eexists. split; [|cbn [map fold_left last_exc_after transient_diag];
                         f_equal; apply world_eq;
                         [lia | now rewrite <- app_assoc
                              | rewrite <- !app_assoc; reflexivity]].
      rewrite !timeline_app, Htl. reflexivity.
Qed.

(** X1. When each of the [RETRIES] replies to a request is transient, a
    retryable status or a transport failure in any mix, [request_json] makes
    all five attempts, sleeps after each, records one diagnostic per attempt
    and returns [None]; the final diagnostic carries the last exception that
    [requests.get] raised, or ["None"] when it never raised. *)
Theorem request_json_transient_exhausts (url : string) (w : world) :
  forallb transient_reply (replies (requests w) RETRIES url) = true ->
  exists new,
    request_json url w
    = (None,
       {| requests := requests w + RETRIES;
          errors := errors w
                    ++ map (transient_diag url) (replies (requests w) RETRIES url)
                    ++ [request_failed_all_retries (py_prefix 300 url)
                          (repr_exc (fold_left last_exc_after
                                       (replies (requests w) RETRIES url) None))];
          effects := effects w ++ new |})
    /\ timeline new
       = [Get url; Sleep 1; Get url; Sleep 2; Get url; Sleep 4;
          Get url; Sleep 8; Get url; Sleep 16].
Proof.
  intros Hall.
  destruct (request_attempts_transient url RETRIES 1 [] None w Hall)
    as [new [Htl Hrun]].
  exists new. split; [|rewrite Htl; reflexivity].
  unfold request_json. rewrite <- (app_nil_r (seq 1 RETRIES)), Hrun.
  cbn [request_attempts]. unfold bind, record_error, ret.
  cbn [fst snd requests errors effects]. now rewrite <- app_assoc.
Qed.

(** X2. [request_json] stops at the first reply that is not transient. When
    the first [k] replies are transient and reply [k] is not ([k] below
    [RETRIES]), it sends exactly [k + 1] requests, sleeps only after the [k]
    transient ones, returns the parsed payload when that reply is a 200 that
    parses and [None] otherwise, and records no diagnostic of exhausted
    retries: only those of the transient replies, then the one of the final
    reply if it failed. *)
Theorem request_json_settles (url : string) (w : world) (k : nat) :
  (k < RETRIES)%nat ->
  forallb transient_reply (replies (requests w) k url) = true ->
  transient_reply (server (requests w + k) url) = false ->
  let final := server (requests w + k) url in
  exists new,
    fst (request_json url w) = final_value final
    /\ requests (snd (request_json url w)) = (requests w + S k)%nat
    /\ errors (snd (request_json url w))
       = errors w ++ map (transient_diag url) (replies (requests w) k url)
         ++ final_diags url final
    /\ effects (snd (request_json url w)) = effects w ++ new
    /\ timeline new
       = flat_map (fun j => [Get url; Sleep (backoff j)]) (seq 1 k) ++ [Get url].
Proof.
  intros Hk Hall Hfinal. cbv zeta.
  assert (Hseq : seq 1 RETRIES
                 = seq 1 k ++ (1 + k)%nat :: seq (S (1 + k)) (RETRIES - S k)).
  { replace RETRIES with (k + S (RETRIES - S k))%nat at 1 by lia.
    now rewrite seq_app. }
  unfold request_json. rewrite Hseq.
  destruct (request_attempts_transient url k 1
              ((1 + k)%nat :: seq (S (1 + k)) (RETRIES - S k)) None w Hall)
    as [new [Htl Hrun]].
  rewrite Hrun, request_attempts_cons. cbn [requests errors effects].
  unfold final_value, final_diags.
  destruct (server (requests w + k) url) as [st ct tx js|e] eqn:Hf; [|discriminate].
  cbn [transient_reply] in Hfinal. cbv zeta. rewrite Hfinal.
  destruct (st =? 200) eqn:H200; cbn [negb].
  - destruct js as [p|exc]; cbn [fst snd requests errors effects].
    + eexists. split; [reflexivity|]. split; [lia|].
      split; [now rewrite app_nil_r|]. split; [now rewrite <- app_assoc|].
      rewrite timeline_app, Htl. reflexivity.
    + eexists. split; [reflexivity|]. split; [lia|].
      split; [now rewrite <- app_assoc|]. split; [now rewrite <- !app_assoc|].
      rewrite timeline_app, Htl. reflexivity.
  - cbn [fst snd requests errors effects].
    eexists. split; [now destruct js|]. split; [lia|].
    split; [now rewrite <- app_assoc|]. split; [now rewrite <- !app_assoc|].
    rewrite timeline_app, Htl. reflexivity.
Qed.

(** *** Nothing recorded is lost *)

Lemma extends_refl (w : world) : extends w w.
Proof.
  split; [lia|]. split; exists []; now rewrite app_nil_r.
Qed.

Lemma extends_trans (w1 w2 w3 : world) :
  extends w1 w2 -> extends w2 w3 -> extends w1 w3.
Proof.
  intros (Hr & [d Hd] & [e He]) (Hr' & [d' Hd'] & [e' He']).
  split; [lia|]. split.
  - exists (d ++ d'). now rewrite Hd', Hd, app_assoc.
  - exists (e ++ e'). now rewrite He', He, app_assoc.
Qed.

Lemma bind_extends (A B : Type) (m : M A) (f : A -> M B) (w : world) :
  extends w (snd (m w)) ->
  (forall a w1, extends w1 (snd (f a w1))) ->
  extends w (snd (bind m f w)).
Proof.
  intros Hm Hf. unfold bind. destruct (m w) as [a w1]. cbn [snd] in Hm.
  eapply extends_trans; [exact Hm | apply Hf].
Qed.

Lemma bind_ok_extends (A B : Type) (m : M (result A)) (f : A -> M (result B))
    (w : world) :
  extends w (snd (m w)) ->
  (forall a w1, extends w1 (snd (f a w1))) ->
  extends w (snd (bind_ok m f w)).
Proof.
  intros Hm Hf. unfold bind_ok. apply bind_extends; [exact Hm|].
  intros [a|exc] w1; [apply Hf | apply extends_refl].
Qed.

Lemma ret_extends (A : Type) (a : A) (w : world) : extends w (snd (ret a w)).
Proof. apply extends_refl. Qed.

Lemma emit_extends (e : effect) (w : world) : extends w (snd (emit e w)).
Proof.
  split; [cbn; lia|]. split; cbn; [exists []; now rewrite app_nil_r | now exists [e]].
Qed.

Lemma record_error_extends (d : diag) (w : world) :
  extends w (snd (record_error d w)).
Proof.
  split; [cbn; lia|]. split; cbn; [now exists [d] | exists []; now rewrite app_nil_r].
Qed.

Lemma get_extends (url : string) (w : world) : extends w (snd (get url w)).
Proof.
  split; [cbn; lia|]. split; cbn; [exists []; now rewrite app_nil_r | now exists [Get url]].
Qed.

Ltac extends_auto use_IH :=
  repeat first
    [ lazymatch goal with
      | |- extends _ (snd (bind _ _ _)) => apply bind_extends; [|intros ? ?]
      | |- extends _ (snd (bind_ok _ _ _)) => apply bind_ok_extends; [|intros ? ?]
      | |- extends _ (snd (ret _ _)) => apply ret_extends
      | |- extends _ (snd (emit _ _)) => apply emit_extends
      | |- extends _ (snd (log _ _)) => unfold log; apply emit_extends
      | |- extends _ (snd (sleep _ _)) => unfold sleep; apply emit_extends
      | |- extends _ (snd (write_file _ _ _)) => unfold write_file; apply emit_extends
      | |- extends _ (snd (record_error _ _)) => apply record_error_extends
      | |- extends _ (snd (get _ _)) => apply get_extends
      | |- extends _ (snd ((match ?x with _ => _ end) _)) => destruct x
      end
    | use_IH ].

Lemma request_attempts_extends (url : string) (attempts : list nat) :
  forall (last_exc : option string) (w : world),
    extends w (snd (request_attempts url attempts last_exc w)).
Proof.
  induction attempts as [|a rest IH]; intros last_exc w; cbn [request_attempts];
    extends_auto ltac:(apply IH).
Qed.

Lemma extract_extends (q : string) (sr : option string) (s e : Timestamp)
    (cs : list child) :
  forall (posts : list post) (w : world),
    extends w (snd (extract q sr s e cs posts w)).
Proof.
  induction cs as [|c rest IH]; intros posts w; cbn [extract];
    extends_auto ltac:(apply IH).
Qed.

Lemma fetch_pages_extends (n : nat) (q : string) (sr : option string)
    (s e : Timestamp) :
  forall (cursor : option string) (posts : list post) (w : world),
    extends w (snd (fetch_pages n q sr s e cursor posts w)).
Proof.
  induction n as [|n IH]; intros cursor posts w; cbn [fetch_pages];
    extends_auto ltac:(first [apply IH | apply request_attempts_extends
                             | apply extract_extends]).
Qed.

Lemma flush_errors_extends (w : world) : extends w (snd (flush_errors w)).
Proof.
  unfold flush_errors. destruct (errors w) eqn:Herr; [apply extends_refl|].
  extends_auto fail.
Qed.

Lemma run_query_extends (s e : Timestamp) (qtype q : string) (sr : option string)
    (all_posts : list post) (query_summary : list summary_row) (w : world) :
  extends w (snd (run_query s e qtype q sr all_posts query_summary w)).
Proof.
  unfold run_query. extends_auto ltac:(apply fetch_pages_extends).
Qed.

Lemma run_scopes_extends (s e : Timestamp) (qtype q : string)
    (srs : list (option string)) :
  forall (all_posts : list post) (query_summary : list summary_row) (w : world),
    extends w (snd (run_scopes s e qtype q srs all_posts query_summary w)).
Proof.
  induction srs as [|sr rest IH]; intros all_posts query_summary w; cbn [run_scopes];
    extends_auto ltac:(first [apply IH | apply run_query_extends]).
Qed.

Lemma run_queries_extends (s e : Timestamp) (qs : list (string * string)) :
  forall (all_posts : list post) (query_summary : list summary_row) (w : world),
    extends w (snd (run_queries s e qs all_posts query_summary w)).
Proof.
  induction qs as [|[qtype q] rest IH]; intros all_posts query_summary w;
    cbn [run_queries]; extends_auto ltac:(first [apply IH | apply run_scopes_extends]).
Qed.

Lemma collect_extends (s e : Timestamp) (w : world) :
  extends w (snd (collect s e w)).
Proof.
  unfold collect. extends_auto ltac:(apply run_queries_extends).
Qed.

Lemma report_extends (all_posts : list post) (w : world) :
  extends w (snd (report all_posts w)).
Proof.
  unfold report, plot_weekly, plot_event_window.
  destruct all_posts as [|p rest]; cbv zeta;
    extends_auto ltac:(apply flush_errors_extends).
Qed.

(** X3. A run of [main] only adds to what is on record: the diagnostics
    and the effects it starts from are still there at the end, in their
    order and before everything new, and the count of requests does not
    go down. The same holds for each fetch. *)
Theorem main_keeps_record (now : Timestamp) (w : world) :
  extends w (snd (main now w))
  /\ (forall url w0, extends w0 (snd (request_json url w0)))
  /\ (forall q sr s e max_pages w0,
         extends w0 (snd (fetch_posts_for_query q sr s e max_pages w0))).
Proof.
  split; [|split].
  - unfold main. apply bind_ok_extends; [apply collect_extends|].
    intros all_posts w1. apply bind_extends; [apply report_extends|].
    intros _ w2. apply ret_extends.
  - intros url w0. apply request_attempts_extends.
  - intros q sr s e max_pages w0. apply fetch_pages_extends.
Qed.

Lemma extends_errors_length (w w' : world) :
  extends w w' -> (List.length (errors w) <= List.length (errors w'))%nat.
Proof.
  intros (_ & [d Hd] & _). rewrite Hd, length_app. lia.
Qed.

(** X4. [request_json] returns [None] without recording any diagnostic in
    exactly one case: the first reply has status 200 and its body is the
    JSON value null. Every other [None] leaves at least one diagnostic. *)
Theorem request_json_silent_none (url : string) (w : world) :
  (fst (request_json url w) = None
   /\ errors (snd (request_json url w)) = errors w)
  <-> exists ct text, server (requests w) url = Response 200 ct text (Json None).
Proof.
  split.
  - intros [Hnone Herr].
    assert (Hgrow : forall d rest last_exc w1,
               errors w1 = errors w ++ [d] ->
               errors (snd (request_attempts url rest last_exc w1)) <> errors w).
    { intros d rest last_exc w1 Hw1 Heq.
      pose proof (extends_errors_length _ _
                    (request_attempts_extends url rest last_exc w1)) as Hlen.
      rewrite Heq, Hw1, length_app in Hlen. cbn in Hlen. lia. }
    unfold request_json in Hnone, Herr. cbn [RETRIES seq] in Hnone, Herr.
    rewrite request_attempts_cons in Hnone, Herr.
    destruct (server (requests w) url) as [st ct tx js|e].
    + cbv zeta in Hnone, Herr. destruct (retryable st).
      { exfalso. eapply Hgrow; [|exact Herr]. reflexivity. }
      destruct (Z.eqb_spec st 200) as [-> | Hne]; cbn [negb] in Hnone, Herr.
      * destruct js as [p|exc].
        -- cbn in Hnone. subst p. now exists ct, tx.
        -- cbn in Herr. exfalso.
           apply (f_equal (@List.length diag)) in Herr.
           rewrite length_app in Herr. cbn in Herr. lia.
      * cbn in Herr. exfalso.
        apply (f_equal (@List.length diag)) in Herr.
        rewrite length_app in Herr. cbn in Herr. lia.
    + exfalso. eapply Hgrow; [|exact Herr]. reflexivity.
  - intros (ct & text & Hs).
    rewrite (request_json_first_reply url w 200 ct text (Json None) Hs eq_refl).
    cbn. split; reflexivity.
Qed.

(** *** More on extraction and paging *)

Lemma kept_posts_cons (q : string) (sr : option string) (s e : Timestamp)
    (c : child) (rest : list child) :
  kept_posts q sr s e (c :: rest)
  = match child_post q sr s e c with
    | Ok (Some p) => [p]
    | _ => []
    end ++ kept_posts q sr s e rest.
Proof. reflexivity. Qed.

Lemma child_diags_cons (q : string) (sr : option string) (s e : Timestamp)
    (c : child) (rest : list child) :
  child_diags q sr s e (c :: rest)
  = match child_post q sr s e c with
    | Raise exc => [parse_child_failed exc q (or_empty sr)]
    | _ => []
    end ++ child_diags q sr s e rest.
Proof. reflexivity. Qed.

Lemma extract_eq (q : string) (sr : option string) (s e : Timestamp)
    (cs : list child) :
  forall (posts : list post) (w : world),
    extract q sr s e cs posts w
    = (posts ++ kept_posts q sr s e cs,
       {| requests := requests w;
          errors := errors w ++ child_diags q sr s e cs;
          effects := effects w |}).
Proof.
  induction cs as [|c rest IH]; intros posts w.
  - cbn. rewrite !app_nil_r. now destruct w.
  - rewrite kept_posts_cons, child_diags_cons. cbn [extract].
    destruct (child_post q sr s e c) as [[p|]|exc].
    + rewrite IH. now rewrite <- app_assoc.
    + rewrite IH. reflexivity.
    + unfold bind, record_error. rewrite IH. cbn [requests errors effects].
      now rewrite <- app_assoc.
Qed.

(** X5. Extracting a page is a pure pass over its children: the posts of
    the children that are kept are appended in page order, one
    [parse_child_failed] diagnostic is recorded for each child on which
    extraction raises, and nothing else happens (no request, no effect). So no
    child stops the page, and each child gives at most one post or one
    diagnostic. *)
Theorem extract_is_a_pass (q : string) (sr : option string) (s e : Timestamp)
    (cs : list child) (posts : list post) (w : world) :
  extract q sr s e cs posts w
  = (posts ++ kept_posts q sr s e cs,
     {| requests := requests w;
        errors := errors w ++ child_diags q sr s e cs;
        effects := effects w |})
  /\ (List.length (kept_posts q sr s e cs) + List.length (child_diags q sr s e cs)
      <= List.length cs)%nat.
Proof.
  split; [apply extract_eq|].
  induction cs as [|c rest IH]; [cbn; lia|].
  rewrite kept_posts_cons, child_diags_cons, !length_app. cbn [List.length].
  destruct (child_post q sr s e c) as [[p|]|exc]; cbn [List.length]; lia.
Qed.

(** Both sides of an equivalence fail: whatever one assumes contradicts what
    is known of the child. *)
Ltac unpack :=
  repeat match goal with
         | H : exists _, _ |- _ => destruct H
         | H : _ /\ _ |- _ => destruct H
         | H : _ \/ _ |- _ => destruct H
         | H : ChildObj _ = ChildObj _ |- _ => injection H as H; try subst
         | H : Some _ = Some _ |- _ => injection H as H; try subst
         | H : Ok _ = Ok _ |- _ => injection H as H; try subst
         | H1 : ?a = Some _, H2 : ?a = Some _ |- _ => rewrite H1 in H2
         | H1 : ?a = Ok _, H2 : ?a = Ok _ |- _ => rewrite H1 in H2
         end.

Ltac refute := split; intros ?; unpack; first [discriminate | congruence | lia].

(** X6. Which children are kept, which are skipped in silence and which
    leave a diagnostic. A child is kept exactly when it is an object whose
    [data] is an object with a [created_utc] that is not null, that [int]
    reads, whose whole second [pd.Timestamp] accepts and finds in the window,
    and with a [permalink] that is a string or missing. Extraction raises
    exactly on a child that is no object or whose [data] is none, on a
    [created_utc] that [int] or [pd.Timestamp] refuses, and on a child in the
    window whose [permalink] is not a string. Every other child (no [data],
    no [created_utc] or a null one, or outside the window) is skipped without
    a trace. *)
Theorem child_post_cases (q : string) (sr : option string) (s e : Timestamp)
    (c : child) :
  ((exists p, child_post q sr s e c = Ok (Some p))
   <-> exists d created_utc seconds t,
         c = ChildObj (Some d) /\ i_created_utc d = Some created_utc
         /\ int_created created_utc = Ok seconds
         /\ Timestamp_s seconds = Ok t
         /\ s <= t <= e
         /\ forall exc, i_permalink d <> Some (NotALink exc))
  /\ ((exists exc, child_post q sr s e c = Raise exc)
      <-> (exists exc, c = NotAnObject exc)
          \/ exists d created_utc,
               c = ChildObj (Some d) /\ i_created_utc d = Some created_utc
               /\ ((exists exc, int_created created_utc = Raise exc)
                   \/ (exists seconds exc,
                          int_created created_utc = Ok seconds
                          /\ Timestamp_s seconds = Raise exc)
                   \/ (exists seconds t exc,
                          int_created created_utc = Ok seconds
                          /\ Timestamp_s seconds = Ok t
                          /\ s <= t <= e
                          /\ i_permalink d = Some (NotALink exc))))
  /\ (child_post q sr s e c = Ok None
      <-> c = ChildObj None
          \/ exists d,
               c = ChildObj (Some d)
               /\ (i_created_utc d = None
                   \/ exists created_utc seconds t,
                        i_created_utc d = Some created_utc
                        /\ int_created created_utc = Ok seconds
                        /\ Timestamp_s seconds = Ok t
                        /\ (t < s \/ e < t))).
Proof.
  unfold child_post, within_range, created_dt_of, permalink_of.
  destruct c as [[d|]|exc0]; cbn [i_created_utc empty_item].
  - destruct (i_created_utc d) as [cu|] eqn:Hcu.
    + destruct (int_created cu) as [z|exc1] eqn:Hint.
      * destruct (Timestamp_s z) as [t|exc2] eqn:Ht.
        -- destruct ((s <=? t) && (t <=? e)) eqn:Hin.
           ++ apply andb_true_iff in Hin as [H1 H2]. apply Z.leb_le in H1, H2.
              destruct (i_permalink d) as [[tail|exc3]|] eqn:Hlink.
              ** split; [|split; refute].
                 split; intros _; [|eexists; reflexivity].
                 exists d, cu, z, t. repeat split; try assumption.
                 intros exc H. congruence.
              ** split; [refute|split; [|refute]].
                 split; intros _; [|eexists; reflexivity].
                 right. exists d, cu. split; [reflexivity|].
                 split; [exact Hcu|]. right. right. exists z, t, exc3.
                 repeat split; assumption.
              ** split; [|split; refute].
                 split; intros _; [|eexists; reflexivity].
                 exists d, cu, z, t. repeat split; try assumption.
                 intros exc H. congruence.
           ++ apply andb_false_iff in Hin. rewrite !Z.leb_gt in Hin.
              split; [refute|split; [refute|]].
              split; intros _; [|reflexivity].
              right. exists d. split; [reflexivity|]. right.
              exists cu, z, t. repeat split; assumption.
        -- split; [refute|split; [|refute]].
           split; intros _; [|eexists; reflexivity].
           right. exists d, cu. split; [reflexivity|].
           split; [exact Hcu|]. right. left. now exists z, exc2.
      * split; [refute|split; [|refute]].
        split; intros _; [|eexists; reflexivity].
        right. exists d, cu. split; [reflexivity|].
        split; [exact Hcu|]. left. now exists exc1.
    + split; [refute|split; [refute|]].
      split; intros _; [|reflexivity].
      right. exists d. split; [reflexivity|]. now left.
  - split; [refute|split; [refute|]].
    split; intros _; [now left | reflexivity].
  - split; [refute|split; [|refute]].
    split; intros _; [left; now exists exc0 | now exists exc0].
Qed.

Lemma prefix_append (a b : string) : String.prefix a (a ^^ b) = true.
Proof.
  induction a as [|ch a IH]; [now destruct b|].
  cbn. destruct (Ascii.ascii_dec ch ch); [exact IH | congruence].
Qed.

Lemma kept_posts_found_by (q : string) (sr : option string) (s e : Timestamp)
    (cs : list child) :
  Forall (found_by q sr) (kept_posts q sr s e cs).
Proof.
  apply Forall_forall. intros p Hp. unfold kept_posts in Hp.
  apply in_flat_map in Hp as [c [_ Hp]].
  destruct (child_post q sr s e c) as [[p'|]|exc] eqn:Hc; try contradiction.
  destruct Hp as [<- | []].
  unfold child_post, permalink_of in Hc. destruct c as [data|exc]; [|discriminate].
  destruct (i_created_utc _); [|discriminate].
  destruct (within_range _ _ _) as [[|]|]; try discriminate.
  destruct (created_dt_of _); [|discriminate].
  destruct (i_permalink _) as [[tail|exc]|]; try discriminate;
    injection Hc as <-; repeat split;
    exact (prefix_append "https://www.reddit.com" tail).
Qed.

(** When the paginator returns, it returns what it was handed, then the
    posts of the pages. *)
Lemma fetch_pages_appends (P : post -> Prop) (n : nat) (q : string)
    (sr : option string) (s e : Timestamp) :
  (forall cs, Forall P (kept_posts q sr s e cs)) ->
  forall (cursor : option string) (posts : list post) (w : world) (ps : list post),
    fst (fetch_pages n q sr s e cursor posts w) = Ok ps ->
    exists new, ps = posts ++ new /\ Forall P new.
Proof.
  intros HP. induction n as [|n IH]; intros cursor posts w ps.
  - cbn. intros Hps. injection Hps as <-.
    exists []. split; [now rewrite app_nil_r | constructor].
  - rewrite fetch_pages_S. cbv zeta.
    assert (Hstop : forall w1 : world,
               fst (Ok posts, w1) = Ok ps ->
               exists new, ps = posts ++ new /\ Forall P new).
    { intros w1 Hps. injection Hps as <-.
      exists []. split; [now rewrite app_nil_r | constructor]. }
    destruct (malformed _) as [exc|]; [discriminate|].
    destruct (listing_of _) as [l|]; [|apply Hstop].
    destruct (items_of l) as [|c cs] eqn:Hcs; [apply Hstop|].
    rewrite extract_eq.
    cbn [fst snd]. destruct (negb (truthy (after l))).
    + intros Hps. injection Hps as <-.
      exists (kept_posts q sr s e (c :: cs)). split; [reflexivity | apply HP].
    + intros Hps. destruct (IH _ _ _ _ Hps) as [new [-> Hall]].
      exists (kept_posts q sr s e (c :: cs) ++ new).
      rewrite <- app_assoc. split; [reflexivity|].
      apply Forall_app. split; [apply HP | exact Hall].
Qed.

(** X7. Every record [fetch_posts_for_query] returns carries the query and
    the scope it was called with ([""] for a search of all of Reddit) and a
    permalink that starts with the address of the site. *)
Theorem fetched_posts_name_their_search (q : string) (sr : option string)
    (s e : Timestamp) (max_pages : nat) (w : world) :
  Forall (found_by q sr) (posts_of (fst (fetch_posts_for_query q sr s e max_pages w))).
Proof.
  unfold fetch_posts_for_query.
  destruct (fst (fetch_pages max_pages q sr s e None [] w)) as [ps|exc] eqn:Hrun;
    [|constructor].
  destruct (fetch_pages_appends (found_by q sr) max_pages q sr s e
              (kept_posts_found_by q sr s e) None [] w ps Hrun) as [new [-> Hall]].
  exact Hall.
Qed.

(** The paginator raises on a payload that does not follow the schema, and
    on nothing else. *)
Lemma fetch_pages_raises (n : nat) (q : string) (sr : option string)
    (s e : Timestamp) :
  forall (cursor : option string) (posts : list post) (w : world) (exc : string),
    fst (fetch_pages n q sr s e cursor posts w) = Raise exc ->
    exists cursor' w',
      extends w w'
      /\ malformed (fst (request_json (reddit_search_url q sr cursor') w')) = Some exc.
Proof.
  induction n as [|n IH]; intros cursor posts w exc; [discriminate|].
  rewrite fetch_pages_S. cbv zeta.
  pose proof (request_attempts_extends (reddit_search_url q sr cursor)
                (seq 1 RETRIES) None w) as Hpage.
  fold (request_json (reddit_search_url q sr cursor)) in Hpage.
  destruct (malformed (fst (request_json (reddit_search_url q sr cursor) w)))
    as [exc0|] eqn:Hbad.
  - intros Hexc. injection Hexc as <-. exists cursor, w.
    split; [apply extends_refl | exact Hbad].
  - destruct (listing_of _) as [l|]; [|discriminate].
    destruct (items_of l) as [|c cs]; [discriminate|].
    destruct (negb (truthy (after l))); [discriminate|].
    intros Hexc. destruct (IH _ _ _ _ Hexc) as (cursor' & w' & Hext & Hbad').
    exists cursor', w'. split; [|exact Hbad'].
    eapply extends_trans; [exact Hpage|].
    eapply extends_trans; [apply extract_extends|].
    eapply extends_trans; [|exact Hext].
    unfold sleep. apply emit_extends.
Qed.

(** X8. When the paginator returns, it has given up nothing of what it had
    collected: its result starts with the records it was handed, followed by
    the records kept from the page it fetched first, in page order. A fetch
    that fails on a later page therefore costs only the later pages. What
    loses the records is a payload that does not follow the schema of the
    endpoint: the paginator raises on such a payload, on whichever page it
    comes, and on nothing else, and then it returns no record at all. *)
Theorem fetch_pages_keeps_pages (n : nat) (q : string) (sr : option string)
    (s e : Timestamp) (cursor : option string) (posts : list post) (w : world) :
  let page := request_json (reddit_search_url q sr cursor) w in
  (forall ps, fst (fetch_pages n q sr s e cursor posts w) = Ok ps ->
              exists new, ps = posts ++ new)
  /\ (forall l ps,
         malformed (fst page) = None ->
         listing_of (fst page) = Some l ->
         fst (fetch_pages (S n) q sr s e cursor posts w) = Ok ps ->
         exists later, ps = posts ++ kept_posts q sr s e (items_of l) ++ later)
  /\ (forall exc,
         fst (fetch_pages n q sr s e cursor posts w) = Raise exc ->
         exists cursor' w',
           extends w w'
           /\ malformed (fst (request_json (reddit_search_url q sr cursor') w'))
              = Some exc)
  /\ (forall exc,
         malformed (fst page) = Some exc ->
         fst (fetch_pages (S n) q sr s e cursor posts w) = Raise exc).
Proof.
  intros page.
  assert (Hany : forall cs, Forall (fun _ : post => True) (kept_posts q sr s e cs)).
  { intros cs. apply Forall_forall. intros p _. exact I. }
  split; [|split; [|split]].
  - intros ps Hps.
    destruct (fetch_pages_appends (fun _ => True) n q sr s e Hany cursor posts w ps Hps)
      as [new [Hnew _]].
    now exists new.
  - intros l ps Hwf Hl. rewrite fetch_pages_S. cbv zeta. fold page.
    rewrite Hwf, Hl.
    destruct (items_of l) as [|c cs] eqn:Hcs.
    + intros Hps. injection Hps as <-. exists []. cbn. now rewrite app_nil_r.
    + rewrite extract_eq. cbn [fst snd].
      destruct (negb (truthy (after l))).
      * intros Hps. injection Hps as <-. exists []. now rewrite app_nil_r.
      * intros Hps.
        destruct (fetch_pages_appends (fun _ => True) n q sr s e Hany _ _ _ ps Hps)
          as [later [-> _]].
        exists later. now rewrite <- app_assoc.
  - apply fetch_pages_raises.
  - intros exc Hbad. rewrite fetch_pages_S. cbv zeta. fold page. now rewrite Hbad.
Qed.

(** *** More on the aggregation *)

(** A record that [drop_duplicates] keeps is the first of its identifier. *)
Lemma drop_duplicates_from_first (df : list post) :
  forall (seen : list (option string)) (p : post),
    In p (drop_duplicates_from seen df) ->
    exists before rest,
      df = before ++ p :: rest
      /\ forall x, In x before -> p_id x <> p_id p.
Proof.
  induction df as [|y tail IH]; intros seen p Hp; [contradiction|].
  cbn [drop_duplicates_from] in Hp.
  destruct (existsb (id_eqb (p_id y)) seen) eqn:Hseen.
  - destruct (IH seen p Hp) as (before & rest & -> & Hfirst).
    exists (y :: before), rest. split; [reflexivity|].
    intros x [<- | Hx]; [|now apply Hfirst].
    apply drop_duplicates_from_In in Hp as [_ Hnot].
    apply seen_In in Hseen. congruence.
  - destruct Hp as [<- | Hp].
    + exists [], tail. split; [reflexivity | intros x []].
    + destruct (IH (p_id y :: seen) p Hp) as (before & rest & -> & Hfirst).
      exists (y :: before), rest. split; [reflexivity|].
      intros x [<- | Hx]; [|now apply Hfirst].
      apply drop_duplicates_from_In in Hp as [_ Hnot].
      intros Heq. apply Hnot. left. exact Heq.
Qed.

(** X9. Of several records with one identifier, the aggregation keeps an
    earliest one: no record of the input with the same identifier was
    created before the record that is kept. *)
Theorem deduplicate_keeps_earliest (df : list post) (p x : post) :
  In p (deduplicate df) ->
  In x df ->
  p_id x = p_id p ->
  p_created_dt p <= p_created_dt x.
Proof using sort_values_perm sort_values_sorted.
  intros Hp Hx Hid. unfold deduplicate, drop_duplicates in Hp.
  apply drop_duplicates_from_first in Hp as (before & rest & Hsplit & Hfirst).
  pose proof (sort_values_sorted post p_created_dt df) as Hsorted.
  pose proof (sort_values_perm post p_created_dt df) as Hperm.
  rewrite Hsplit in Hsorted, Hperm.
  assert (Hin : In x (before ++ p :: rest))
    by (eapply Permutation_in; [apply Permutation_sym; exact Hperm | exact Hx]).
  apply in_app_or in Hin as [Hin | [<- | Hin]].
  - exfalso. exact (Hfirst x Hin Hid).
  - lia.
  - clear - Hsorted Hin. induction before as [|b before IH]; cbn [app] in Hsorted.
    + apply StronglySorted_inv in Hsorted as [_ Hall].
      rewrite Forall_forall in Hall. now apply Hall.
    + apply StronglySorted_inv in Hsorted as [Hs _]. now apply IH.
Qed.

Lemma total_cons (z : Z) (zs : list Z) : total (z :: zs) = z + total zs.
Proof. reflexivity. Qed.

Lemma group_cons (k : Z) (p : post) (rest : list post) :
  group k (p :: rest)
  = if post_week p =? k then p :: group k rest else group k rest.
Proof. reflexivity. Qed.

Lemma total_groups_other_week (f : post -> Z) (p : post) (rest : list post)
    (ks : list Z) :
  ~ In (post_week p) ks ->
  total (map (fun k => total (map f (group k (p :: rest)))) ks)
  = total (map (fun k => total (map f (group k rest))) ks).
Proof.
  intros Hnot. f_equal. apply map_ext_in. intros k Hk. rewrite group_cons.
  destruct (Z.eqb_spec (post_week p) k) as [Heq | Hne]; [|reflexivity].
  subst k. contradiction.
Qed.

Lemma total_groups_own_week (f : post -> Z) (p : post) (rest : list post)
    (ks : list Z) :
  NoDup ks ->
  In (post_week p) ks ->
  total (map (fun k => total (map f (group k (p :: rest)))) ks)
  = f p + total (map (fun k => total (map f (group k rest))) ks).
Proof.
  induction ks as [|k ks IH]; intros Hnd Hin; [contradiction|].
  apply NoDup_cons_iff in Hnd as [Hk Hnd].
  cbn [map]. rewrite !total_cons, group_cons.
  destruct (Z.eqb_spec (post_week p) k) as [Heq | Hne].
  - subst k. rewrite (total_groups_other_week f p rest ks Hk).
    cbn [map]. rewrite total_cons. lia.
  - destruct Hin as [Heq | Hin]; [congruence|].
    rewrite (IH Hnd Hin). lia.
Qed.

(** Each record is counted in the group of exactly one week. *)
Lemma total_over_groups (f : post -> Z) (ks : list Z) (df : list post) :
  NoDup ks ->
  (forall p, In p df -> In (post_week p) ks) ->
  total (map (fun k => total (map f (group k df))) ks) = total (map f df).
Proof.
  intros Hnd. induction df as [|p rest IH]; intros Hcover.
  - clear. induction ks as [|k ks IH]; [reflexivity|].
    cbn [map]. rewrite total_cons, IH. reflexivity.
  - rewrite total_groups_own_week; [|exact Hnd | apply Hcover; now left].
    cbn [map]. rewrite total_cons, IH; [reflexivity|].
    intros y Hy. apply Hcover. now right.
Qed.

Lemma group_keys_NoDup (ks : list Z) : NoDup (group_keys ks).
Proof.
  pose proof (group_keys_sorted ks) as Hs.
  induction Hs as [|k rest _ IH Hk]; constructor; [|exact IH].
  rewrite Forall_forall in Hk. intros Hin. specialize (Hk k Hin). lia.
Qed.

Lemma wrap64_total_wrapped (A : Type) (f : A -> Z) (l : list A) :
  wrap64 (total (map (fun x => wrap64 (f x)) l)) = wrap64 (total (map f l)).
Proof.
  induction l as [|x rest IH]; [reflexivity|].
  cbn [map]. rewrite !total_cons, wrap64_add_l, <- wrap64_add_r, IH.
  now rewrite wrap64_add_r.
Qed.

(** X10. The weekly table loses and invents no engagement. In the 64-bit
    arithmetic of the columns its score sums add up to the sum of the scores
    of all the records it was built from, and its comment sums to the sum of
    their comment counts; and when the sum of no week leaves the 64-bit
    integers, the exact sums are the same too. *)
Theorem weekly_aggregate_conserves_sums (df : list post) :
  Forall int64_counters df ->
  sum (map score_sum (weekly_aggregate df)) = sum (map p_score df)
  /\ sum (map comments_sum (weekly_aggregate df)) = sum (map p_num_comments df)
  /\ ((forall w, int64 (total (map p_score (group w df)))) ->
      total (map score_sum (weekly_aggregate df)) = total (map p_score df))
  /\ ((forall w, int64 (total (map p_num_comments (group w df)))) ->
      total (map comments_sum (weekly_aggregate df)) = total (map p_num_comments df)).
Proof using sort_values_perm sort_values_sorted.
  intros _.
  assert (Hgroups : forall f : post -> Z,
             total (map (fun w => total (map f (group w df)))
                        (group_keys (map post_week df)))
             = total (map f df)).
  { intros f. apply total_over_groups; [apply group_keys_NoDup|].
    intros p Hp. apply group_keys_In. now apply in_map. }
  rewrite weekly_aggregate_rows, !map_map. cbn [score_sum comments_sum week_row_of].
  split; [|split; [|split]].
  - rewrite !sum_wraps.
    rewrite (map_ext _ (fun w => wrap64 (total (map p_score (group w df)))))
      by (intros w; apply sum_wraps).
    now rewrite wrap64_total_wrapped, Hgroups.
  - rewrite !sum_wraps.
    rewrite (map_ext _ (fun w => wrap64 (total (map p_num_comments (group w df)))))
      by (intros w; apply sum_wraps).
    now rewrite wrap64_total_wrapped, Hgroups.
  - intros Hfit. rewrite <- (Hgroups p_score). f_equal.
    apply map_ext. intros w. now apply sum_exact.
  - intros Hfit. rewrite <- (Hgroups p_num_comments). f_equal.
    apply map_ext. intros w. now apply sum_exact.
Qed.

Lemma total_ones (g : list post) : total (map (fun _ => 1) g) = Z.of_nat (List.length g).
Proof.
  induction g as [|p rest IH]; [reflexivity|].
  cbn [map List.length]. rewrite total_cons, IH. lia.
Qed.

Lemma total_map_le (A : Type) (f g : A -> Z) (l : list A) :
  (forall x, In x l -> f x <= g x) -> total (map f l) <= total (map g l).
Proof.
  induction l as [|x rest IH]; intros Hle; [reflexivity|].
  cbn [map]. rewrite !total_cons.
  assert (f x <= g x) by (apply Hle; now left).
  assert (total (map f rest) <= total (map g rest))
    by (apply IH; intros y Hy; apply Hle; now right).
  lia.
Qed.

Lemma present_length (ids : list (option string)) :
  (List.length (present ids) <= List.length ids)%nat.
Proof.
  induction ids as [|[i|] rest IH]; cbn [present List.length]; lia.
Qed.

Lemma nodup_length (l : list string) :
  (List.length (nodup string_dec l) <= List.length l)%nat.
Proof.
  induction l as [|x rest IH]; [reflexivity|].
  cbn [nodup]. destruct (in_dec string_dec x rest); cbn [List.length]; lia.
Qed.

Lemma nunique_le (ids : list (option string)) :
  (nunique ids <= List.length ids)%nat.
Proof.
  unfold nunique. pose proof (nodup_length (present ids)).
  pose proof (present_length ids). lia.
Qed.

Lemma nunique_all_distinct (ids : list (option string)) :
  NoDup ids -> ~ In None ids -> nunique ids = List.length ids.
Proof.
  intros Hnd Hnone. unfold nunique.
  assert (Hp : NoDup (present ids) /\ List.length (present ids) = List.length ids).
  { induction ids as [|[i|] rest IH].
    - split; [constructor | reflexivity].
    - apply NoDup_cons_iff in Hnd as [Hi Hnd].
      destruct (IH Hnd) as [Hnd' Hlen]; [intros H; apply Hnone; now right|].
      cbn [present List.length]. split; [|now rewrite Hlen].
      constructor; [|exact Hnd']. now rewrite present_In.
    - exfalso. apply Hnone. now left. }
  destruct Hp as [Hnd' Hlen]. now rewrite (nodup_fixed_point string_dec Hnd').
Qed.

Lemma NoDup_map_filter (A B : Type) (f : A -> B) (g : A -> bool) (l : list A) :
  NoDup (map f l) -> NoDup (map f (filter g l)).
Proof.
  induction l as [|x rest IH]; intros Hnd; [constructor|].
  cbn [map] in Hnd. apply NoDup_cons_iff in Hnd as [Hx Hnd].
  cbn [filter]. destruct (g x); [|now apply IH].
  cbn [map]. constructor; [|now apply IH].
  rewrite in_map_iff in *. intros (y & Hy & Hin). apply Hx.
  exists y. split; [exact Hy|]. now apply filter_In in Hin as [Hin _].
Qed.

(** X11. The [mentions] of the weekly table never add up to more than the
    number of records; and on a table whose records all have an identifier,
    no two the same (the table of unique posts that [main] builds, when every
    post has its [id]), they add up to exactly the number of records. *)
Theorem weekly_aggregate_counts_records (df : list post) :
  total (map (fun r => Z.of_nat (mentions r)) (weekly_aggregate df))
  <= Z.of_nat (List.length df)
  /\ (NoDup (map p_id df) ->
      ~ In None (map p_id df) ->
      total (map (fun r => Z.of_nat (mentions r)) (weekly_aggregate df))
      = Z.of_nat (List.length df)).
Proof using sort_values_perm sort_values_sorted.
  rewrite weekly_aggregate_rows, map_map. cbn [mentions week_row_of].
  assert (Hall : total (map (fun k => total (map (fun _ => 1) (group k df)))
                          (group_keys (map post_week df)))
                 = Z.of_nat (List.length df)).
  { rewrite total_over_groups; [apply total_ones | apply group_keys_NoDup|].
    intros p Hp. apply group_keys_In. now apply in_map. }
  rewrite <- Hall. split.
  - apply total_map_le. intros k _. rewrite total_ones.
    pose proof (nunique_le (map p_id (group k df))) as Hle.
    rewrite length_map in Hle. lia.
  - intros Hnd Hnone. f_equal. apply map_ext. intros k. rewrite total_ones.
    rewrite nunique_all_distinct, length_map; [reflexivity | |].
    + now apply NoDup_map_filter.
    + rewrite in_map_iff in *. intros (p & Hid & Hp). apply Hnone.
      exists p. split; [exact Hid|]. now apply filter_In in Hp as [Hp _].
Qed.

(** X12. The weekly table depends on which records it is given, not on their
    order: two tables with the same rows in different orders have the same
    weekly table. So the sort that [main] runs before it does not change the
    weekly table. *)
Theorem weekly_aggregate_ignores_order (df df' : list post) :
  Permutation df df' ->
  weekly_aggregate df = weekly_aggregate df'
  /\ weekly_aggregate (sort_values post p_created_dt df) = weekly_aggregate df.
Proof using sort_values_perm sort_values_sorted.
  intros Hperm. split.
  - now apply weekly_aggregate_Permutation.
  - apply weekly_aggregate_Permutation, sort_values_perm.
Qed.

(** *** More on the run *)

Lemma flush_errors_eq (w : world) :
  flush_errors w
  = (tt, {| requests := requests w; errors := errors w;
            effects := effects w ++ flush_effects (errors w) |}).
Proof.
  unfold flush_errors, flush_effects. destruct (errors w) as [|d ds] eqn:Herr.
  - rewrite app_nil_r. destruct w. cbn in Herr. now subst.
  - run_effects. rewrite Herr. now rewrite <- app_assoc.
Qed.

(** The rest of [main] when something was collected. *)
Lemma report_posts (p : post) (rest : list post) (w : world) :
  let df := deduplicate (p :: rest) in
  let weekly := weekly_aggregate df in
  let plots := plot_results weekly in
  let backlash_posts :=
    filter (fun x => existsb (String.eqb (p_query x)) QUERY_BACKLASH) df in
  snd (report (p :: rest) w)
  = {| requests := requests w;
       errors := errors w ++ fst plots;
       effects :=
         effects w
         ++ [WriteFile POSTS_CSV (PostsTable df);
             Log [Str "Saved "; Str POSTS_CSV; Str " (";
                  Num (Z.of_nat (List.length df)); Str " unique posts)"];
             WriteFile WEEKLY_CSV (WeeklyTable weekly);
             Log [Str "Saved "; Str WEEKLY_CSV; Str " (";
                  Num (Z.of_nat (List.length weekly)); Str " weeks)"]]
         ++ snd plots
         ++ [Log [Str "Backlash-query unique posts: ";
                  Num (Z.of_nat (nunique (map p_id backlash_posts)))]]
         ++ flush_effects (errors w ++ fst plots)
         ++ [Log [Str "Done."]] |}.
Proof.
  cbv zeta. cbn [report]. unfold plot_results, plot_weekly, plot_event_window.
  fold (event_rows (weekly_aggregate (deduplicate (p :: rest)))).
  unfold bind. unfold log, write_file, emit, ret.
  cbn [fst snd requests errors effects].
  destruct (plot_mentions_raises (weekly_aggregate (deduplicate (p :: rest))))
    as [exc|].
  - cbn [fst snd requests errors effects record_error].
    rewrite flush_errors_eq. cbn [fst snd requests errors effects].
    now rewrite <- !app_assoc.
  - cbn [fst snd requests errors effects].
    destruct (plot_engagement_raises (weekly_aggregate (deduplicate (p :: rest))))
      as [exc|].
    + cbn [fst snd requests errors effects record_error].
      rewrite flush_errors_eq. cbn [fst snd requests errors effects].
      now rewrite <- !app_assoc.
    + cbn [fst snd requests errors effects].
      destruct (plot_event_window_raises
                  (event_rows (weekly_aggregate (deduplicate (p :: rest)))))
        as [exc|].
      * cbn [fst snd requests errors effects record_error].
        rewrite flush_errors_eq. cbn [fst snd requests errors effects].
        now rewrite <- !app_assoc.
      * cbn [fst snd requests errors effects].
        rewrite flush_errors_eq. cbn [fst snd requests errors effects].
        rewrite app_nil_r. now rewrite <- !app_assoc.
Qed.

Ltac file_goal :=
  rewrite !file_content_app;
  match goal with
  | |- context [flush_effects ?l] => destruct l
  end;
  reflexivity.

(** X13. When records were collected, [main] always gets to its end and
    writes its tables, whatever the plots do: the posts file holds the
    deduplicated records and the weekly file their weekly table, the last
    thing done is the log line ["Done."], and a rendering that raises costs
    only figures. Its exception is recorded as one [plot_failed] diagnostic,
    the figures saved before it stay, and no later figure is tried; without a
    failure nothing is recorded and the three figures are written. Whenever
    diagnostics are on record at the end, the errors file holds all of them,
    the one of the plot included. *)
Theorem report_survives_plots (all_posts : list post) (w : world) :
  all_posts <> [] ->
  let df := deduplicate all_posts in
  let weekly := weekly_aggregate df in
  let final := snd (report all_posts w) in
  file_content POSTS_CSV (effects final) = Some (PostsTable df)
  /\ file_content WEEKLY_CSV (effects final) = Some (WeeklyTable weekly)
  /\ (exists before, effects final = before ++ [Log [Str "Done."]])
  /\ (forall exc, plot_mentions_raises weekly = Some exc ->
        errors final = errors w ++ [plot_failed exc])
  /\ (plot_mentions_raises weekly = None ->
      forall exc, plot_engagement_raises weekly = Some exc ->
        errors final = errors w ++ [plot_failed exc]
        /\ file_content PNG_WEEKLY (effects final) = Some Figure)
  /\ (plot_mentions_raises weekly = None ->
      plot_engagement_raises weekly = None ->
      forall exc, plot_event_window_raises (event_rows weekly) = Some exc ->
        errors final = errors w ++ [plot_failed exc]
        /\ file_content PNG_WEEKLY (effects final) = Some Figure
        /\ file_content PNG_ENGAGE (effects final) = Some Figure)
  /\ (plot_mentions_raises weekly = None ->
      plot_engagement_raises weekly = None ->
      plot_event_window_raises (event_rows weekly) = None ->
      errors final = errors w
      /\ file_content PNG_WEEKLY (effects final) = Some Figure
      /\ file_content PNG_ENGAGE (effects final) = Some Figure
      /\ file_content PNG_EVENT (effects final) = Some Figure)
  /\ (errors final <> [] ->
      file_content ERRORS_CSV (effects final) = Some (ErrorsTable (errors final))).
Proof.
  intros Hne. destruct all_posts as [|p rest]; [congruence|]. clear Hne.
  intros df weekly final.
  assert (Hfinal : final
                   = snd (report (p :: rest) w)) by reflexivity.
  rewrite report_posts in Hfinal. cbv zeta in Hfinal.
  fold df in Hfinal. fold weekly in Hfinal. rewrite Hfinal.
  cbn [requests errors effects]. clear Hfinal final.
  unfold plot_results.
  destruct (plot_mentions_raises weekly) as [exc1|] eqn:H1;
    [|destruct (plot_engagement_raises weekly) as [exc2|] eqn:H2;
      [|destruct (plot_event_window_raises (event_rows weekly)) as [exc3|] eqn:H3]];
    cbn [fst snd]; rewrite ?app_nil_r.
  - split; [file_goal|]. split; [file_goal|].
    split; [eexists; rewrite !app_assoc; reflexivity|].
    split; [intros exc Hexc; now injection Hexc as <-|].
    split; [discriminate|]. split; [discriminate|]. split; [discriminate|].
    intros Herr. rewrite !file_content_app.
    destruct (errors w ++ [plot_failed exc1]); [congruence | reflexivity].
  - split; [file_goal|]. split; [file_goal|].
    split; [eexists; rewrite !app_assoc; reflexivity|].
    split; [discriminate|].
    split; [intros _ exc Hexc; injection Hexc as <-; split; [reflexivity | file_goal]|].
    split; [discriminate|]. split; [discriminate|].
    intros Herr. rewrite !file_content_app.
    destruct (errors w ++ [plot_failed exc2]); [congruence | reflexivity].
  - split; [file_goal|]. split; [file_goal|].
    split; [eexists; rewrite !app_assoc; reflexivity|].
    split; [discriminate|]. split; [discriminate|].
    split; [intros _ _ exc Hexc; injection Hexc as <-;
            split; [reflexivity | split; file_goal]|].
    split; [discriminate|].
    intros Herr. rewrite !file_content_app.
    destruct (errors w ++ [plot_failed exc3]); [congruence | reflexivity].
  - split; [file_goal|]. split; [file_goal|].
    split; [eexists; rewrite !app_assoc; reflexivity|].
    split; [discriminate|]. split; [discriminate|]. split; [discriminate|].
    split; [intros _ _ _; repeat split; file_goal|].
    intros Herr. rewrite !file_content_app.
    destruct (errors w); [congruence | reflexivity].
Qed.

(** X14. When the collection returns, the query summary that [main] writes
    has one row for each query and scope, in the order of the loops (all
    scopes of the first query first), each dated with the window of the run;
    a row counts the records its search returned, so the counts add up to the
    number of records collected, before deduplication. *)
Theorem query_summary_accounts (s e : Timestamp) (w : world)
    (all_posts : list post) :
  fst (collect s e w) = Ok all_posts ->
  exists rows,
    file_content QUERY_SUMMARY_CSV (effects (snd (collect s e w)))
    = Some (SummaryTable rows)
    /\ map search_of rows = searches all_queries scopes
    /\ List.length rows = 32%nat
    /\ Forall (fun r => start_utc r = s /\ end_utc r = e) rows
    /\ total_collected rows = List.length all_posts.
Proof.
  intros Hok.
  destruct (collect_summary s e w) as [_ Hsummary].
  destruct (Hsummary all_posts Hok)
    as (_ & rows & before & Heff & Htot & Hsearch & Hdates).
  exists rows. rewrite Heff.
  split; [rewrite file_content_app; reflexivity|].
  split; [exact Hsearch|].
  split; [rewrite <- (length_map search_of), Hsearch; reflexivity|].
  split; assumption.
Qed.

Lemma report_requests (all_posts : list post) (w : world) :
  requests (snd (report all_posts w)) = requests w.
Proof.
  destruct all_posts as [|p rest]; [now rewrite report_nothing|].
  pose proof (report_posts p rest w) as H. cbv zeta in H. now rewrite H.
Qed.

(** X15. A run of [main] sends at least one request and never more than
    3200: at most 20 pages for each of its 32 searches and [RETRIES]
    attempts for each page. A run that returns has sent at least one request
    for each search, 32 in all; a run that ends on an exception may have sent
    fewer. *)
Theorem main_requests_bounded (now : Timestamp) (w : world) :
  (requests w < requests (snd (main now w)) <= requests w + 3200)%nat
  /\ (fst (main now w) = Ok tt ->
      (requests w + 32 <= requests (snd (main now w)))%nat)
  /\ (forall exc, fst (main now w) = Raise exc <-> fst (collect START_DATE now w) = Raise exc).
Proof.
  destruct (collect_summary START_DATE now w) as [Hbound Hok].
  unfold main, bind_ok, bind.
  destruct (collect START_DATE now w) as [[all_posts|exc] w1]; cbn [fst snd] in *.
  - pose proof (report_requests all_posts w1) as Hreport.
    destruct (report all_posts w1) as [u w2]. cbn [fst snd ret] in *.
    destruct (Hok all_posts eq_refl) as [Hmin _].
    split; [lia|]. split; [intros _; lia|].
    intros exc. split; discriminate.
  - cbn [ret fst snd]. split; [lia|]. split; [discriminate|].
    intros exc'. split; intros H; injection H as <-; reflexivity.
Qed.

Lemma backoff_pause (a : nat) : (1 <= a)%nat -> Qle_bool 1 (backoff a) = true.
Proof.
  intros Ha. apply Qle_bool_iff. unfold backoff, BACKOFF_BASE.
  destruct a as [|k]; [lia|].
  replace (Z.of_nat (S k) - 1) with (Z.of_nat k) by lia.
  induction k as [|k IH]; [discriminate|].
  rewrite Nat2Z.inj_succ. unfold Z.succ. rewrite Qpower_plus by discriminate.
  specialize (IH ltac:(lia)). revert IH.
  generalize (Qpower 2 (Z.of_nat k)). intros [n d].
  unfold Qle. cbn. nia.
Qed.

Lemma paced_then_pause (a b : list effect) (seconds : Q) :
  paced a = true -> Qle_bool 1 seconds = true -> paced b = true ->
  paced (a ++ Sleep seconds :: b) = true.
Proof.
  intros Ha Hs Hb. induction a as [|e rest IH]; [exact Hb|].
  destruct e as [u|line|q|path c]; cbn [app paced] in *; try (now apply IH).
  destruct rest as [|e' rest'].
  - cbn [app pause]. now rewrite Hs.
  - cbn [app] in *. apply andb_true_iff in Ha as [He' Hrest].
    rewrite He'. now apply IH.
Qed.

Lemma request_attempts_paced (url : string) (attempts : list nat) :
  Forall (fun a => (1 <= a)%nat) attempts ->
  forall (last_exc : option string) (w : world),
    exists new,
      effects (snd (request_attempts url attempts last_exc w)) = effects w ++ new
      /\ paced (timeline new) = true.
Proof.
  induction 1 as [|a rest Ha _ IH]; intros last_exc w.
  - exists []. cbn. now rewrite app_nil_r.
  - rewrite request_attempts_cons.
    destruct (server (requests w) url) as [st ct tx js|e].
    + cbv zeta. destruct (retryable st).
      * match goal with
        | |- context [request_attempts url rest ?l ?w0] =>
            destruct (IH l w0) as [new [Hnew Hpaced]]
        end.
        rewrite Hnew. cbn [effects]. eexists. rewrite <- !app_assoc.
        split; [reflexivity|].
        rewrite !timeline_app. cbn [timeline filter is_get_or_sleep app paced pause].
        fold (timeline new). now rewrite backoff_pause, Hpaced.
      * destruct (negb (st =? 200)); [|destruct js];
          cbn [snd effects]; eexists; (split; [reflexivity|]); reflexivity.
    + match goal with
      | |- context [request_attempts url rest ?l ?w0] =>
          destruct (IH l w0) as [new [Hnew Hpaced]]
      end.
      rewrite Hnew. cbn [effects]. eexists. rewrite <- !app_assoc.
      split; [reflexivity|].
      rewrite !timeline_app. cbn [timeline filter is_get_or_sleep app paced pause].
      fold (timeline new). now rewrite backoff_pause, Hpaced.
Qed.

Lemma request_json_paced (url : string) (w : world) :
  exists new,
    effects (snd (request_json url w)) = effects w ++ new
    /\ paced (timeline new) = true.
Proof.
  apply request_attempts_paced. unfold RETRIES.
  repeat constructor.
Qed.

Lemma fetch_pages_paced (n : nat) (q : string) (sr : option string)
    (s e : Timestamp) :
  forall (cursor : option string) (posts : list post) (w : world),
    exists new,
      effects (snd (fetch_pages n q sr s e cursor posts w)) = effects w ++ new
      /\ paced (timeline new) = true.
Proof.
  induction n as [|n IH]; intros cursor posts w.
  - exists []. cbn. now rewrite app_nil_r.
  - rewrite fetch_pages_S. cbv zeta.
    destruct (request_json_paced (reddit_search_url q sr cursor) w)
      as [page [Hpage Hpaced]].
    destruct (request_json (reddit_search_url q sr cursor) w) as [data w1].
    cbn [fst snd] in *.
    destruct (malformed data) as [exc|]; [now exists page|].
    destruct (listing_of data) as [l|]; [|now exists page].
    destruct (items_of l) as [|c cs] eqn:Hcs; [now exists page|].
    rewrite extract_eq. cbn [fst snd].
    destruct (negb (truthy (after l))); [now exists page|].
    unfold sleep, emit. cbn [snd requests errors effects].
    match goal with
    | |- context [fetch_pages n q sr s e ?c ?p ?w0] =>
        destruct (IH c p w0) as [later [Hlater Hpaced']]
    end.
    rewrite Hlater. cbn [effects]. rewrite Hpage, <- !app_assoc.
    eexists. split; [reflexivity|].
    rewrite timeline_app. cbn [app]. unfold timeline at 2.
    cbn [filter is_get_or_sleep]. fold (timeline later).
    now apply paced_then_pause.
Qed.

(** X16. Within one call of [request_json], and within one search of
    [fetch_posts_for_query], the script never sends two requests in a row:
    whatever the server answers, a request that is followed by another is
    followed first by a sleep of at least one second, the backoff of a
    failed attempt or the throttle between pages. *)
Theorem requests_are_paced (q : string) (sr : option string) (s e : Timestamp)
    (max_pages : nat) (url : string) (w : world) :
  (exists new,
      effects (snd (request_json url w)) = effects w ++ new
      /\ paced (timeline new) = true)
  /\ (exists new,
         effects (snd (fetch_posts_for_query q sr s e max_pages w)) = effects w ++ new
         /\ paced (timeline new) = true).
Proof.
  split; [apply request_json_paced|].
  unfold fetch_posts_for_query. apply fetch_pages_paced.
Qed.

Lemma only_requests_trans (j k : nat) (w w1 w2 : world) :
  only_requests j w w1 -> only_requests k w1 w2 -> only_requests (j + k) w w2.
Proof.
  intros (Hr & new & He & Hg & Hl) (Hr' & new' & He' & Hg' & Hl').
  split; [lia|]. exists (new ++ new').
  rewrite He', He, <- app_assoc, timeline_app, forallb_app, length_app, Hg, Hg'.
  repeat split. lia.
Qed.

Lemma only_requests_refl (w : world) : only_requests 0 w w.
Proof.
  split; [lia|]. exists []. rewrite app_nil_r. repeat split.
Qed.

Lemma only_requests_effects (w : world) (errs : list diag) (es : list effect) :
  timeline es = [] ->
  only_requests 0 w {| requests := requests w; errors := errs;
                       effects := effects w ++ es |}.
Proof.
  intros Hes. split; [cbn; lia|]. exists es. cbn [effects]. rewrite Hes.
  repeat split.
Qed.

Lemma request_json_one_shot (url : string) (w : world) :
  transient_reply (server (requests w) url) = false ->
  fst (request_json url w) = final_value (server (requests w) url)
  /\ only_requests 1 w (snd (request_json url w)).
Proof.
  intros Hfinal. unfold request_json.
  change (seq 1 RETRIES) with (1 :: seq 2 4)%nat. rewrite request_attempts_cons.
  destruct (server (requests w) url) as [st ct tx js|e]; [|discriminate].
  cbn [transient_reply] in Hfinal. rewrite Hfinal. cbv zeta. cbn [final_value].
  assert (Hone : forall (v : option envelope) errs es,
             timeline es = [] ->
             only_requests 1 w
               (snd (v, {| requests := S (requests w); errors := errs;
                           effects := effects w ++ Get url :: es |}))).
  { intros v errs es Hes. split; [cbn; lia|]. exists (Get url :: es).
    cbn [snd effects]. unfold timeline in *. cbn [filter is_get_or_sleep].
    rewrite Hes. repeat split. }
  destruct (st =? 200); cbn [negb].
  - destruct js as [p|exc]; (split; [reflexivity|]); now apply Hone.
  - split; [now destruct js|]. now apply Hone.
Qed.

Lemma fetch_pages_one_shot (n : nat) (q : string) (sr : option string)
    (s e : Timestamp) (cursor : option string) (posts : list post) (w : world) :
  ends_search (server (requests w) (reddit_search_url q sr cursor)) = true ->
  (exists ps, fst (fetch_pages (S n) q sr s e cursor posts w) = Ok ps)
  /\ only_requests 1 w (snd (fetch_pages (S n) q sr s e cursor posts w)).
Proof.
  intros Hends. apply andb_true_iff in Hends as [Hfinal Hlast].
  apply negb_true_iff in Hfinal.
  destruct (request_json_one_shot _ w Hfinal) as [Hvalue Hone].
  rewrite fetch_pages_S. cbv zeta. rewrite Hvalue.
  destruct (malformed (final_value _)) as [exc|]; [discriminate|].
  destruct (listing_of (final_value _)) as [l|]; [|split; [now eexists | exact Hone]].
  destruct (items_of l) as [|c cs]; [split; [now eexists | exact Hone]|].
  rewrite extract_eq, Hlast. cbn [fst snd]. split; [now eexists|].
  replace 1%nat with (1 + 0)%nat by reflexivity.
  apply (only_requests_trans 1 0 w _ _ Hone).
  rewrite <- (app_nil_r (effects (snd _))). now apply only_requests_effects.
Qed.

Section EveryReplyEndsItsSearch.

Hypothesis every_reply_ends : forall n url, ends_search (server n url) = true.

Lemma run_query_one_shot (s e : Timestamp) (qtype q : string) (sr : option string)
    (all_posts : list post) (query_summary : list summary_row) (w : world) :
  (exists r, fst (run_query s e qtype q sr all_posts query_summary w) = Ok r)
  /\ only_requests 1 w (snd (run_query s e qtype q sr all_posts query_summary w)).
Proof using every_reply_ends.
  unfold run_query, bind_ok, bind, log, emit, ret.
  cbn [fst snd requests errors effects].
  match goal with
  | |- context [fetch_posts_for_query q sr s e 20 ?w0] =>
      pose proof (fetch_pages_one_shot 19 q sr s e None [] w0
                    (every_reply_ends _ _)) as [[ps Hps] Hfetch];
      fold (fetch_posts_for_query q sr s e 20 w0) in Hps, Hfetch;
      destruct (fetch_posts_for_query q sr s e 20 w0) as [r w1]
  end.
  cbn [fst snd] in *. subst r. cbn [fst snd]. split; [now eexists|].
  apply (only_requests_trans 1 0 w w1); [|now apply only_requests_effects].
  refine (only_requests_trans 0 1 w _ w1 _ Hfetch).
  now apply only_requests_effects.
Qed.

Lemma run_scopes_one_shot (s e : Timestamp) (qtype q : string)
    (srs : list (option string)) :
  forall (all_posts : list post) (query_summary : list summary_row) (w : world),
    (exists r, fst (run_scopes s e qtype q srs all_posts query_summary w) = Ok r)
    /\ only_requests (List.length srs) w
         (snd (run_scopes s e qtype q srs all_posts query_summary w)).
Proof using every_reply_ends.
  induction srs as [|sr rest IH]; intros all_posts query_summary w.
  - split; [now eexists | apply only_requests_refl].
  - cbn [run_scopes List.length]. unfold bind_ok, bind.
    destruct (run_query_one_shot s e qtype q sr all_posts query_summary w)
      as [[r0 Hr0] Hone].
    destruct (run_query s e qtype q sr all_posts query_summary w) as [r w1].
    cbn [fst snd] in Hr0, Hone. subst r.
    destruct (IH (fst r0) (snd r0) w1) as [Hok Hrest].
    split; [exact Hok|].
    exact (only_requests_trans 1 _ w w1 _ Hone Hrest).
Qed.

Lemma run_queries_one_shot (s e : Timestamp) (qs : list (string * string)) :
  forall (all_posts : list post) (query_summary : list summary_row) (w : world),
    (exists r, fst (run_queries s e qs all_posts query_summary w) = Ok r)
    /\ only_requests (List.length qs * List.length scopes) w
         (snd (run_queries s e qs all_posts query_summary w)).
Proof using every_reply_ends.
  induction qs as [|[qtype q] rest IH]; intros all_posts query_summary w.
  - split; [now eexists | apply only_requests_refl].
  - cbn [run_queries List.length]. unfold bind_ok, bind.
    destruct (run_scopes_one_shot s e qtype q scopes all_posts query_summary w)
      as [[r0 Hr0] Hone].
    destruct (run_scopes s e qtype q scopes all_posts query_summary w) as [r w1].
    cbn [fst snd] in Hr0, Hone. subst r.
    destruct (IH (fst r0) (snd r0) w1) as [Hok Hrest].
    split; [exact Hok|].
    exact (only_requests_trans _ _ w w1 _ Hone Hrest).
Qed.

Lemma collect_one_shot (s e : Timestamp) (w : world) :
  (exists all_posts, fst (collect s e w) = Ok all_posts)
  /\ only_requests 32 w (snd (collect s e w)).
Proof using every_reply_ends.
  unfold collect, bind_ok, bind, log, write_file, emit, ret.
  cbn [fst snd requests errors effects].
  match goal with
  | |- context [run_queries s e all_queries [] [] ?w0] =>
      pose proof (run_queries_one_shot s e all_queries [] [] w0) as [[r0 Hr0] Hrun];
      destruct (run_queries s e all_queries [] [] w0) as [r w1]
  end.
  cbn [fst snd] in *. subst r. cbn [fst snd requests errors effects].
  split; [now eexists|]. rewrite <- app_assoc.
  apply (only_requests_trans 32 0 w w1); [|now apply only_requests_effects].
  refine (only_requests_trans 0 32 w _ w1 _ Hrun).
  now apply only_requests_effects.
Qed.

End EveryReplyEndsItsSearch.

Lemma report_sends_nothing (all_posts : list post) (w : world) :
  only_requests 0 w (snd (report all_posts w)).
Proof.
  destruct all_posts as [|p rest].
  - rewrite report_nothing. apply only_requests_effects.
    rewrite !timeline_app. now destruct (errors w).
  - pose proof (report_posts p rest w) as Hreport. cbv zeta in Hreport.
    rewrite Hreport. clear Hreport. apply only_requests_effects.
    rewrite !timeline_app.
    generalize (errors w ++ fst (plot_results (weekly_aggregate (deduplicate (p :: rest))))).
    intros errs.
    assert (Hplots : timeline (snd (plot_results
                                      (weekly_aggregate (deduplicate (p :: rest)))))
                     = []).
    { unfold plot_results.
      destruct (plot_mentions_raises _);
        [|destruct (plot_engagement_raises _);
          [|destruct (plot_event_window_raises _)]]; reflexivity. }
    rewrite Hplots. now destruct errs.
Qed.

Lemma all_gets_unpaced (es : list effect) :
  forallb is_get es = true -> (2 <= List.length es)%nat -> paced es = false.
Proof.
  destruct es as [|e1 [|e2 rest]]; cbn [List.length]; try lia.
  cbn [forallb]. intros Hgets _.
  apply andb_true_iff in Hgets as [H1 Hgets].
  apply andb_true_iff in Hgets as [H2 _].
  destruct e1; try discriminate. destruct e2; try discriminate. reflexivity.
Qed.

(** X17. The pacing of requests ends with the search: [main] starts the
    next search without a pause. When every reply of the server ends its
    search (it is not transient, and its page is missing, empty or the last
    one), a run returns after sending its 32 requests one after the other
    with no sleep between any two of them. *)
Theorem main_unpaced_between_searches (now : Timestamp) (w : world) :
  (forall n url, ends_search (server n url) = true) ->
  fst (main now w) = Ok tt
  /\ only_requests 32 w (snd (main now w))
  /\ forall new,
       effects (snd (main now w)) = effects w ++ new ->
       paced (timeline new) = false.
Proof.
  intros Hends.
  assert (Hrun : fst (main now w) = Ok tt /\ only_requests 32 w (snd (main now w))).
  { unfold main, bind_ok, bind.
    pose proof (collect_one_shot Hends START_DATE now w) as [[all_posts Hok] Hcollect].
    destruct (collect START_DATE now w) as [r w1]. cbn [fst snd] in Hok, Hcollect.
    subst r. pose proof (report_sends_nothing all_posts w1) as Hreport.
    destruct (report all_posts w1) as [u w2]. cbn [fst snd ret] in *.
    split; [reflexivity|].
    exact (only_requests_trans 32 0 w w1 _ Hcollect Hreport). }
  destruct Hrun as [Hok Hrun].
  split; [exact Hok|]. split; [exact Hrun|].
  intros new Hnew. destruct Hrun as (_ & new' & Hnew' & Hgets & Hlen).
  rewrite Hnew' in Hnew. apply app_inv_head in Hnew. subst new'.
  apply all_gets_unpaced; [exact Hgets | lia].
Qed.

End Tracker.

(** ** The parameters instantiated *)

Lemma insert_by_key_perm (A : Type) (key : A -> Z) (x : A) (l : list A) :
  Permutation (insert_by_key key x l) (x :: l).
Proof.
  induction l as [|y rest IH]; cbn [insert_by_key]; [reflexivity|].
  destruct (key x <=? key y); [reflexivity|].
  rewrite IH. apply perm_swap.
Qed.

Lemma stable_sort_perm (A : Type) (key : A -> Z) (l : list A) :
  Permutation (stable_sort A key l) l.
Proof.
  induction l as [|x rest IH]; [reflexivity|].
  cbn [stable_sort fold_right]. rewrite insert_by_key_perm.
  now constructor.
Qed.

Lemma insert_by_key_sorted (A : Type) (key : A -> Z) (x : A) (l : list A) :
  StronglySorted (fun a b => key a <= key b) l ->
  StronglySorted (fun a b => key a <= key b) (insert_by_key key x l).
Proof.
  induction l as [|y rest IH]; intros Hs; cbn [insert_by_key].
  - repeat constructor.
  - pose proof (StronglySorted_inv Hs) as [Hrest Hy].
    destruct (Z.leb_spec (key x) (key y)) as [Hle | Hgt].
    + constructor; [exact Hs|]. constructor; [exact Hle|].
      rewrite Forall_forall in *. intros z Hz. specialize (Hy z Hz). lia.
    + constructor; [now apply IH|].
      rewrite Forall_forall in *. intros z Hz.
      apply (Permutation_in _ (insert_by_key_perm A key x rest)) in Hz.
      destruct Hz as [<- | Hz]; [lia | now apply Hy].
Qed.

Lemma stable_sort_sorted (A : Type) (key : A -> Z) (l : list A) :
  StronglySorted (fun a b => key a <= key b) (stable_sort A key l).
Proof.
  induction l as [|x rest IH]; [constructor|].
  cbn [stable_sort fold_right]. now apply insert_by_key_sorted.
Qed.






Lemma Timestamp_ns_value (seconds : Z) (t : Timestamp) :
  Timestamp_ns seconds = Ok t -> t = seconds * NS_PER_SECOND.
Proof.
  unfold Timestamp_ns.
  destruct ((- 2 ^ 63 <? seconds * NS_PER_SECOND)
            && (seconds * NS_PER_SECOND <? 2 ^ 63)); congruence.
Qed.

(** ** The theorems at concrete inputs *)

(** C1 at an overloaded server: five requests, then [None]. *)
Lemma request_json_retryable_exhausts_witness :
  let search_url := reddit_search_url join_params "severance" None None in
  (forall k, (k < RETRIES)%nat ->
             retryable_reply (busy_server (requests initial_world + k) search_url) = true)
  /\ fst (request_json busy_server digest_of_empty search_url initial_world) = None
  /\ requests (snd (request_json busy_server digest_of_empty search_url initial_world))
     = 5%nat
  /\ timeline (effects (snd (request_json busy_server digest_of_empty search_url
                                          initial_world)))
     = [Get search_url; Sleep 1; Get search_url; Sleep 2; Get search_url; Sleep 4;
        Get search_url; Sleep 8; Get search_url; Sleep 16].
Proof.
  intros search_url.
  assert (Hbusy : forall k, (k < RETRIES)%nat ->
                    retryable_reply (busy_server (requests initial_world + k) search_url)
                    = true) by (intros k _; reflexivity).
  split; [exact Hbusy|].
  destruct (request_json_retryable_exhausts busy_server digest_of_empty search_url
              initial_world Hbusy) as [new [Hrun [_ Htl]]].
  rewrite Hrun. cbn [fst snd requests effects initial_world app].
  split; [reflexivity|]. split; [reflexivity | exact Htl].
Defined.

(** C2 at a server that answers 403. *)
Lemma request_json_terminal_failure_witness :
  let search_url := reddit_search_url join_params "severance" None None in
  retryable 403 = false
  /\ request_json forbidden_server digest_of_empty search_url initial_world
     = (None,
        {| requests := 1;
           errors := [http_non_200 403 search_url
                        "reddit_outputs/reddit_raw_http_da39a3ee5e.txt"];
           effects := [Get search_url;
                       Log [Str "GET "; Num 403; Str " | "; Str "text/html"; Str " | ";
                            Str search_url; Str "..."];
                       WriteFile "reddit_outputs/reddit_raw_http_da39a3ee5e.txt"
                                 (RawText "")] |}).
Proof.
  intros search_url.
  split; [reflexivity|].
  destruct (request_json_terminal_failure forbidden_server digest_of_empty search_url
              initial_world 403 "text/html" "" (JsonError "JSONDecodeError")
              eq_refl eq_refl) as [Hhttp _].
  apply Hhttp. discriminate.
Defined.

(** C7 at a server whose first page is empty. *)
Lemma paginator_stops_exactly_witness :
  fst (fetch_posts_for_query empty_server join_params digest_of_empty Timestamp_ns
         "severance" None START_DATE (START_DATE + NS_PER_DAY) 20 initial_world)
  = Ok []
  /\ requests (snd (fetch_posts_for_query empty_server join_params digest_of_empty
                      Timestamp_ns "severance" None START_DATE
                      (START_DATE + NS_PER_DAY) 20 initial_world)) = 1%nat.
Proof.
  pose proof (paginator_stops_exactly empty_server join_params digest_of_empty
                Timestamp_ns 0 "severance" None START_DATE (START_DATE + NS_PER_DAY)
                None [] initial_world) as Hstop.
  cbv zeta in Hstop. destruct Hstop as (_ & _ & _ & _ & _ & _ & Hempty).
  apply (Hempty "application/json" "{}" None 20%nat); [reflexivity | discriminate].
Defined.

(** C7 as stated fails on a payload that does not follow the schema of the
    endpoint. The server answers with a payload that has a cursor and, in
    place of the list of items, the number 5. None of the four conditions
    holds: 19 pages of budget are left, the fetch delivered a listing, its
    items are not an empty list and it carries a cursor. Yet the paginator
    stops after this one request, by raising. *)
Lemma paginator_malformed_counterexample :
  let page :=
    request_json broken_server digest_of_empty
      (reddit_search_url join_params "severance" None None) initial_world in
  let run :=
    fetch_pages broken_server join_params digest_of_empty Timestamp_ns
      20 "severance" None START_DATE (START_DATE + NS_PER_DAY) None [] initial_world in
  requests (snd run) = requests (snd page)
  /\ requests (snd run) = 1%nat
  /\ fst run = Raise "TypeError('int' object is not iterable)"
  /\ ~ (19%nat = 0%nat
        \/ listing_of (fst page) = None
        \/ exists l, listing_of (fst page) = Some l
                     /\ (children l = Items [] \/ truthy (after l) = false)).
Proof.
  cbv zeta. split; [reflexivity|]. split; [reflexivity|]. split; [reflexivity|].
  intros [H | [H | [l [Hl [H | H]]]]]; try discriminate;
    injection Hl as <-; discriminate.
Defined.

(** C3 as stated fails: the item is created strictly after the end of the
    window, and it is among the records returned. *)
Lemma window_filter_fractional_counterexample :
  let late_run :=
    fst (fetch_posts_for_query late_item_server join_params digest_of_empty
           Timestamp_ns "severance" None 0 (100 * NS_PER_SECOND) 1 initial_world) in
  exists p,
    In p (posts_of late_run)
    /\ p_created_utc p = Number (PyFloat (201 # 2))
    /\ (inject_Z (100 * NS_PER_SECOND)
        < pynum_Q (PyFloat (201 # 2)) * inject_Z NS_PER_SECOND)%Q.
Proof.
  cbv zeta.
  eexists. split; [left; reflexivity|]. split; reflexivity.
Defined.

(** The amended C3 at the same run: the record is kept because its time in
    whole seconds, 100, is inside the window. *)
Lemma window_filter_whole_seconds_witness :
  let late_run :=
    fst (fetch_posts_for_query late_item_server join_params digest_of_empty
           Timestamp_ns "severance" None 0 (100 * NS_PER_SECOND) 1 initial_world) in
  exists p,
    In p (posts_of late_run)
    /\ p_created_dt p = 100 * NS_PER_SECOND
    /\ 0 <= p_created_dt p <= 100 * NS_PER_SECOND.
Proof.
  cbv zeta.
  eexists. split; [left; reflexivity|].
  match goal with
  | |- p_created_dt ?p = _ /\ _ =>
      destruct (window_filter_whole_seconds late_item_server join_params
                  digest_of_empty Timestamp_ns stable_sort Timestamp_ns_value
                  stable_sort_perm stable_sort_sorted
                  "severance" None 0 (100 * NS_PER_SECOND) 1 initial_world p
                  (or_introl eq_refl)) as (_ & Hin & Hnumber & _)
  end.
  split; [exact (proj1 (Hnumber _ eq_refl)) | exact Hin].
Defined.

(** C4 on four sightings, two of them of the same post. *)
Lemma deduplicate_one_per_identifier_witness :
  (forall (A : Type) (key : A -> Z) (l : list A), Permutation (stable_sort A key l) l)
  /\ (forall (A : Type) (key : A -> Z) (l : list A),
         StronglySorted (fun a b => key a <= key b) (stable_sort A key l))
  /\ map p_id (deduplicate stable_sort sightings) = [Some "xyz"; Some "abc"; None]
  /\ NoDup (map p_id (deduplicate stable_sort sightings))
  /\ by_creation_time (deduplicate stable_sort sightings).
Proof.
  split; [exact stable_sort_perm|]. split; [exact stable_sort_sorted|].
  split; [reflexivity|].
  destruct (deduplicate_one_per_identifier stable_sort stable_sort_perm
              stable_sort_sorted sightings) as (Hnd & _ & _ & Hsorted).
  split; [exact Hnd | exact Hsorted].
Defined.

(** C5 on the same sightings: two weeks, the second with one identifier
    seen twice and one record without identifier. *)
Lemma weekly_aggregate_per_week_witness :
  (forall (A : Type) (key : A -> Z) (l : list A), Permutation (stable_sort A key l) l)
  /\ (forall (A : Type) (key : A -> Z) (l : list A),
         StronglySorted (fun a b => key a <= key b) (stable_sort A key l))
  /\ weekly_aggregate stable_sort sightings
     = [{| week := 20017 * NS_PER_DAY; mentions := 1; score_sum := 1;
           comments_sum := 0 |};
        {| week := 20087 * NS_PER_DAY; mentions := 1; score_sum := 17;
           comments_sum := 5 |}]
  /\ StronglySorted Z.lt (map week (weekly_aggregate stable_sort sightings)).
Proof.
  split; [exact stable_sort_perm|]. split; [exact stable_sort_sorted|].
  split; [reflexivity|].
  assert (Hfit : Forall int64_counters sightings).
  { unfold sightings, int64_counters, int64. repeat constructor; cbn; lia. }
  destruct (weekly_aggregate_per_week stable_sort stable_sort_perm stable_sort_sorted
              sightings Hfit) as (_ & Hsorted & _).
  exact Hsorted.
Defined.

(** C5 as stated fails where a week's scores add up to more than a 64-bit
    integer holds: three records of one week with scores 2^62, 2^62 and 5,
    each a 64-bit integer, get the score sum -9223372036854775803, while
    their scores add up to 9223372036854775813. *)
Lemma weekly_sums_wrap_counterexample :
  Forall int64_counters heavy_sightings
  /\ (forall p, In p heavy_sightings ->
        in_week (20087 * NS_PER_DAY) (p_created_dt p) = true)
  /\ weekly_aggregate stable_sort heavy_sightings
     = [{| week := 20087 * NS_PER_DAY; mentions := 3;
           score_sum := -9223372036854775803; comments_sum := 0 |}]
  /\ total (map p_score heavy_sightings) = 9223372036854775813.
Proof.
  split.
  { unfold heavy_sightings, int64_counters, int64. repeat constructor; cbn; lia. }
  split.
  { intros p [<- | [<- | [<- | []]]]; reflexivity. }
  split; reflexivity.
Defined.



Lemma empty_run_completes_witness :
  let quiet_run :=
    snd (main empty_server join_params digest_of_empty Timestamp_ns stable_sort
              never_raises never_raises never_raises (20393 * NS_PER_DAY)
              initial_world) in
  fst (collect empty_server join_params digest_of_empty Timestamp_ns START_DATE
               (20393 * NS_PER_DAY) initial_world) = Ok []
  /\ file_content POSTS_CSV (effects quiet_run) = Some (PostsTable [])
  /\ file_content WEEKLY_CSV (effects quiet_run) = Some (WeeklyTable [])
  /\ errors quiet_run = []
  /\ requests quiet_run = 32%nat.
Proof.
  intros quiet_run.
  assert (Hnone : fst (collect empty_server join_params digest_of_empty Timestamp_ns
                               START_DATE (20393 * NS_PER_DAY) initial_world) = Ok [])
    by (vm_compute; reflexivity).
  split; [exact Hnone|].
  pose proof (empty_run_completes empty_server join_params digest_of_empty Timestamp_ns
                stable_sort never_raises never_raises never_raises
                (20393 * NS_PER_DAY) initial_world Hnone)
    as Hrun.
  cbv zeta in Hrun. destruct Hrun as (_ & _ & _ & Hposts & Hweekly & _).
  split; [exact Hposts|]. split; [exact Hweekly|].
  split; vm_compute; reflexivity.
Defined.

(** ** Further examples *)

(** X1 at a server that drops the connection or limits the rate at each
    attempt. *)
Lemma request_json_transient_exhausts_witness :
  let search_url := reddit_search_url join_params "severance" None None in
  forallb transient_reply (replies unsteady_server 0 RETRIES search_url) = true
  /\ fst (request_json unsteady_server digest_of_empty search_url initial_world) = None
  /\ requests (snd (request_json unsteady_server digest_of_empty search_url
                                 initial_world)) = 5%nat
  /\ List.length (errors (snd (request_json unsteady_server digest_of_empty search_url
                                            initial_world))) = 6%nat.
Proof.
  intros search_url.
  assert (Hall : forallb transient_reply
                   (replies unsteady_server (requests initial_world) RETRIES search_url)
                 = true) by reflexivity.
  split; [exact Hall|].
  destruct (request_json_transient_exhausts unsteady_server digest_of_empty search_url
              initial_world Hall) as [new [Hrun _]].
  rewrite Hrun. cbn [fst snd requests errors initial_world].
  split; [reflexivity|]. split; reflexivity.
Defined.

(** X2 at a server that recovers at its third request. *)
Lemma request_json_settles_witness :
  let search_url := reddit_search_url join_params "severance" None None in
  (2 < RETRIES)%nat
  /\ forallb transient_reply (replies recovering_server 0 2 search_url) = true
  /\ transient_reply (recovering_server 2 search_url) = false
  /\ fst (request_json recovering_server digest_of_empty search_url initial_world)
     = Some (Envelope (Some (Listing {| children := Items []; after := None |})))
  /\ requests (snd (request_json recovering_server digest_of_empty search_url
                                 initial_world)) = 3%nat.
Proof.
  intros search_url.
  assert (Hk : (2 < RETRIES)%nat) by (unfold RETRIES; lia).
  assert (Hall : forallb transient_reply
                   (replies recovering_server (requests initial_world) 2 search_url)
                 = true) by reflexivity.
  assert (Hlast : transient_reply
                    (recovering_server (requests initial_world + 2) search_url)
                  = false) by reflexivity.
  split; [exact Hk|]. split; [exact Hall|]. split; [exact Hlast|].
  pose proof (request_json_settles recovering_server digest_of_empty search_url
                initial_world 2 Hk Hall Hlast) as Hrun.
  cbv zeta in Hrun. destruct Hrun as (new & Hvalue & Hrequests & _).
  split; [exact Hvalue | exact Hrequests].
Defined.

(** X9 on two sightings of one post. *)
Lemma deduplicate_keeps_earliest_witness :
  let first := sighting (Some "abc") 1736000000 5 2 in
  let second := sighting (Some "abc") 1736500000 9 4 in
  In first (deduplicate stable_sort resightings)
  /\ In second resightings
  /\ p_id second = p_id first
  /\ p_created_dt first <= p_created_dt second.
Proof.
  intros first second.
  assert (Hkept : In first (deduplicate stable_sort resightings))
    by (left; reflexivity).
  assert (Hseen : In second resightings) by (left; reflexivity).
  assert (Hid : p_id second = p_id first) by reflexivity.
  split; [exact Hkept|]. split; [exact Hseen|]. split; [exact Hid|].
  exact (deduplicate_keeps_earliest stable_sort stable_sort_perm stable_sort_sorted
           resightings first second Hkept Hseen Hid).
Defined.

(** X10 on the four sightings. *)
Lemma weekly_aggregate_conserves_sums_witness :
  Forall int64_counters sightings
  /\ sum (map score_sum (weekly_aggregate stable_sort sightings)) = 18
  /\ sum (map p_score sightings) = 18
  /\ sum (map comments_sum (weekly_aggregate stable_sort sightings))
     = sum (map p_num_comments sightings).
Proof.
  assert (Hfit : Forall int64_counters sightings).
  { unfold sightings, int64_counters, int64. repeat constructor; cbn; lia. }
  split; [exact Hfit|].
  destruct (weekly_aggregate_conserves_sums stable_sort stable_sort_perm
              stable_sort_sorted sightings Hfit) as (Hscore & Hcomments & _).
  split; [rewrite Hscore; reflexivity|]. split; [reflexivity | exact Hcomments].
Defined.

(** X11 on the four sightings, of which the weekly rows count two. *)
Lemma weekly_aggregate_counts_records_witness :
  total (map (fun r => Z.of_nat (mentions r)) (weekly_aggregate stable_sort sightings))
  = 2
  /\ total (map (fun r => Z.of_nat (mentions r)) (weekly_aggregate stable_sort sightings))
     <= Z.of_nat (List.length sightings).
Proof.
  split; [reflexivity|].
  exact (proj1 (weekly_aggregate_counts_records stable_sort stable_sort_perm
                  stable_sort_sorted sightings)).
Defined.

(** X12 on the four sightings and the same in reverse order. *)
Lemma weekly_aggregate_ignores_order_witness :
  Permutation sightings (rev sightings)
  /\ weekly_aggregate stable_sort sightings
     = weekly_aggregate stable_sort (rev sightings).
Proof.
  assert (Hperm : Permutation sightings (rev sightings)) by apply Permutation_rev.
  split; [exact Hperm|].
  exact (proj1 (weekly_aggregate_ignores_order stable_sort stable_sort_perm
                  stable_sort_sorted sightings (rev sightings) Hperm)).
Defined.

(** X13 on the four sightings, with a plot of the engagement that fails. *)
Lemma report_survives_plots_witness :
  let final :=
    snd (report stable_sort never_raises always_raises never_raises sightings
                initial_world) in
  sightings <> []
  /\ file_content POSTS_CSV (effects final)
     = Some (PostsTable (deduplicate stable_sort sightings))
  /\ file_content WEEKLY_CSV (effects final)
     = Some (WeeklyTable (weekly_aggregate stable_sort (deduplicate stable_sort sightings)))
  /\ errors final = [plot_failed "RuntimeError('no display')"]
  /\ file_content PNG_WEEKLY (effects final) = Some Figure
  /\ file_content PNG_ENGAGE (effects final) = None
  /\ file_content ERRORS_CSV (effects final)
     = Some (ErrorsTable [plot_failed "RuntimeError('no display')"]).
Proof.
  intros final.
  assert (Hne : sightings <> []) by discriminate.
  split; [exact Hne|].
  pose proof (report_survives_plots stable_sort never_raises always_raises
                never_raises sightings initial_world Hne) as Hrun.
  cbv zeta in Hrun.
  destruct Hrun as (Hposts & Hweekly & _ & _ & Hfails & _ & _ & Herrors).
  split; [exact Hposts|]. split; [exact Hweekly|].
  destruct (Hfails eq_refl "RuntimeError('no display')" eq_refl) as [Hrecorded Hsaved].
  assert (Hdiag : errors final = [plot_failed "RuntimeError('no display')"])
    by exact Hrecorded.
  split; [exact Hdiag|]. split; [exact Hsaved|]. split; [reflexivity|].
  rewrite <- Hdiag. apply Herrors. change (errors final <> []).
  rewrite Hdiag. discriminate.
Defined.

(** X17 at a server that refuses every request. *)
Lemma main_unpaced_between_searches_witness :
  let run :=
    main forbidden_server join_params digest_of_empty Timestamp_ns stable_sort
         never_raises never_raises never_raises (20393 * NS_PER_DAY) initial_world in
  (forall n url, ends_search (forbidden_server n url) = true)
  /\ fst run = Ok tt
  /\ requests (snd run) = 32%nat
  /\ paced (timeline (effects (snd run))) = false.
Proof.
  intros run.
  assert (Hends : forall n url, ends_search (forbidden_server n url) = true)
    by (intros n url; reflexivity).
  split; [exact Hends|].
  destruct (main_unpaced_between_searches forbidden_server join_params digest_of_empty
              Timestamp_ns stable_sort never_raises never_raises never_raises
              (20393 * NS_PER_DAY) initial_world Hends)
    as (Hok & [Hrequests _] & Hunpaced).
  split; [exact Hok|]. split; [exact Hrequests|].
  apply Hunpaced. reflexivity.
Defined.

(** X8 at a server whose second page has the number 5 in place of its
    items: the record of the first page is lost with the exception. *)
Lemma fetch_pages_keeps_pages_witness :
  let run :=
    fetch_pages breaking_server join_params digest_of_empty Timestamp_ns
      20 "severance" None 0 (200 * NS_PER_SECOND) None [] initial_world in
  fst run = Raise "TypeError('int' object is not iterable)"
  /\ requests (snd run) = 2%nat
  /\ exists cursor' w',
       extends initial_world w'
       /\ malformed (fst (request_json breaking_server digest_of_empty
                            (reddit_search_url join_params "severance" None cursor')
                            w'))
          = Some "TypeError('int' object is not iterable)".
Proof.
  intros run.
  assert (Hrun : fst run = Raise "TypeError('int' object is not iterable)")
    by reflexivity.
  split; [exact Hrun|]. split; [reflexivity|].
  destruct (fetch_pages_keeps_pages breaking_server join_params digest_of_empty
              Timestamp_ns 20 "severance" None 0 (200 * NS_PER_SECOND) None []
              initial_world) as (_ & _ & Hraises & _).
  exact (Hraises _ Hrun).
Defined.

(** X15 at the same server: the run ends on the exception after two
    requests. *)
Lemma main_requests_bounded_witness :
  let run :=
    main breaking_server join_params digest_of_empty Timestamp_ns stable_sort
         never_raises never_raises never_raises (20393 * NS_PER_DAY) initial_world in
  fst run = Raise "TypeError('int' object is not iterable)"
  /\ requests (snd run) = 2%nat
  /\ (0 < requests (snd run) <= 3200)%nat.
Proof.
  intros run.
  split; [vm_compute; reflexivity|]. split; [vm_compute; reflexivity|].
  exact (proj1 (main_requests_bounded breaking_server join_params digest_of_empty
                  Timestamp_ns stable_sort never_raises never_raises never_raises
                  (20393 * NS_PER_DAY) initial_world)).
Defined.

(** X14 at a server whose every page is empty. *)
Lemma query_summary_accounts_witness :
  let run :=
    collect empty_server join_params digest_of_empty Timestamp_ns START_DATE
            (20393 * NS_PER_DAY) initial_world in
  fst run = Ok []
  /\ exists rows,
       file_content QUERY_SUMMARY_CSV (effects (snd run)) = Some (SummaryTable rows)
       /\ List.length rows = 32%nat
       /\ total_collected rows = 0%nat.
Proof.
  intros run.
  assert (Hok : fst run = Ok []) by (vm_compute; reflexivity).
  split; [exact Hok|].
  destruct (query_summary_accounts empty_server join_params digest_of_empty
              Timestamp_ns START_DATE (20393 * NS_PER_DAY) initial_world [] Hok)
    as (rows & Hfile & _ & Hlen & _ & Htotal).
  exists rows. split; [exact Hfile|]. split; [exact Hlen | exact Htotal].
Defined.

End Backlash.

Module DecayFacts.

Import Decay.

(** ** The half-life *)

Lemma Qlt_bool_iff (x y : Q) : Qlt_bool x y = true <-> (x < y)%Q.
Proof.
  unfold Qlt_bool. rewrite negb_true_iff. split.
  - intros H. apply Qnot_le_lt. intros Hle. apply Qle_bool_iff in Hle. congruence.
  - intros H. destruct (Qle_bool y x) eqn:E; [|reflexivity].
    apply Qle_bool_iff in E. exfalso. exact (Qlt_not_le _ _ H E).
Qed.

Lemma Qlt_bool_false (x y : Q) : Qlt_bool x y = false <-> (y <= x)%Q.
Proof.
  unfold Qlt_bool. rewrite negb_false_iff. apply Qle_bool_iff.
Qed.

(** Where [idxmax] lands: on a point that no point exceeds; and the
    specification's peak is that point, followed by the same points. *)
Lemma argmax_from_peak (ps : list point) :
  forall (b1 b2 : list point) (best : point),
    (forall x, In x (b1 ++ best :: b2) -> (value x <= value best)%Q) ->
    exists (before later : list point) (peak : point),
      b1 ++ best :: b2 ++ ps = before ++ peak :: later
      /\ argmax_from (List.length (b1 ++ best :: b2)) (List.length b1) (value best)
                     (map value ps)
         = List.length before
      /\ split_at_peak best (b2 ++ ps) ps = (peak, later)
      /\ (forall x, In x (before ++ peak :: later) -> (value x <= value peak)%Q).
Proof.
  induction ps as [|p rest IH]; intros b1 b2 best Hmax.
  - exists b1, b2, best. rewrite app_nil_r. repeat split; assumption.
  - cbn [map argmax_from split_at_peak].
    destruct (Qlt_bool (value best) (value p)) eqn:Hlt.
    + apply Qlt_bool_iff in Hlt.
      destruct (IH (b1 ++ best :: b2) [] p) as [before [later [peak H]]].
      { intros x Hx. apply in_app_or in Hx as [Hx | [<- | []]].
        - apply Qle_trans with (value best); [now apply Hmax | now apply Qlt_le_weak].
        - apply Qle_refl. }
      destruct H as (Heq & Harg & Hsplit & Hpeak).
      exists before, later, peak. cbn [app] in *.
      rewrite <- app_assoc in Heq. cbn [app] in Heq.
      repeat split; try assumption.
      rewrite <- Harg. f_equal. rewrite !length_app. cbn [List.length]. lia.
    + apply Qlt_bool_false in Hlt.
      destruct (IH b1 (b2 ++ [p]) best) as [before [later [peak H]]].
      { intros x Hx. apply in_app_or in Hx as [Hx | [Hx | Hx]].
        - apply Hmax, in_or_app. now left.
        - apply Hmax, in_or_app. right. now left.
        - apply in_app_or in Hx as [Hx | [<- | []]]; [|exact Hlt].
          apply Hmax, in_or_app. right. now right. }
      destruct H as (Heq & Harg & Hsplit & Hpeak).
      rewrite <- app_assoc in Heq, Hsplit. cbn [app] in Heq, Hsplit.
      exists before, later, peak.
      repeat split; try assumption.
      rewrite <- Harg. f_equal. rewrite !length_app. cbn [List.length].
      rewrite length_app. cbn [List.length]. lia.
Qed.
Lemma running_max_bounds (init : Q) (ps : list point) :
  (init <= running_max init ps)%Q
  /\ (forall x, In x ps -> (value x <= running_max init ps)%Q)
  /\ (forall m, (init <= m)%Q -> (forall x, In x ps -> (value x <= m)%Q) ->
                (running_max init ps <= m)%Q).
Proof.
  induction ps as [|p rest (Hinit & Hge & Hle)]; cbn [running_max fold_right].
  - split; [apply Qle_refl|]. split; [intros x []|]. intros m Hm _. exact Hm.
  - fold (running_max init rest).
    destruct (Qlt_bool (running_max init rest) (value p)) eqn:Hlt.
    + apply Qlt_bool_iff, Qlt_le_weak in Hlt. split; [|split].
      * now apply Qle_trans with (running_max init rest).
      * intros x [<- | Hx]; [apply Qle_refl|].
        apply Qle_trans with (running_max init rest); [now apply Hge | exact Hlt].
      * intros m _ Hall. apply Hall. now left.
    + apply Qlt_bool_false in Hlt. split; [exact Hinit|]. split.
      * intros x [<- | Hx]; [exact Hlt | now apply Hge].
      * intros m Hm Hall. apply Hle; [exact Hm|].
        intros x Hx. apply Hall. now right.
Qed.

(** [peak_value] is the largest value of the series. *)
Lemma peak_value_ge (series : list point) (x : point) :
  In x series -> (value x <= peak_value series)%Q.
Proof.
  intros Hx. unfold peak_value. now apply running_max_bounds.
Qed.

Lemma peak_value_le (series : list point) (m : Q) :
  series <> [] ->
  (forall x, In x series -> (value x <= m)%Q) ->
  (peak_value series <= m)%Q.
Proof.
  intros Hne Hall. unfold peak_value.
  apply running_max_bounds; [|exact Hall].
  destruct series as [|p rest]; [congruence|]. apply Hall. now left.
Qed.

(** The code and the specification, both stated on the split of the series
    at its peak. *)
Lemma half_life_at_peak (df : list point) :
  df <> [] ->
  exists (before later : list point) (peak : point),
    df = before ++ peak :: later
    /\ (forall x, In x df -> (value x <= value peak)%Q)
    /\ compute_half_life df
       = match filter (fun p => Qle_bool (value p) (value peak / 2)%Q)
                      (filter (fun p => date peak <=? date p) df) with
         | [] => Ok None
         | half :: _ => Ok (Some (py_round2 (weeks_between (date peak) (date half))))
         end
    /\ spec_half_life df
       = match find (fun x => Qle_bool (value x) (value peak / 2)%Q) later with
         | Some x => Some (weeks_between (date peak) (date x))
         | None => None
         end.
Proof.
  intros Hne. destruct df as [|p rest]; [congruence|].
  destruct (argmax_from_peak rest [] [] p) as [before [later [peak H]]].
  { intros x [<- | []]. apply Qle_refl. }
  cbn [app List.length] in H. destruct H as (Heq & Harg & Hsplit & Hmax).
  exists before, later, peak. split; [exact Heq|].
  split; [now rewrite Heq|]. split.
  - unfold compute_half_life. cbn [map idxmax]. rewrite Harg.
    rewrite Heq at 1. rewrite nth_error_app2 by lia.
    rewrite Nat.sub_diag. reflexivity.
  - unfold spec_half_life. rewrite Hsplit. reflexivity.
Qed.

Lemma half_of_peak (v : Q) : (0 < v)%Q -> (v / 2 < v)%Q.
Proof.
  intros Hv. destruct v as [a b]. unfold Qlt, Qdiv, Qmult, Qinv in *.
  cbn in *. nia.
Qed.

Lemma half_of_low_peak (v : Q) : (v <= 0)%Q -> (v <= v / 2)%Q.
Proof.
  intros Hv. destruct v as [a b]. unfold Qle, Qdiv, Qmult, Qinv in *.
  cbn in *. nia.
Qed.

Lemma ordered_split (R : point -> point -> Prop) (before later : list point)
    (peak : point) :
  StronglySorted R (before ++ peak :: later) ->
  Forall (fun x => R x peak) before /\ Forall (R peak) later.
Proof.
  induction before as [|b rest IH]; cbn [app]; intros Hs.
  - apply StronglySorted_inv in Hs as [_ Hpeak]. split; [constructor | exact Hpeak].
  - apply StronglySorted_inv in Hs as [Hrest Hb].
    destruct (IH Hrest) as [Hbefore Hlater]. split; [|exact Hlater].
    constructor; [|exact Hbefore].
    rewrite Forall_forall in Hb. apply Hb, in_or_app. right. now left.
Qed.

Lemma filter_none (A : Type) (f : A -> bool) (l : list A) :
  Forall (fun x => f x = false) l -> filter f l = [].
Proof.
  induction 1 as [|x rest Hx _ IH]; [reflexivity|].
  cbn [filter]. now rewrite Hx.
Qed.

Lemma filter_all (A : Type) (f : A -> bool) (l : list A) :
  Forall (fun x => f x = true) l -> filter f l = l.
Proof.
  induction 1 as [|x rest Hx _ IH]; [reflexivity|].
  cbn [filter]. rewrite Hx. now f_equal.
Qed.

Lemma filter_head_find (A : Type) (f : A -> bool) (l : list A) :
  hd_error (filter f l) = find f l.
Proof.
  induction l as [|x rest IH]; [reflexivity|].
  cbn [filter find]. now destruct (f x).
Qed.

Lemma half_le_half (v m : Q) : (v <= m)%Q -> (v / 2 <= m / 2)%Q.
Proof.
  intros H. destruct v as [a b], m as [c d]. unfold Qle, Qdiv, Qmult, Qinv in *.
  cbn in *. nia.
Qed.

Lemma weeks_between_same (d : Timestamp) : py_round2 (weeks_between d d) = 0%Q.
Proof. unfold weeks_between. rewrite Z.sub_diag. reflexivity. Qed.

(** C6, as the code has it. For a series in date order whose peak is
    positive, [compute_half_life] returns the number of weeks, rounded to two
    decimals, from the global peak to the first later point whose value is
    at most half the peak value, and [None] when there is no such point; in
    particular it returns [None] for a series all of whose values stay above
    half the peak. A series that peaks at 100 at week 0 and decays to 50 at
    week 4 has a half-life of 4 weeks. *)
Theorem half_life_after_positive_peak (df : list point) :
  df <> [] ->
  date_ordered df ->
  (0 < peak_value df)%Q ->
  compute_half_life df = Ok (option_map py_round2 (spec_half_life df))
  /\ ((forall x, In x df -> (peak_value df / 2 < value x)%Q) ->
      compute_half_life df = Ok None)
  /\ compute_half_life decaying_series = Ok (Some 4%Q)
  /\ compute_half_life lasting_series = Ok None.
Proof.
  intros Hne Hordered Hpos.
  destruct (half_life_at_peak df Hne)
    as (before & later & peak & Hdf & Hmax & Hcode & Hspec).
  assert (Hpeak : (0 < value peak)%Q).
  { apply Qlt_le_trans with (peak_value df); [exact Hpos|].
    now apply peak_value_le. }
  assert (Hscan : filter (fun p => date peak <=? date p) df = peak :: later).
  { unfold date_ordered in Hordered. rewrite Hdf in Hordered |- *.
    apply ordered_split in Hordered as [Hbefore Hlater].
    rewrite filter_app. cbn [filter]. rewrite Z.leb_refl.
    rewrite filter_none, filter_all; [reflexivity | |].
    - eapply Forall_impl; [|exact Hlater]. cbn. intros x Hx.
      apply Z.leb_le. lia.
    - eapply Forall_impl; [|exact Hbefore]. cbn. intros x Hx.
      apply Z.leb_gt. exact Hx. }
  assert (Hskip : Qle_bool (value peak) (value peak / 2) = false).
  { destruct (Qle_bool (value peak) (value peak / 2)) eqn:E; [|reflexivity].
    apply Qle_bool_iff in E. exfalso.
    exact (Qlt_not_le _ _ (half_of_peak _ Hpeak) E). }
  split; [|split; [|split; reflexivity]].
  - rewrite Hcode, Hspec, Hscan. cbn [filter]. rewrite Hskip.
    rewrite <- filter_head_find.
    now destruct (filter (fun p => Qle_bool (value p) (value peak / 2)) later).
  - intros Habove. rewrite Hcode. rewrite filter_none; [reflexivity|].
    apply Forall_forall. intros x Hx. apply filter_In in Hx as [Hx _].
    destruct (Qle_bool (value x) (value peak / 2)) eqn:E; [|reflexivity].
    apply Qle_bool_iff in E. exfalso.
    apply (Qlt_not_le _ _ (Habove x Hx)).
    apply Qle_trans with (value peak / 2)%Q; [exact E|].
    apply half_le_half, peak_value_ge. rewrite Hdf.
    apply in_or_app. right. now left.
Qed.

(** C10. The scan for the half-peak point starts at the peak row itself
    (the rows with [date >= peak_date]). So for a series in date order whose
    peak value is at most 0, such as a series of zeros, the peak row already
    is at most half the peak, and the half-life returned is 0 weeks, not
    [None]. *)
Theorem half_life_zero_at_low_peak (df : list point) :
  df <> [] ->
  date_sorted df ->
  (peak_value df <= 0)%Q ->
  compute_half_life df = Ok (Some 0%Q)
  /\ compute_half_life flat_series = Ok (Some 0%Q).
Proof.
  intros Hne Hsorted Hlow. split; [|reflexivity].
  destruct (half_life_at_peak df Hne)
    as (before & later & peak & Hdf & Hmax & Hcode & _).
  assert (Hin : In peak df) by (rewrite Hdf; apply in_or_app; right; now left).
  assert (Hhalf : (value peak <= value peak / 2)%Q).
  { apply half_of_low_peak.
    apply Qle_trans with (peak_value df); [now apply peak_value_ge | exact Hlow]. }
  rewrite Hcode. rewrite filter_all.
  2: { apply Forall_forall. intros x Hx. apply filter_In in Hx as [Hx _].
       apply Qle_bool_iff. apply Qle_trans with (value peak); [now apply Hmax | exact Hhalf]. }
  unfold date_sorted in Hsorted. rewrite Hdf in Hsorted |- *.
  apply ordered_split in Hsorted as [Hbefore _].
  rewrite filter_app. cbn [filter]. rewrite Z.leb_refl.
  destruct (filter (fun p => date peak <=? date p) before) as [|h t] eqn:Hscan.
  - cbn [app]. now rewrite weeks_between_same.
  - cbn [app].
    assert (Hh : In h (filter (fun p => date peak <=? date p) before))
      by (rewrite Hscan; now left).
    apply filter_In in Hh as [Hh Hdate]. apply Z.leb_le in Hdate.
    rewrite Forall_forall in Hbefore. specialize (Hbefore h Hh). cbn in Hbefore.
    replace (date h) with (date peak) by lia.
    now rewrite weeks_between_same.
Qed.

(** C6 as stated fails on a series that peaks at 0: the single point of
    [single_zero] has no point after it, so the half-life the specification
    describes is absent, yet the function returns 0 weeks. The value it
    returns is rounded to two decimals: ten days are reported as 1.43
    weeks. *)
Lemma half_life_zero_peak_counterexample :
  compute_half_life single_zero = Ok (Some 0%Q)
  /\ spec_half_life single_zero = None
  /\ compute_half_life ten_day_series = Ok (Some (143 # 100))
  /\ spec_half_life ten_day_series = Some (10 # 7).
Proof. repeat split; reflexivity. Qed.

(** The amended C6 at the decaying series. *)
Lemma half_life_after_positive_peak_witness :
  decaying_series <> []
  /\ date_ordered decaying_series
  /\ (0 < peak_value decaying_series)%Q
  /\ compute_half_life decaying_series
     = Ok (option_map py_round2 (spec_half_life decaying_series)).
Proof.
  assert (Hne : decaying_series <> []) by discriminate.
  assert (Hord : date_ordered decaying_series).
  { unfold date_ordered, decaying_series. repeat constructor; cbn; reflexivity. }
  assert (Hpos : (0 < peak_value decaying_series)%Q) by reflexivity.
  split; [exact Hne|]. split; [exact Hord|]. split; [exact Hpos|].
  exact (proj1 (half_life_after_positive_peak decaying_series Hne Hord Hpos)).
Defined.

(** C10 at a series of zeros. *)
Lemma half_life_zero_at_low_peak_witness :
  flat_series <> []
  /\ date_sorted flat_series
  /\ (peak_value flat_series <= 0)%Q
  /\ compute_half_life flat_series = Ok (Some 0%Q).
Proof.
  assert (Hne : flat_series <> []) by discriminate.
  assert (Hord : date_sorted flat_series).
  { unfold date_sorted, flat_series. repeat constructor; cbn; discriminate. }
  assert (Hlow : (peak_value flat_series <= 0)%Q) by (cbn; discriminate).
  split; [exact Hne|]. split; [exact Hord|]. split; [exact Hlow|].
  exact (proj1 (half_life_zero_at_low_peak flat_series Hne Hord Hlow)).
Defined.

(** ** The half-life on any frame *)

Lemma py_round2_nonneg (x : Q) : (0 <= x)%Q -> (0 <= py_round2 x)%Q.
Proof.
  intros Hx. unfold py_round2. cbv zeta.
  assert (Hn : 0 <= Qfloor (x * 100)).
  { change 0 with (Qfloor 0). apply Qfloor_resp_le.
    destruct x as [a b]. unfold Qle in *. cbn in *. lia. }
  rewrite Qred_correct. revert Hn. generalize (Qfloor (x * 100)). intros n Hn.
  destruct (Qlt_bool _ _); [|destruct (Qlt_bool _ _); [|destruct (Z.even _)]];
    unfold Qle; cbn [Qnum Qden]; lia.
Qed.

Lemma weeks_between_nonneg (peak_date half_date : Timestamp) :
  peak_date <= half_date -> (0 <= weeks_between peak_date half_date)%Q.
Proof.
  intros Hle. unfold weeks_between.
  assert (Hd : 0 <= (half_date - peak_date) / NS_PER_DAY).
  { apply Z.div_pos; [lia | reflexivity]. }
  revert Hd. generalize ((half_date - peak_date) / NS_PER_DAY). intros d Hd.
  unfold Qle, Qdiv, Qmult, Qinv, inject_Z. cbn. lia.
Qed.

(** X18. On any frame, in whatever order its rows are, a half-life that
    [compute_half_life] returns is never negative: it is the rounded number
    of weeks from a row holding the largest value to a row of the frame
    dated no earlier and worth at most half of it. *)
Theorem half_life_never_negative (df : list point) (h : Q) :
  compute_half_life df = Ok (Some h) ->
  (0 <= h)%Q
  /\ exists peak half,
       In peak df /\ In half df
       /\ (value peak == peak_value df)%Q
       /\ date peak <= date half
       /\ (value half <= value peak / 2)%Q
       /\ h = py_round2 (weeks_between (date peak) (date half)).
Proof.
  intros Hsome.
  assert (Hne : df <> []) by (intros ->; discriminate).
  destruct (half_life_at_peak df Hne)
    as (before & later & peak & Hdf & Hmax & Hcode & _).
  rewrite Hcode in Hsome.
  destruct (filter _ (filter _ df)) as [|half rest] eqn:Hscan; [discriminate|].
  assert (Hhalf : In half (half :: rest)) by now left.
  rewrite <- Hscan in Hhalf.
  apply filter_In in Hhalf as [Hhalf Hval]. apply filter_In in Hhalf as [Hin Hdate].
  apply Z.leb_le in Hdate. apply Qle_bool_iff in Hval.
  injection Hsome as <-.
  assert (Hpeak : In peak df) by (rewrite Hdf; apply in_or_app; right; now left).
  split; [now apply py_round2_nonneg, weeks_between_nonneg|].
  exists peak, half. repeat split; try assumption.
  apply Qle_antisym; [now apply peak_value_ge | now apply peak_value_le].
Qed.

(** X19. On any frame, in whatever order its rows are, [compute_half_life]
    returns [None] only at a positive peak, and then every row dated at or
    after the peak row is worth more than half the peak. *)
Theorem half_life_none_above_half (df : list point) :
  compute_half_life df = Ok None ->
  (0 < peak_value df)%Q
  /\ exists peak,
       In peak df /\ (value peak == peak_value df)%Q
       /\ forall x, In x df -> date peak <= date x -> (value peak / 2 < value x)%Q.
Proof.
  intros Hnone.
  assert (Hne : df <> []) by (intros ->; discriminate).
  destruct (half_life_at_peak df Hne)
    as (before & later & peak & Hdf & Hmax & Hcode & _).
  rewrite Hcode in Hnone.
  destruct (filter _ (filter _ df)) as [|half rest] eqn:Hscan; [|discriminate].
  assert (Hpeak : In peak df) by (rewrite Hdf; apply in_or_app; right; now left).
  assert (Habove : forall x, In x df -> date peak <= date x ->
                             (value peak / 2 < value x)%Q).
  { intros x Hx Hdate. apply Qnot_le_lt. intros Hle.
    assert (Hin : In x (filter (fun p => Qle_bool (value p) (value peak / 2)%Q)
                               (filter (fun p => date peak <=? date p) df))).
    { apply filter_In. split; [|now apply Qle_bool_iff].
      apply filter_In. split; [exact Hx | now apply Z.leb_le]. }
    rewrite Hscan in Hin. exact Hin. }
  assert (Heq : (value peak == peak_value df)%Q).
  { apply Qle_antisym; [now apply peak_value_ge | now apply peak_value_le]. }
  split; [|exists peak; repeat split; assumption].
  rewrite <- Heq. apply Qnot_le_lt. intros Hlow.
  apply (Qlt_not_le _ _ (Habove peak Hpeak (Z.le_refl _))).
  now apply half_of_low_peak.
Qed.

Lemma filter_map_swap (A B : Type) (f : B -> bool) (g : A -> B) (l : list A) :
  filter f (map g l) = map g (filter (fun x => f (g x)) l).
Proof.
  induction l as [|x rest IH]; [reflexivity|].
  cbn [map filter]. destruct (f (g x)); cbn [map]; now rewrite IH.
Qed.

Lemma Qle_bool_scaled (c a b : Q) :
  (0 < c)%Q -> Qle_bool (c * a) (c * b / 2) = Qle_bool a (b / 2).
Proof.
  intros Hc. apply eq_true_iff_eq. rewrite !Qle_bool_iff.
  assert (Heq : (c * b / 2 == c * (b / 2))%Q) by (unfold Qdiv; ring).
  rewrite Heq. split; intros H.
  - apply Qmult_le_l in H; assumption.
  - apply Qmult_le_l; assumption.
Qed.

Lemma Qlt_bool_scaled (c a b : Q) :
  (0 < c)%Q -> Qlt_bool (c * a) (c * b) = Qlt_bool a b.
Proof.
  intros Hc. apply eq_true_iff_eq. rewrite !Qlt_bool_iff. split; intros H.
  - apply Qmult_lt_l in H; assumption.
  - apply Qmult_lt_l; assumption.
Qed.

Lemma argmax_from_rescale (c : Q) (ps : list point) :
  (0 < c)%Q ->
  forall (i best_i : nat) (best : Q),
    argmax_from i best_i (c * best) (map value (map (rescale c) ps))
    = argmax_from i best_i best (map value ps).
Proof.
  intros Hc. induction ps as [|p rest IH]; intros i best_i best; [reflexivity|].
  cbn [map argmax_from rescale value]. rewrite Qlt_bool_scaled by exact Hc.
  destruct (Qlt_bool best (value p)); apply IH.
Qed.

(** X21. The half-life does not depend on the scale of the interest values:
    multiplying every value by the same positive factor, the products taken
    as exact numbers, leaves the result of [compute_half_life] as it is. *)
Theorem half_life_scale_free (c : Q) (df : list point) :
  (0 < c)%Q ->
  compute_half_life (map (rescale c) df) = compute_half_life df.
Proof.
  intros Hc. unfold compute_half_life.
  assert (Hidx : idxmax (map value (map (rescale c) df)) = idxmax (map value df)).
  { destruct df as [|p rest]; [reflexivity|].
    cbn [map idxmax rescale value]. f_equal.
    exact (argmax_from_rescale c rest Hc 1%nat 0%nat (value p)). }
  rewrite Hidx. destruct (idxmax (map value df)) as [peak_idx|e]; [|reflexivity].
  rewrite nth_error_map.
  destruct (nth_error df peak_idx) as [peak|]; [|reflexivity].
  cbn [option_map rescale date value]. cbv zeta.
  rewrite !filter_map_swap. cbn [rescale date value].
  rewrite (filter_ext (fun x => Qle_bool (c * value x) (c * value peak / 2)%Q)
                      (fun x => Qle_bool (value x) (value peak / 2)%Q))
    by (intros x; now apply Qle_bool_scaled).
  now destruct (filter _ (filter _ df)).
Qed.

(** X22. The half-life does not depend on where the series lies in time:
    moving every row by the same amount leaves the result of
    [compute_half_life] as it is. *)
Theorem half_life_shift_free (t : Z) (df : list point) :
  compute_half_life (map (shift t) df) = compute_half_life df.
Proof.
  unfold compute_half_life.
  assert (Hvalues : map value (map (shift t) df) = map value df).
  { rewrite map_map. reflexivity. }
  rewrite Hvalues. destruct (idxmax (map value df)) as [peak_idx|e]; [|reflexivity].
  rewrite nth_error_map.
  destruct (nth_error df peak_idx) as [peak|]; [|reflexivity].
  cbn [option_map shift date value]. cbv zeta.
  rewrite !filter_map_swap. cbn [shift date value].
  rewrite (filter_ext (fun x => date peak + t <=? date x + t)
                      (fun x => date peak <=? date x)).
  2: { intros x. apply eq_true_iff_eq. rewrite !Z.leb_le. lia. }
  destruct (filter _ (filter _ df)) as [|half rest]; [reflexivity|].
  cbn [map shift date]. unfold weeks_between.
  now replace (date half + t - (date peak + t)) with (date half - date peak) by lia.
Qed.

(** ** The event window *)

(** X23. The event window extract holds exactly the rows of the frame dated
    within 60 days of the event, both ends included, in the order of the
    frame, each with the whole days from the event to it, rounded down, as
    its offset. So the offsets lie between -60 and 60, and the two ends
    differ: every row dated within the first day of the window is kept, with
    offset -60, while of the day 60 days after the event only a row dated at
    its very start is kept, the offset 60 being given to no other row. A row
    dated at the start of a day within the window is in the extract, with the
    number of days from the event to it as offset. *)
Theorem event_window_offsets (row : Type) (row_date : row -> Timestamp)
    (full_df : list row) :
  (forall r o,
      In (r, o) (event_df row_date full_df)
      <-> In r full_df
          /\ - Timedelta 60 <= row_date r - EVENT_DATE <= Timedelta 60
          /\ o = dt_days (row_date r - EVENT_DATE))
  /\ map fst (event_df row_date full_df)
     = filter (fun r => (- Timedelta 60 <=? row_date r - EVENT_DATE)
                        && (row_date r - EVENT_DATE <=? Timedelta 60)) full_df
  /\ (forall r o, In (r, o) (event_df row_date full_df) -> -60 <= o <= 60)
  /\ (forall r, In r full_df ->
                - Timedelta 60 <= row_date r - EVENT_DATE < - Timedelta 59 ->
                In (r, -60) (event_df row_date full_df))
  /\ (forall r, In (r, 60) (event_df row_date full_df) ->
                row_date r = EVENT_DATE + Timedelta 60)
  /\ (forall r o, Timedelta 60 < row_date r - EVENT_DATE ->
                  ~ In (r, o) (event_df row_date full_df))
  /\ (forall r day, In r full_df -> row_date r = day * NS_PER_DAY ->
                    -60 <= day - 20105 <= 60 ->
                    In (r, day - 20105) (event_df row_date full_df)).
Proof.
  assert (Hin : forall r o,
             In (r, o) (event_df row_date full_df)
             <-> In r full_df
                 /\ - Timedelta 60 <= row_date r - EVENT_DATE <= Timedelta 60
                 /\ o = dt_days (row_date r - EVENT_DATE)).
  { intros r o. unfold event_df. rewrite in_map_iff. split.
    - intros [r0 [Heq Hr0]]. injection Heq as -> <-.
      apply filter_In in Hr0 as [Hr0 Hwindow].
      apply andb_true_iff in Hwindow as [Hfrom Hto]. apply Z.leb_le in Hfrom, Hto.
      unfold EVENT_WINDOW_DAYS in *. repeat split; try assumption; lia.
    - intros (Hr & Hwindow & ->). exists r. split; [reflexivity|].
      apply filter_In. split; [exact Hr|].
      apply andb_true_iff. rewrite !Z.leb_le. unfold EVENT_WINDOW_DAYS. lia. }
  split; [exact Hin|]. split.
  { unfold event_df. rewrite map_map. cbn [fst]. rewrite map_id.
    apply filter_ext. intros r. unfold EVENT_WINDOW_DAYS.
    apply eq_true_iff_eq. rewrite !andb_true_iff, !Z.leb_le. lia. }
  unfold dt_days, EVENT_DATE, Timedelta in *.
  change NS_PER_DAY with 86400000000000 in *.
  split; [|split; [|split; [|split]]].
  - intros r o Hro. apply Hin in Hro as (_ & Hwindow & ->).
    Z.div_mod_to_equations. lia.
  - intros r Hr Hday. apply Hin. split; [exact Hr|]. split; [lia|].
    Z.div_mod_to_equations. lia.
  - intros r Hro. apply Hin in Hro as (_ & Hwindow & Ho).
    revert Ho. Z.div_mod_to_equations. lia.
  - intros r o Hlate Hro. apply Hin in Hro as (_ & Hwindow & _). lia.
  - intros r day Hr Hdate Hday. apply Hin. split; [exact Hr|]. rewrite Hdate.
    split; [lia|]. Z.div_mod_to_equations. lia.
Qed.

(** ** Further examples *)

(** X18 at a half-life of ten days. *)
Lemma half_life_never_negative_witness :
  compute_half_life ten_day_series = Ok (Some (143 # 100))
  /\ (0 <= 143 # 100)%Q.
Proof.
  assert (Hrun : compute_half_life ten_day_series = Ok (Some (143 # 100)))
    by reflexivity.
  split; [exact Hrun|].
  exact (proj1 (half_life_never_negative ten_day_series (143 # 100) Hrun)).
Defined.

(** X19 at a series that stays above half its peak. *)
Lemma half_life_none_above_half_witness :
  compute_half_life lasting_series = Ok None
  /\ (0 < peak_value lasting_series)%Q.
Proof.
  assert (Hrun : compute_half_life lasting_series = Ok None) by reflexivity.
  split; [exact Hrun|].
  exact (proj1 (half_life_none_above_half lasting_series Hrun)).
Defined.

(** X21 at the decaying series, on a scale from 0 to 1. *)
Lemma half_life_scale_free_witness :
  (0 < 1 # 100)%Q
  /\ compute_half_life (map (rescale (1 # 100)) decaying_series) = Ok (Some 4%Q)
  /\ compute_half_life (map (rescale (1 # 100)) decaying_series)
     = compute_half_life decaying_series.
Proof.
  assert (Hc : (0 < 1 # 100)%Q) by reflexivity.
  split; [exact Hc|]. split; [reflexivity|].
  exact (half_life_scale_free (1 # 100) decaying_series Hc).
Defined.

(** X23 at rows 60 days before and after the event. *)
Lemma event_window_offsets_witness :
  event_df date rows_around_event
  = [(at_day 20045 20, -60); (at_day 20105 30, 0); (at_day 20165 40, 60)]
  /\ In (at_day 20165 40, 20165 - 20105) (event_df date rows_around_event)
  /\ ~ In (at_day 20166 50, 61) (event_df date rows_around_event).
Proof.
  destruct (event_window_offsets point date rows_around_event)
    as (_ & _ & _ & _ & _ & Hlate & Hday).
  split; [reflexivity|]. split.
  - apply Hday; [right; right; right; left; reflexivity | reflexivity | lia].
  - apply Hlate. reflexivity.
Defined.


End DecayFacts.
